(** * whatsmeow client core: session dispatch and retry engines

    A shallow embedding of [client.go], [retry.go] and the call handler of
    the whatsmeow client, together with the properties of the retry
    counters, the recent-message ring, the session-recreation policy, the
    retry-receipt stanza, the call handler, [Connect] and the event-handler
    registry.

    Conventions.
    - Go [int] is modelled as a 64-bit two's complement integer carried by
      [Z] ([wrap_int]); [uint32] as [Z] modulo [2^32] ([wrap_u32]).
    - A byte is an 8-bit [Z]; byte strings are [list Z].
    - Go maps and [xsync.MapOf] are [gmap]s; the fixed-size array of the
      recent-message ring and the handler slice are lists.
    - [*waProto.Message] values live in a heap of message cells, so that
      sharing between the recent-message cache and the retry engine is
      visible.
    - Collaborators outside the modelled files (Signal store, codec, socket,
      user hooks) are fields of [Collaborators]; they act on an abstract
      world [W].
    - Every modelled method is a function from the state to a result, the
      new state and the list of observable events it caused, in program
      order. The socket and handler locks are not modelled: the methods are
      read as executing one at a time. *)

Set Warnings "-register-all,-clear-no-such-hyp".
From Stdlib Require Import ZArith Lia Ascii String.
From stdpp Require Import gmap strings list fin_maps sorting.

Local Open Scope string_scope.
Local Open Scope list_scope.

(** ** Machine integers *)

Definition wrap_int (z : Z) : Z := ((z + 2 ^ 63) mod 2 ^ 64 - 2 ^ 63)%Z.
Definition wrap_u32 (z : Z) : Z := (z mod 2 ^ 32)%Z.
Definition to_byte (z : Z) : Z := Z.land z 255.

(** ** Identities and stanzas *)

Record JID := mkJID { User : string; Agent : N; Device : N; Server : string }.

Definition EmptyJID : JID := mkJID "" 0 0 "".

Global Instance JID_eq_dec : EqDecision JID.
Proof. solve_decision. Defined.

Global Instance JID_countable : Countable JID.
Proof.
  apply (inj_countable' (λ j, (User j, Agent j, Device j, Server j))
           (λ t, let '(u, a, d, s) := t in mkJID u a d s)).
  by intros [].
Defined.

Abbreviation MessageID := string (only parsing).
Abbreviation Time := Z (only parsing).

(** [waBinary.Attrs] is [map[string]interface{}]: a value is one of the
    dynamic types the modelled code stores or reads. *)
Inductive AttrVal :=
| VNil
| VString (s : string)
| VInt (z : Z)
| VInt64 (z : Z)
| VBool (b : bool)
| VJID (j : JID).

Inductive NodeContent (N : Type) :=
| CNil
| CBytes (b : list Z)
| CNodes (l : list N).
Arguments CNil {N}.
Arguments CBytes {N} b.
Arguments CNodes {N} l.

Inductive Node :=
| mkNode (tag : string) (attrs : gmap string AttrVal) (content : NodeContent Node).

Definition Tag (n : Node) : string := let '(mkNode t _ _) := n in t.
Definition Attrs (n : Node) : gmap string AttrVal := let '(mkNode _ a _) := n in a.
Definition Content (n : Node) : NodeContent Node := let '(mkNode _ _ c) := n in c.

(** Go's [m[key]] on a map of interfaces: the zero value [nil] when absent. *)
Definition attr_index (a : gmap string AttrVal) (k : string) : AttrVal :=
  default VNil (a !! k).

(** ** Messages *)

(** [waProto.Message]: the two fields the retry engine writes, and the rest
    of the proto, which it only passes on. *)
Inductive Message :=
| mkMessage (other : string)
    (skdm : option (string * list Z))
    (deviceSent : option (string * Message)).

Definition Other (m : Message) : string := let '(mkMessage o _ _) := m in o.
Definition SenderKeyDistributionMessage (m : Message) : option (string * list Z) :=
  let '(mkMessage _ s _) := m in s.
Definition DeviceSentMessage (m : Message) : option (string * Message) :=
  let '(mkMessage _ _ d) := m in d.

(** ** Keys of the client's maps *)

Record recentMessageKey := mkRecentKey { To : JID; ID : MessageID }.

Global Instance recentMessageKey_eq_dec : EqDecision recentMessageKey.
Proof. solve_decision. Defined.

Global Instance recentMessageKey_countable : Countable recentMessageKey.
Proof.
  apply (inj_countable' (λ k, (To k, ID k)) (λ t, mkRecentKey t.1 t.2)).
  by intros [].
Defined.

Record incomingRetryKey := mkRetryKey { jid : JID; messageID : MessageID }.

Global Instance incomingRetryKey_eq_dec : EqDecision incomingRetryKey.
Proof. solve_decision. Defined.

Global Instance incomingRetryKey_countable : Countable incomingRetryKey.
Proof.
  apply (inj_countable' (λ k, (jid k, messageID k)) (λ t, mkRetryKey t.1 t.2)).
  by intros [].
Defined.

Definition recentMessagesSize : nat := 256.

(** ** Events, receipts and errors *)

Record Receipt := mkReceipt {
  Chat : JID; Sender : JID; IsFromMe : bool; IsGroup : bool }.

Record MessageInfo := mkMessageInfo {
  InfoChat : JID; InfoSender : JID; InfoID : MessageID }.

Record BasicCallMeta := mkBasicCallMeta {
  From : JID; Timestamp : Time; CallCreator : JID; CallID : string }.

Record CallRemoteMeta := mkCallRemoteMeta {
  RemotePlatform : string; RemoteVersion : string }.

(** The variants of [events] the modelled code dispatches. *)
Inductive WAEvent :=
| Disconnected
| UnknownCallEvent (node : Node)
| CallOffer (meta : BasicCallMeta) (remote : CallRemoteMeta) (data : Node)
| CallOfferNotice (meta : BasicCallMeta) (media type : string) (data : Node)
| CallRelayLatency (meta : BasicCallMeta) (data : Node)
| CallAccept (meta : BasicCallMeta) (remote : CallRemoteMeta) (data : Node)
| CallPreAccept (meta : BasicCallMeta) (remote : CallRemoteMeta) (data : Node)
| CallTransport (meta : BasicCallMeta) (remote : CallRemoteMeta) (data : Node)
| CallTerminate (meta : BasicCallMeta) (reason : string) (data : Node).

Inductive Error :=
| ErrNotConnected
| ErrNotLoggedIn
| ErrAlreadyConnected
| ElementMissingError (tag where_ : string)
| ErrAttrs (errs : list string)
| ErrExternal (what : string)
| Errorf (format : string) (cause : option Error).

Abbreviation NoiseSocket := positive (only parsing).
Abbreviation FrameSocket := positive (only parsing).

Inductive LogLevel := LDebug | LWarn | LError.

(** Goroutines started with [go]. *)
Inductive Task :=
| GoSendAck (node : Node)
| GoDelayedRequestMessageFromPhone (info : MessageInfo)
| GoKeepAliveLoop (sock : NoiseSocket)
| GoHandlerQueueLoop (sock : NoiseSocket).

(** What a method does to the outside, in program order. [EvSendNode n]
    records the call [cli.sendNode(n)], the stanza a method emits;
    [EvSendFrame] the frame that [sendNode] hands to a live socket.
    [EvDispatch e] records the call [cli.dispatchEvent(e)]. *)
Inductive Event :=
| EvLog (lvl : LogLevel) (format : string)
| EvSendNode (n : Node)
| EvSendFrame (sock : NoiseSocket) (payload : list Z)
| EvGo (t : Task)
| EvDispatch (e : WAEvent)
| EvFetchPreKeys (jids : list JID)
| EvSocketStop (sock : NoiseSocket) (force : bool)
| EvWaiterDeliver (id : string) (waiter : positive) (n : Node)
| EvFrameConnect (fs : FrameSocket)
| EvFrameClose (fs : FrameSocket).

Definition xmlStreamEndNode : Node := mkNode "xmlstreamend" ∅ CNil.

Record PreKey := mkPreKey {
  KeyID : Z; KeyPub : list Z; KeySignature : option (list Z) }.

Definition recreateSessionTimeout : Z := (1 * (3600 * 10 ^ 9))%Z.
Definition time_Add (t : Time) (d : Z) : Time := (t + d)%Z.
Definition time_Before (t u : Time) : bool := (t <? u)%Z.
Definition time_Unix (t : Time) : Z := (t `div` 10 ^ 9)%Z.
Definition time_zero : Time := (-62135596800 * 10 ^ 9)%Z.
Definition time_FromUnix (sec : Z) : Time := (sec * 10 ^ 9)%Z.

Definition DjbType : Z := 5.

(** ** Codec helpers on stanzas *)

(** Modelled from the spec: [GetChildren] and [GetOptionalChildByTag] of the
    [binary] package, whose source is not part of the modelled files. The
    content of a stanza is bytes or a list of stanzas; the children are that
    list, and nothing for any other content. *)
Definition GetChildren (n : Node) : list Node :=
  match Content n with
  | CNodes l => l
  | _ => []
  end.

Definition GetOptionalChildByTag (n : Node) (tag : string) : option Node :=
  snd <$> list_find (λ c, Tag c = tag) (GetChildren n).

(** [binary.BigEndian.PutUint32] into a 4-byte array. *)
Definition PutUint32 (v : Z) : list Z :=
  [to_byte (Z.shiftr v 24); to_byte (Z.shiftr v 16); to_byte (Z.shiftr v 8); to_byte v].

(** The value a big-endian byte string denotes. *)
Definition be_value (b : list Z) : Z := foldl (λ acc x, (acc * 256 + x)%Z) 0%Z b.

(** Modelled from the spec: the attribute getters of the [binary] package
    ("attribute access is typed and error-accumulating: a get returns a
    value and a sticky error flag reports whether any requested required
    attribute was absent or malformed"). [strconv.ParseInt] is the argument
    [parseInt]. *)
Record AttrUtility := mkAttrUtility {
  au_Attrs : gmap string AttrVal; au_Errors : list string }.

Definition AttrGetter (n : Node) : AttrUtility := mkAttrUtility (Attrs n) [].

Definition au_fail (au : AttrUtility) (key : string) : AttrUtility :=
  mkAttrUtility (au_Attrs au) (au_Errors au ++ [key]).

Definition GetString (key : string) (require : bool) (au : AttrUtility)
  : option string * AttrUtility :=
  match au_Attrs au !! key with
  | None => (None, if require then au_fail au key else au)
  | Some (VString s) => (Some s, au)
  | Some _ => (None, au_fail au key)
  end.

Definition GetJID (key : string) (require : bool) (au : AttrUtility)
  : option JID * AttrUtility :=
  match au_Attrs au !! key with
  | None => (None, if require then au_fail au key else au)
  | Some (VJID j) => (Some j, au)
  | Some _ => (None, au_fail au key)
  end.

Definition GetInt64 (parseInt : string → option Z) (key : string) (require : bool)
  (au : AttrUtility) : option Z * AttrUtility :=
  match GetString key require au with
  | (Some s, au') =>
      match parseInt s with
      | Some z => (Some z, au')
      | None => (None, au_fail au' key)
      end
  | (None, au') => (None, au')
  end.

Definition ag_String (key : string) (au : AttrUtility) : string * AttrUtility :=
  let r := GetString key true au in (default "" r.1, r.2).

Definition ag_JID (key : string) (au : AttrUtility) : JID * AttrUtility :=
  let r := GetJID key true au in (default EmptyJID r.1, r.2).

Definition ag_Int (parseInt : string → option Z) (key : string) (au : AttrUtility)
  : Z * AttrUtility :=
  let r := GetInt64 parseInt key true au in (default 0%Z r.1, r.2).

Definition ag_OptionalInt (parseInt : string → option Z) (key : string)
  (au : AttrUtility) : Z * AttrUtility :=
  let r := GetInt64 parseInt key false au in (default 0%Z r.1, r.2).

Definition ag_UnixTime (parseInt : string → option Z) (key : string)
  (au : AttrUtility) : Time * AttrUtility :=
  let r := GetInt64 parseInt key true au in
  (from_option time_FromUnix time_zero r.1, r.2).

Definition ag_OK (au : AttrUtility) : bool := bool_decide (au_Errors au = []).
Definition ag_Error (au : AttrUtility) : Error := ErrAttrs (au_Errors au).

(** ** The client *)

Section Model.

Context {W Bundle AccountT : Type}.

Record preKeyResp := mkPreKeyResp {
  bundle : option Bundle; err : option string }.

(** An event handler acts on the world; the flag tells whether it
    panicked. *)
Record wrappedEventHandler := mkHandler {
  handler_fn : option (WAEvent → W → bool * W);
  handler_id : Z }.

(** Everything the modelled code calls but does not define. Errors of
    collaborators are values of their own packages, carried as strings. *)
Record Collaborators := mkCollaborators {
  (* Go standard library *)
  parseInt : string → option Z;
  time_Now : W → Time * W;
  (* package types *)
  JID_IsEmpty : JID → bool;
  JID_String : JID → string;
  JID_SignalAddress : JID → string * N;
  (* device store and libsignal *)
  ContainsSession : string * N → W → bool;
  GenOnePreKey : W → (string + PreKey) * W;
  GroupSessionCreate : string → string * N → W → (string + list Z) * W;
  (* protobuf and binary codecs *)
  proto_Marshal : Message → string + list Z;
  proto_Marshal_Account : AccountT → string + list Z;
  waBinary_Marshal : Node → string + list Z;
  (* sibling files of the package *)
  preKeyToNode : PreKey → Node;
  nodeToPreKeyBundle : Z → Node → string + Bundle;
  fetchPreKeys : list JID → W → (string + gmap JID preKeyResp) * W;
  encryptMessageForDevice :
    list Z → JID → option Bundle → gmap string AttrVal → W → (string + Node * bool) * W;
  getMediaTypeFromMessage : Message → string;
  getTypeFromMessage : Message → string;
  getMessageContent : Node → Message → gmap string AttrVal → bool → list Node;
  (* package socket *)
  socket_IsConnected : NoiseSocket → W → bool;
  socket_Stop : NoiseSocket → bool → W → W;
  socket_SendFrame : NoiseSocket → list Z → W → option string * W;
  NewFrameSocket : W → FrameSocket * W;
  frameSocket_Connect : FrameSocket → W → option string * W;
  frameSocket_Close : FrameSocket → W → W;
  NewKeyPair : W → (list Z * list Z) * W;
  noiseHandshake : FrameSocket → list Z * list Z → W → (string + NoiseSocket) * W }.

(** The fields of [Client] (and of its device store) that the modelled
    methods use, followed by the package-level handler counter, the heap of
    proto messages and the world of the collaborators. A [nil] message
    pointer is [None]. *)
Record Client := mkClient {
  StoreJID : option JID;
  RegistrationID : Z;
  IdentityKeyPub : list Z;
  SignedPreKey : PreKey;
  Account : AccountT;
  socket : option NoiseSocket;
  expectedDisconnectVal : Z;
  responseWaiters : gmap string positive;
  eventHandlers : list wrappedEventHandler;
  messageRetries : gmap string Z;
  incomingRetryRequestCounter : gmap incomingRetryKey Z;
  recentMessagesMap : gmap recentMessageKey (option positive);
  recentMessagesList : list recentMessageKey;
  recentMessagesPtr : nat;
  sessionRecreateHistory : gmap JID Time;
  GetMessageForRetry : JID → JID → MessageID → W → option Message * W;
  PreRetryCallback : option (Receipt → MessageID → Z → Message → W → bool * W);
  nextHandlerID : Z;
  heap : gmap positive Message;
  world : W }.

Definition set_socket (v : option NoiseSocket) (c : Client) : Client :=
  mkClient (StoreJID c) (RegistrationID c) (IdentityKeyPub c) (SignedPreKey c)
    (Account c) v (expectedDisconnectVal c) (responseWaiters c)
    (eventHandlers c) (messageRetries c) (incomingRetryRequestCounter c)
    (recentMessagesMap c) (recentMessagesList c) (recentMessagesPtr c)
    (sessionRecreateHistory c) (GetMessageForRetry c) (PreRetryCallback c)
    (nextHandlerID c) (heap c) (world c).

Definition set_expectedDisconnectVal (v : Z) (c : Client) : Client :=
  mkClient (StoreJID c) (RegistrationID c) (IdentityKeyPub c) (SignedPreKey c)
    (Account c) (socket c) v (responseWaiters c) (eventHandlers c)
    (messageRetries c) (incomingRetryRequestCounter c) (recentMessagesMap c)
    (recentMessagesList c) (recentMessagesPtr c) (sessionRecreateHistory c)
    (GetMessageForRetry c) (PreRetryCallback c) (nextHandlerID c) (heap c)
    (world c).

Definition set_responseWaiters (v : gmap string positive) (c : Client) : Client :=
  mkClient (StoreJID c) (RegistrationID c) (IdentityKeyPub c) (SignedPreKey c)
    (Account c) (socket c) (expectedDisconnectVal c) v (eventHandlers c)
    (messageRetries c) (incomingRetryRequestCounter c) (recentMessagesMap c)
    (recentMessagesList c) (recentMessagesPtr c) (sessionRecreateHistory c)
    (GetMessageForRetry c) (PreRetryCallback c) (nextHandlerID c) (heap c)
    (world c).

Definition set_eventHandlers (v : list wrappedEventHandler) (c : Client) : Client :=
  mkClient (StoreJID c) (RegistrationID c) (IdentityKeyPub c) (SignedPreKey c)
    (Account c) (socket c) (expectedDisconnectVal c) (responseWaiters c) v
    (messageRetries c) (incomingRetryRequestCounter c) (recentMessagesMap c)
    (recentMessagesList c) (recentMessagesPtr c) (sessionRecreateHistory c)
    (GetMessageForRetry c) (PreRetryCallback c) (nextHandlerID c) (heap c)
    (world c).

Definition set_messageRetries (v : gmap string Z) (c : Client) : Client :=
  mkClient (StoreJID c) (RegistrationID c) (IdentityKeyPub c) (SignedPreKey c)
    (Account c) (socket c) (expectedDisconnectVal c) (responseWaiters c)
    (eventHandlers c) v (incomingRetryRequestCounter c) (recentMessagesMap c)
    (recentMessagesList c) (recentMessagesPtr c) (sessionRecreateHistory c)
    (GetMessageForRetry c) (PreRetryCallback c) (nextHandlerID c) (heap c)
    (world c).

Definition set_incomingRetryRequestCounter (v : gmap incomingRetryKey Z) (c : Client) : Client :=
  mkClient (StoreJID c) (RegistrationID c) (IdentityKeyPub c) (SignedPreKey c)
    (Account c) (socket c) (expectedDisconnectVal c) (responseWaiters c)
    (eventHandlers c) (messageRetries c) v (recentMessagesMap c)
    (recentMessagesList c) (recentMessagesPtr c) (sessionRecreateHistory c)
    (GetMessageForRetry c) (PreRetryCallback c) (nextHandlerID c) (heap c)
    (world c).

Definition set_recentMessagesMap (v : gmap recentMessageKey (option positive)) (c : Client) : Client :=
  mkClient (StoreJID c) (RegistrationID c) (IdentityKeyPub c) (SignedPreKey c)
    (Account c) (socket c) (expectedDisconnectVal c) (responseWaiters c)
    (eventHandlers c) (messageRetries c) (incomingRetryRequestCounter c) v
    (recentMessagesList c) (recentMessagesPtr c) (sessionRecreateHistory c)
    (GetMessageForRetry c) (PreRetryCallback c) (nextHandlerID c) (heap c)
    (world c).

Definition set_recentMessagesList (v : list recentMessageKey) (c : Client) : Client :=
  mkClient (StoreJID c) (RegistrationID c) (IdentityKeyPub c) (SignedPreKey c)
    (Account c) (socket c) (expectedDisconnectVal c) (responseWaiters c)
    (eventHandlers c) (messageRetries c) (incomingRetryRequestCounter c)
    (recentMessagesMap c) v (recentMessagesPtr c) (sessionRecreateHistory c)
    (GetMessageForRetry c) (PreRetryCallback c) (nextHandlerID c) (heap c)
    (world c).

Definition set_recentMessagesPtr (v : nat) (c : Client) : Client :=
  mkClient (StoreJID c) (RegistrationID c) (IdentityKeyPub c) (SignedPreKey c)
    (Account c) (socket c) (expectedDisconnectVal c) (responseWaiters c)
    (eventHandlers c) (messageRetries c) (incomingRetryRequestCounter c)
    (recentMessagesMap c) (recentMessagesList c) v (sessionRecreateHistory c)
    (GetMessageForRetry c) (PreRetryCallback c) (nextHandlerID c) (heap c)
    (world c).

Definition set_sessionRecreateHistory (v : gmap JID Time) (c : Client) : Client :=
  mkClient (StoreJID c) (RegistrationID c) (IdentityKeyPub c) (SignedPreKey c)
    (Account c) (socket c) (expectedDisconnectVal c) (responseWaiters c)
    (eventHandlers c) (messageRetries c) (incomingRetryRequestCounter c)
    (recentMessagesMap c) (recentMessagesList c) (recentMessagesPtr c) v
    (GetMessageForRetry c) (PreRetryCallback c) (nextHandlerID c) (heap c)
    (world c).

Definition set_nextHandlerID (v : Z) (c : Client) : Client :=
  mkClient (StoreJID c) (RegistrationID c) (IdentityKeyPub c) (SignedPreKey c)
    (Account c) (socket c) (expectedDisconnectVal c) (responseWaiters c)
    (eventHandlers c) (messageRetries c) (incomingRetryRequestCounter c)
    (recentMessagesMap c) (recentMessagesList c) (recentMessagesPtr c)
    (sessionRecreateHistory c) (GetMessageForRetry c) (PreRetryCallback c) v
    (heap c) (world c).

Definition set_heap (v : gmap positive Message) (c : Client) : Client :=
  mkClient (StoreJID c) (RegistrationID c) (IdentityKeyPub c) (SignedPreKey c)
    (Account c) (socket c) (expectedDisconnectVal c) (responseWaiters c)
    (eventHandlers c) (messageRetries c) (incomingRetryRequestCounter c)
    (recentMessagesMap c) (recentMessagesList c) (recentMessagesPtr c)
    (sessionRecreateHistory c) (GetMessageForRetry c) (PreRetryCallback c)
    (nextHandlerID c) v (world c).

Definition set_world (v : W) (c : Client) : Client :=
  mkClient (StoreJID c) (RegistrationID c) (IdentityKeyPub c) (SignedPreKey c)
    (Account c) (socket c) (expectedDisconnectVal c) (responseWaiters c)
    (eventHandlers c) (messageRetries c) (incomingRetryRequestCounter c)
    (recentMessagesMap c) (recentMessagesList c) (recentMessagesPtr c)
    (sessionRecreateHistory c) (GetMessageForRetry c) (PreRetryCallback c)
    (nextHandlerID c) (heap c) v.

(** ** Methods as state transformers with an event log *)

Definition M (A : Type) : Type := Client → A * Client * list Event.

Definition ret {A} (a : A) : M A := λ c, (a, c, []).

Definition bind {A B} (m : M A) (k : A → M B) : M B := λ c,
  let '(a, c1, t1) := m c in
  let '(b, c2, t2) := k a c1 in
  (b, c2, t1 ++ t2).

Definition emit (e : Event) : M unit := λ c, (tt, c, [e]).
Definition get : M Client := λ c, (c, c, []).
Definition modify (f : Client → Client) : M unit := λ c, (tt, f c, []).

(** A call into a collaborator: it sees and changes only the world. *)
Definition call {A} (f : W → A * W) : M A := λ c,
  let '(a, w) := f (world c) in (a, set_world w c, []).

Definition call_ (f : W → W) : M unit := λ c, (tt, set_world (f (world c)) c, []).

Notation "'let*' x := m 'in' k" := (bind m (λ x, k))
  (at level 10, x name, m at level 100, k at level 200).
Notation "m ;; k" := (bind m (λ _, k))
  (at level 100, k at level 200, right associativity).

Definition log (lvl : LogLevel) (format : string) : M unit := emit (EvLog lvl format).

Context (E : Collaborators).

(** *** client.go *)

Definition NewClient (jid : option JID) (regID : Z) (identityPub : list Z)
  (signedPreKey : PreKey) (account : AccountT) (h : gmap positive Message)
  (counter : Z) (w : W) : Client :=
  {| StoreJID := jid; RegistrationID := regID; IdentityKeyPub := identityPub;
     SignedPreKey := signedPreKey; Account := account;
     socket := None; expectedDisconnectVal := 0;
     responseWaiters := ∅; eventHandlers := [];
     messageRetries := ∅; incomingRetryRequestCounter := ∅;
     recentMessagesMap := ∅;
     recentMessagesList := replicate recentMessagesSize (mkRecentKey EmptyJID "");
     recentMessagesPtr := 0;
     sessionRecreateHistory := ∅;
     GetMessageForRetry := λ _ _ _ w, (None, w);
     PreRetryCallback := None;
     nextHandlerID := counter; heap := h; world := w |}.

Definition getOwnJID (c : Client) : JID :=
  match StoreJID c with
  | None => EmptyJID
  | Some j => j
  end.

Definition resetExpectedDisconnect : M unit := modify (set_expectedDisconnectVal 0).
Definition expectDisconnect : M unit := modify (set_expectedDisconnectVal 1).
Definition isExpectedDisconnect (c : Client) : bool :=
  bool_decide (expectedDisconnectVal c = 1%Z).

(** Modelled from the spec: [clearResponseWaiters] of the request registry,
    whose source is not part of the modelled files ("on disconnect, clear
    delivers the end-of-stream sentinel to every waiter and drops all
    entries"). *)
Definition clearResponseWaiters (n : Node) : M unit := λ c,
  (tt, set_responseWaiters ∅ c,
   (λ kv, EvWaiterDeliver kv.1 kv.2 n) <$> map_to_list (responseWaiters c)).

Definition unlockedDisconnect : M unit :=
  let* c := get in
  match socket c with
  | Some sock =>
      emit (EvSocketStop sock true) ;;
      call_ (socket_Stop E sock true) ;;
      modify (set_socket None) ;;
      clearResponseWaiters xmlStreamEndNode
  | None => ret tt
  end.

Definition Disconnect : M unit :=
  let* c := get in
  match socket c with
  | None => ret tt
  | Some _ => unlockedDisconnect
  end.

(** Modelled from the spec: [doHandshake] of the handshake file, whose
    source is not part of the modelled files ("run the Noise handshake using
    a freshly generated ephemeral key pair"); on success the client holds
    the new socket, which [Connect] then reads from [cli.socket]. *)
Definition doHandshake (fs : FrameSocket) (kp : list Z * list Z) : M (option string) :=
  let* r := call (noiseHandshake E fs kp) in
  match r with
  | inl e => ret (Some e)
  | inr ns => modify (set_socket (Some ns)) ;; ret None
  end.

(** The part of [Connect] after the guard on the existing socket. *)
Definition connectNew : M (option Error) :=
  resetExpectedDisconnect ;;
  let* fs := call (NewFrameSocket E) in
  emit (EvFrameConnect fs) ;;
  let* e1 := call (frameSocket_Connect E fs) in
  match e1 with
  | Some e =>
      emit (EvFrameClose fs) ;; call_ (frameSocket_Close E fs) ;;
      ret (Some (ErrExternal e))
  | None =>
      let* kp := call (NewKeyPair E) in
      let* e2 := doHandshake fs kp in
      match e2 with
      | Some e =>
          emit (EvFrameClose fs) ;; call_ (frameSocket_Close E fs) ;;
          ret (Some (Errorf "noise handshake failed: %w" (Some (ErrExternal e))))
      | None =>
          let* c := get in
          match socket c with
          | Some ns =>
              emit (EvGo (GoKeepAliveLoop ns)) ;;
              emit (EvGo (GoHandlerQueueLoop ns)) ;;
              ret None
          | None => ret None
          end
      end
  end.

Definition Connect : M (option Error) :=
  let* c := get in
  match socket c with
  | Some sock =>
      if negb (socket_IsConnected E sock (world c))
      then unlockedDisconnect ;; connectNew
      else ret (Some ErrAlreadyConnected)
  | None => connectNew
  end.

Definition AddEventHandler (handler : WAEvent → W → bool * W) : M Z :=
  let* c := get in
  let nextID := wrap_u32 (nextHandlerID c + 1) in
  modify (set_nextHandlerID nextID) ;;
  modify (λ c, set_eventHandlers (eventHandlers c ++ [mkHandler (Some handler) nextID]) c) ;;
  ret nextID.

(** [s[i].fn = nil] *)
Definition clear_fn (i : nat) (hs : list wrappedEventHandler) : list wrappedEventHandler :=
  alter (λ h, mkHandler None (handler_id h)) i hs.

(** [copy(s[i:], src)] *)
Definition slice_copy {A} (i : nat) (src s : list A) : list A :=
  take i s ++ take (length s - i) src ++ drop (i + length src) s.

Definition RemoveEventHandler (id : Z) : M bool :=
  let* c := get in
  let hs := eventHandlers c in
  match list_find (λ h, handler_id h = id) hs with
  | Some (index, _) =>
      if decide (index = 0) then
        modify (set_eventHandlers (drop 1 (clear_fn 0 hs))) ;; ret true
      else
        let hs1 :=
          if decide (index < length hs - 1)%nat
          then slice_copy index (drop (index + 1) hs) hs
          else hs in
        let hs2 := clear_fn (length hs1 - 1) hs1 in
        modify (set_eventHandlers (take (length hs2 - 1) hs2)) ;; ret true
  | None => ret false
  end.

Definition sendNodeAndGetData (node : Node) : M (option (list Z) * option Error) :=
  let* c := get in
  match socket c with
  | None => ret (None, Some ErrNotConnected)
  | Some sock =>
      match waBinary_Marshal E node with
      | inl e => ret (None, Some (Errorf "failed to marshal node: %w" (Some (ErrExternal e))))
      | inr payload =>
          emit (EvSendFrame sock payload) ;;
          let* e := call (socket_SendFrame E sock payload) in
          ret (Some payload, ErrExternal <$> e)
      end
  end.

Definition sendNode (node : Node) : M (option Error) :=
  emit (EvSendNode node) ;;
  let* r := sendNodeAndGetData node in
  ret r.2.

(** The loop of [dispatchEvent]: a panic (also that of calling a [nil]
    function) leaves the loop. *)
Fixpoint run_handlers (hs : list wrappedEventHandler) (evt : WAEvent) (w : W) : bool * W :=
  match hs with
  | [] => (false, w)
  | h :: hs' =>
      match handler_fn h with
      | None => (true, w)
      | Some f =>
          let r := f evt w in
          if r.1 then (true, r.2) else run_handlers hs' evt r.2
      end
  end.

Definition dispatchEvent (evt : WAEvent) : M unit :=
  emit (EvDispatch evt) ;;
  let* c := get in
  let* panicked := call (run_handlers (eventHandlers c) evt) in
  if panicked : bool then log LError "Event handler panicked while handling a %T: %v\n%s"
  else ret tt.

(** *** The call handler *)

Definition handleCallEvent (node : Node) : M unit :=
  emit (EvGo (GoSendAck node)) ;;
  match GetChildren node with
  | [child] =>
      (* the errors the getters collect are never read here *)
      let ag := AttrGetter node in
      let cag := AttrGetter child in
      let basicMeta :=
        {| From := (ag_JID "from" ag).1;
           Timestamp := (ag_UnixTime (parseInt E) "t" ag).1;
           CallCreator := (ag_JID "call-creator" cag).1;
           CallID := (ag_String "call-id" cag).1 |} in
      let remoteMeta :=
        {| RemotePlatform := (ag_String "platform" ag).1;
           RemoteVersion := (ag_String "version" ag).1 |} in
      if decide (Tag child = "offer") then
        dispatchEvent (CallOffer basicMeta remoteMeta child)
      else if decide (Tag child = "offer_notice") then
        dispatchEvent (CallOfferNotice basicMeta
                         (ag_String "media" cag).1 (ag_String "type" cag).1 child)
      else if decide (Tag child = "relaylatency") then
        dispatchEvent (CallRelayLatency basicMeta child)
      else if decide (Tag child = "accept") then
        dispatchEvent (CallAccept basicMeta remoteMeta child)
      else if decide (Tag child = "preaccept") then
        dispatchEvent (CallPreAccept basicMeta remoteMeta child)
      else if decide (Tag child = "transport") then
        dispatchEvent (CallTransport basicMeta remoteMeta child)
      else if decide (Tag child = "terminate") then
        dispatchEvent (CallTerminate basicMeta (ag_String "reason" cag).1 child)
      else
        dispatchEvent (UnknownCallEvent node)
  | _ => dispatchEvent (UnknownCallEvent node)
  end.

(** *** retry.go: the recent-message ring *)

(** [None] is the run-time panic of indexing the ring out of range. *)
Definition addRecentMessage (to : JID) (id : MessageID) (message : option positive)
  (c : Client) : option Client :=
  let key := mkRecentKey to id in
  old ← recentMessagesList c !! recentMessagesPtr c;
  let m1 :=
    if decide (ID old ≠ "")
    then delete old (recentMessagesMap c)
    else recentMessagesMap c in
  let m2 := <[key := message]> m1 in
  let l := <[recentMessagesPtr c := key]> (recentMessagesList c) in
  let p := S (recentMessagesPtr c) in
  let p := if decide (length l ≤ p)%nat then 0 else p in
  Some (set_recentMessagesPtr p (set_recentMessagesList l (set_recentMessagesMap m2 c))).

Definition getRecentMessage (to : JID) (id : MessageID) (c : Client) : option positive :=
  default None (recentMessagesMap c !! mkRecentKey to id).

(** Reading through a message pointer, allocating a message, and
    [proto.Clone], which allocates a deep copy. *)
Definition deref (a : positive) (c : Client) : Message :=
  default (mkMessage "" None None) (heap c !! a).

Definition alloc (m : Message) : M positive := λ c,
  let a := fresh (dom (heap c)) in
  (a, set_heap (<[a := m]> (heap c)) c, []).

Definition proto_Clone (m : Message) : M positive := alloc m.

Definition getMessageForRetry (receipt : Receipt) (messageID : MessageID)
  : M (Error + positive) :=
  let* c := get in
  match getRecentMessage (Chat receipt) messageID c with
  | None =>
      let* r := call (GetMessageForRetry c (Sender receipt) (Chat receipt) messageID) in
      match r with
      | None => ret (inl (Errorf "couldn't find message %s" None))
      | Some m =>
          log LDebug "Found message in GetMessageForRetry to accept retry receipt for %s/%s from %s" ;;
          let* a := proto_Clone m in
          ret (inr a)
      end
  | Some p =>
      log LDebug "Found message in local cache to accept retry receipt for %s/%s from %s" ;;
      let* a := proto_Clone (deref p c) in
      ret (inr a)
  end.

(** *** retry.go: session recreation *)

Definition shouldRecreateSession (retryCount : Z) (jid : JID) : M (string * bool) :=
  let* c := get in
  if negb (ContainsSession E (JID_SignalAddress E jid) (world c)) then
    let* now := call (time_Now E) in
    modify (λ c, set_sessionRecreateHistory (<[jid := now]> (sessionRecreateHistory c)) c) ;;
    ret ("we don't have a Signal session with them", true)
  else if (retryCount <? 2)%Z then
    ret ("", false)
  else
    let* expired :=
      match sessionRecreateHistory c !! jid with
      | None => ret true
      | Some prevTime =>
          let* now := call (time_Now E) in
          ret (time_Before (time_Add prevTime recreateSessionTimeout) now)
      end in
    if expired : bool then
      let* now := call (time_Now E) in
      modify (λ c, set_sessionRecreateHistory (<[jid := now]> (sessionRecreateHistory c)) c) ;;
      ret ("retry count > 1 and over an hour since last recreation", true)
    else
      ret ("", false).

(** *** retry.go: handling a retry receipt for an outgoing message *)

Record RetryRequest := mkRetryRequest {
  rr_messageID : MessageID;
  rr_timestamp : Time;
  rr_retryCount : Z;
  rr_msg : positive;
  rr_plaintext : list Z }.

Definition set_skdm (v : option (string * list Z)) (m : Message) : Message :=
  mkMessage (Other m) v (DeviceSentMessage m).

Definition set_attr (k : string) (v : AttrVal) (n : Node) : Node :=
  mkNode (Tag n) (<[k := v]> (Attrs n)) (Content n).

(** [if v, ok := src[k]; ok { dst[k] = v }] *)
Definition copy_attr (k : string) (src dst : gmap string AttrVal) : gmap string AttrVal :=
  match src !! k with
  | Some v => <[k := v]> dst
  | None => dst
  end.

(** First stretch of [handleRetryReceipt], up to the marshalled plaintext:
    [inl r] is an early [return r]. *)
Definition retryPrepare (receipt : Receipt) (node : Node)
  : M (option Error + RetryRequest) :=
  match GetOptionalChildByTag node "retry" with
  | None => ret (inl (Some (ElementMissingError "retry" "retry receipt")))
  | Some retryChild =>
      let ag := AttrGetter retryChild in
      let r1 := ag_String "id" ag in
      let messageID := r1.1 in
      let r2 := ag_UnixTime (parseInt E) "t" r1.2 in
      let timestamp := r2.1 in
      let r3 := ag_Int (parseInt E) "count" r2.2 in
      let retryCount := r3.1 in
      if negb (ag_OK r3.2) then ret (inl (Some (ag_Error r3.2))) else
      let* found := getMessageForRetry receipt messageID in
      match found with
      | inl e => ret (inl (Some e))
      | inr msg =>
          let retryKey := mkRetryKey (Sender receipt) messageID in
          let* c := get in
          let internalCounter := default 0%Z (incomingRetryRequestCounter c !! retryKey) in
          let internalCounter := wrap_int (internalCounter + 1) in
          modify (λ c, set_incomingRetryRequestCounter
                         (<[retryKey := internalCounter]> (incomingRetryRequestCounter c)) c) ;;
          if (10 <=? internalCounter)%Z then
            log LWarn "Dropping retry request from %s for %s: internal retry counter is %d" ;;
            ret (inl None)
          else
          let ownID := getOwnJID c in
          if JID_IsEmpty E ownID then ret (inl (Some ErrNotLoggedIn)) else
          let* msg :=
            if IsGroup receipt then
              let* skd := call (GroupSessionCreate E (JID_String E (Chat receipt))
                                  (JID_SignalAddress E ownID)) in
              match skd with
              | inl _ =>
                  log LWarn "Failed to create sender key distribution message to include in retry of %s in %s to %s: %v" ;;
                  ret msg
              | inr serialized =>
                  modify (λ c, set_heap
                    (<[msg := set_skdm (Some (JID_String E (Chat receipt), serialized))
                                (deref msg c)]> (heap c)) c) ;;
                  ret msg
              end
            else if IsFromMe receipt then
              let* c := get in
              alloc (mkMessage "" None (Some (JID_String E (Chat receipt), deref msg c)))
            else ret msg in
          let* c := get in
          let* proceed :=
            match PreRetryCallback c with
            | Some cb => call (cb receipt messageID retryCount (deref msg c))
            | None => ret true
            end in
          if negb proceed then
            log LDebug "Cancelled retry receipt in PreRetryCallback" ;;
            ret (inl None)
          else
          match proto_Marshal E (deref msg c) with
          | inl e => ret (inl (Some (Errorf "failed to marshal message: %w" (Some (ErrExternal e)))))
          | inr plaintext =>
              ret (inr (mkRetryRequest messageID timestamp retryCount msg plaintext))
          end
      end
  end.

(** Second stretch: the prekey bundle to encrypt with, if any. *)
Definition retryBundle (receipt : Receipt) (node : Node) (retryCount : Z)
  : M (Error + option Bundle) :=
  match GetOptionalChildByTag node "keys" with
  | Some _ =>
      match nodeToPreKeyBundle E (Z.of_N (Device (Sender receipt))) node with
      | inl e => ret (inl (Errorf "failed to read prekey bundle in retry receipt: %w"
                             (Some (ErrExternal e))))
      | inr b => ret (inr (Some b))
      end
  | None =>
      let* decision := shouldRecreateSession retryCount (Sender receipt) in
      if decision.2 then
        log LDebug "Fetching prekeys for %s for handling retry receipt with no prekey bundle because %s" ;;
        emit (EvFetchPreKeys [Sender receipt]) ;;
        let* keys := call (fetchPreKeys E [Sender receipt]) in
        match keys with
        | inl e => ret (inl (ErrExternal e))
        | inr keys =>
            let resp := default (mkPreKeyResp None None) (keys !! Sender receipt) in
            match err resp, bundle resp with
            | Some e, _ => ret (inl (Errorf "failed to fetch prekeys: %w" (Some (ErrExternal e))))
            | None, None =>
                ret (inl (Errorf "didn't get prekey bundle for %s (response size: %d)" None))
            | None, Some b => ret (inr (Some b))
            end
        end
      else ret (inr None)
  end.

(** Third stretch: encrypt and send the [message] stanza. *)
Definition retrySend (receipt : Receipt) (node : Node) (rq : RetryRequest)
  (bundle : option Bundle) : M (option Error) :=
  let* c := get in
  let msg := deref (rr_msg rq) c in
  let mediaType := getMediaTypeFromMessage E msg in
  let encAttrs : gmap string AttrVal :=
    if decide (mediaType ≠ "") then {[ "mediatype" := VString mediaType ]} else ∅ in
  let* enc := call (encryptMessageForDevice E (rr_plaintext rq) (Sender receipt)
                      bundle encAttrs) in
  match enc with
  | inl e => ret (Some (Errorf "failed to encrypt message for retry: %w" (Some (ErrExternal e))))
  | inr (encrypted, includeDeviceIdentity) =>
      let encrypted := set_attr "count" (VInt (rr_retryCount rq)) encrypted in
      let attrs : gmap string AttrVal :=
        <["t" := VInt64 (time_Unix (rr_timestamp rq))]>
        (<["id" := VString (rr_messageID rq)]>
        (<["type" := VString (getTypeFromMessage E msg)]>
        (<["to" := attr_index (Attrs node) "from"]> ∅))) in
      let attrs :=
        if negb (IsGroup receipt) then <["device_fanout" := VBool false]> attrs else attrs in
      let attrs := copy_attr "participant" (Attrs node) attrs in
      let attrs := copy_attr "recipient" (Attrs node) attrs in
      let attrs := copy_attr "edit" (Attrs node) attrs in
      let* sent := sendNode (mkNode "message" attrs
                     (CNodes (getMessageContent E encrypted msg attrs includeDeviceIdentity))) in
      match sent with
      | Some e => ret (Some (Errorf "failed to send retry message: %w" (Some e)))
      | None => log LDebug "Sent retry #%d for %s/%s to %s" ;; ret None
      end
  end.

Definition handleRetryReceipt (receipt : Receipt) (node : Node) : M (option Error) :=
  let* prepared := retryPrepare receipt node in
  match prepared with
  | inl r => ret r
  | inr rq =>
      let* b := retryBundle receipt node (rr_retryCount rq) in
      match b with
      | inl e => ret (Some e)
      | inr bundle => retrySend receipt node rq bundle
      end
  end.

(** *** retry.go: sending a retry receipt for an incoming message *)

Definition append_child (n child : Node) : Node :=
  mkNode (Tag n) (Attrs n) (CNodes (GetChildren n ++ [child])).

Definition sendRetryReceipt (node : Node) (info : MessageInfo)
  (forceIncludeIdentity : bool) : M unit :=
  let id := match attr_index (Attrs node) "id" with VString s => s | _ => "" end in
  let children := GetChildren node in
  let retryCountInMsg :=
    match children with
    | [child] =>
        if decide (Tag child = "enc")
        then (ag_OptionalInt (parseInt E) "count" (AttrGetter child)).1
        else 0%Z
    | _ => 0%Z
    end in
  let* c := get in
  let retryCount := default 0%Z (messageRetries c !! id) in
  let retryCount := wrap_int (retryCount + 1) in
  modify (λ c, set_messageRetries (<[id := retryCount]> (messageRetries c)) c) ;;
  let adopt := bool_decide (retryCount = 1%Z) && (0 <? retryCountInMsg)%Z in
  let retryCount := if adopt then wrap_int (retryCountInMsg + 1) else retryCount in
  (if adopt
   then modify (λ c, set_messageRetries (<[id := retryCount]> (messageRetries c)) c)
   else ret tt) ;;
  if (5 <=? retryCount)%Z then
    log LWarn "Not sending any more retry receipts for %s"
  else
  (if bool_decide (retryCount = 1%Z)
   then emit (EvGo (GoDelayedRequestMessageFromPhone info))
   else ret tt) ;;
  let registrationIDBytes := PutUint32 (RegistrationID c) in
  let attrs : gmap string AttrVal :=
    <["to" := attr_index (Attrs node) "from"]>
    (<["type" := VString "retry"]>
    (<["id" := VString id]> ∅)) in
  let attrs := copy_attr "recipient" (Attrs node) attrs in
  let attrs := copy_attr "participant" (Attrs node) attrs in
  let payload :=
    mkNode "receipt" attrs
      (CNodes [
         mkNode "retry"
           (<["v" := VInt 1]>
           (<["t" := attr_index (Attrs node) "t"]>
           (<["id" := VString id]>
           (<["count" := VInt retryCount]> ∅)))) CNil;
         mkNode "registration" ∅ (CBytes registrationIDBytes) ]) in
  let* payload :=
    if (1 <? retryCount)%Z || forceIncludeIdentity then
      let* key := call (GenOnePreKey E) in
      match key with
      | inl _ =>
          log LError "Failed to get prekey for retry receipt: %v" ;;
          ret (Some payload)
      | inr key =>
          match proto_Marshal_Account E (Account c) with
          | inl _ =>
              log LError "Failed to marshal account info: %v" ;;
              ret None
          | inr deviceIdentity =>
              ret (Some (append_child payload
                (mkNode "keys" ∅
                   (CNodes [
                      mkNode "type" ∅ (CBytes [DjbType]);
                      mkNode "identity" ∅ (CBytes (IdentityKeyPub c));
                      preKeyToNode E key;
                      preKeyToNode E (SignedPreKey c);
                      mkNode "device-identity" ∅ (CBytes deviceIdentity) ]))))
          end
      end
    else ret (Some payload) in
  match payload with
  | None => ret tt
  | Some payload =>
      let* sent := sendNode payload in
      match sent with
      | Some _ => log LError "Failed to send retry receipt for %s: %v"
      | None => ret tt
      end
  end.

End Model.

(** ** The client: registry, calls, logout and history messages *)

(** What [ParseWebMessage] reads through the getters of a
    [waProto.WebMessageInfo]: a getter yields the zero value for an absent
    field, and the getters of an absent key do so too. *)
Record MessageKey := mkMessageKey {
  RemoteJid : string; FromMe : bool; KeyId : string; KeyParticipant : string }.

Record WebMessageInfo := mkWebMessageInfo {
  Key : MessageKey;
  WebMessage : option positive;
  PushName : string;
  MessageTimestamp : Z;
  Participant : string }.

(** The fields of [types.MessageInfo] that [ParseWebMessage] fills, those
    of its [MessageSource] first. *)
Record ParsedInfo := mkParsedInfo {
  PChat : JID; PSender : JID; PIsFromMe : bool; PIsGroup : bool;
  PID : MessageID; PPushName : string; PTimestamp : Time }.

(** [events.Message] *)
Record MessageEvt := mkMessageEvt {
  RawMessage : option positive; SourceWebMsg : WebMessageInfo; Info : ParsedInfo }.

Inductive infoQueryType := iqSet | iqGet.

(** The fields of an [infoQuery] that [Logout] sets. *)
Record infoQuery := mkInfoQuery {
  iqNamespace : string; iqType : infoQueryType; iqTo : JID; iqContent : list Node }.

Section ClientMethods.

Context {W Bundle AccountT : Type} (E : @Collaborators W Bundle AccountT).

(** Collaborators of these methods: the [types] package, the id generator
    and the request sender of sibling files, and the device store. *)
Context (JID_ToNonAD : JID → JID)
        (ParseJID : string → string + JID)
        (GroupServer DefaultUserServer NewsletterServer : string)
        (ServerJID : JID)
        (GenerateMessageID : W → MessageID * W)
        (sendIQ : infoQuery → @M W AccountT (Error + Node))
        (Store_Delete : @M W AccountT (option string))
        (UnwrapRaw : MessageEvt → MessageEvt).

Notation "'let*' x := m 'in' k" := (bind m (λ x, k))
  (at level 10, x name, m at level 100, k at level 200).
Notation "m ;; k" := (bind m (λ _, k))
  (at level 100, k at level 200, right associativity).

Definition IsConnected (c : @Client W AccountT) : bool :=
  match socket c with
  | Some sock => socket_IsConnected E sock (world c)
  | None => false
  end.

Definition RemoveEventHandlers : @M W AccountT unit :=
  modify (set_eventHandlers []).

Definition Logout : @M W AccountT (option Error) :=
  let* c := get in
  let ownID := getOwnJID c in
  if JID_IsEmpty E ownID then ret (Some ErrNotLoggedIn) else
  let* r := sendIQ {| iqNamespace := "md"; iqType := iqSet; iqTo := ServerJID;
                      iqContent :=
                        [mkNode "remove-companion-device"
                           {[ "jid" := VJID ownID; "reason" := VString "user_initiated" ]}
                           CNil] |} in
  match r with
  | inl e => ret (Some (Errorf "error sending logout request: %w" (Some e)))
  | inr _ =>
      Disconnect E ;;
      let* e := Store_Delete in
      match e with
      | Some e =>
          ret (Some (Errorf "error deleting data from store: %w" (Some (ErrExternal e))))
      | None => ret None
      end
  end.

Definition RejectCall (callID : string) (callFrom : JID) (messageID : MessageID)
  : @M W AccountT (option Error) :=
  let* c := get in
  let clientID := getOwnJID c in
  if JID_IsEmpty E clientID then ret (Some ErrNotLoggedIn) else
  let* messageID :=
    if decide (messageID = "") then call GenerateMessageID else ret messageID in
  let clientID := JID_ToNonAD clientID in
  let callFrom := JID_ToNonAD callFrom in
  sendNode E
    (mkNode "call"
       {[ "id" := VString messageID; "from" := VJID clientID; "to" := VJID callFrom ]}
       (CNodes [mkNode "reject"
                  {[ "call-id" := VString callID; "call-creator" := VJID callFrom;
                     "count" := VString "0" ]}
                  CNil])).

(** [ParseWebMessage] reads the client and changes nothing. An error
    formatted with [%v] is not wrapped. *)
Definition ParseWebMessage (chatJID : JID) (webMsg : WebMessageInfo)
  (c : @Client W AccountT) : Error + MessageEvt :=
  let chat : Error + JID :=
    if JID_IsEmpty E chatJID then
      match ParseJID (RemoteJid (Key webMsg)) with
      | inl e => inl (Errorf "no chat JID provided and failed to parse remote JID: %w"
                        (Some (ErrExternal e)))
      | inr j => inr j
      end
    else inr chatJID in
  match chat with
  | inl e => inl e
  | inr chatJID =>
      let info (sender : JID) :=
        {| PChat := chatJID; PSender := sender;
           PIsFromMe := FromMe (Key webMsg);
           PIsGroup := bool_decide (Server chatJID = GroupServer);
           PID := KeyId (Key webMsg);
           PPushName := PushName webMsg;
           PTimestamp := time_FromUnix (wrap_int (MessageTimestamp webMsg)) |} in
      let finish (sender : string + JID) : Error + MessageEvt :=
        match sender with
        | inl _ => inl (Errorf "failed to parse sender of message %s: %v" None)
        | inr s => inr (UnwrapRaw (mkMessageEvt (WebMessage webMsg) webMsg (info s)))
        end in
      if FromMe (Key webMsg) then
        let sender := JID_ToNonAD (getOwnJID c) in
        if JID_IsEmpty E sender then inl ErrNotLoggedIn else finish (inr sender)
      else if bool_decide (Server chatJID = DefaultUserServer)
              || bool_decide (Server chatJID = NewsletterServer) then
        finish (inr chatJID)
      else if bool_decide (Participant webMsg ≠ "") then
        finish (ParseJID (Participant webMsg))
      else if bool_decide (KeyParticipant (Key webMsg) ≠ "") then
        finish (ParseJID (KeyParticipant (Key webMsg)))
      else inl (Errorf "couldn't find sender of message %s" None)
  end.

End ClientMethods.

(** ** The connection supervisor and the stanza router *)

Section Supervisor.

Context {W Bundle AccountT : Type}.

(** Goroutines these methods start, besides those of [Task]. *)
Inductive SupervisorTask :=
| GoDispatchEvent (evt : WAEvent)
| GoAutoReconnect
| GoQueueSend (node : Node).

(** What they do to the outside: an event of the client's methods, a
    goroutine, or a call of [time.Sleep]. *)
Inductive Effect :=
| EfEvent (e : Event)
| EfGo (t : SupervisorTask)
| EfSleep (d : Z).

(** The client together with the fields of [Client] that only the
    supervisor and the router use. The handler queue is the content of the
    buffered channel, oldest stanza first; of [nodeHandlers] only the tags
    matter here. *)
Record Supervised := mkSupervised {
  cli : @Client W AccountT;
  EnableAutoReconnect : bool;
  AutoReconnectErrors : Z;
  AutoReconnectHook : option (Error → W → bool * W);
  nodeHandlers : gset string;
  handlerQueue : list Node }.

Definition set_cli (v : @Client W AccountT) (s : Supervised) : Supervised :=
  mkSupervised v (EnableAutoReconnect s) (AutoReconnectErrors s) (AutoReconnectHook s)
    (nodeHandlers s) (handlerQueue s).

Definition set_AutoReconnectErrors (v : Z) (s : Supervised) : Supervised :=
  mkSupervised (cli s) (EnableAutoReconnect s) v (AutoReconnectHook s)
    (nodeHandlers s) (handlerQueue s).

Definition set_handlerQueue (v : list Node) (s : Supervised) : Supervised :=
  mkSupervised (cli s) (EnableAutoReconnect s) (AutoReconnectErrors s)
    (AutoReconnectHook s) (nodeHandlers s) v.

Definition handlerQueueSize : nat := 2048.

(** The tags [NewClient] registers a node handler for. *)
Definition nodeHandlerTags : list string :=
  ["message"; "receipt"; "call"; "chatstate"; "presence"; "notification";
   "success"; "failure"; "stream:error"; "iq"; "ib"].

(** The supervisor's part of [NewClient]. *)
Definition NewSupervised (c : @Client W AccountT) : Supervised :=
  {| cli := c; EnableAutoReconnect := true; AutoReconnectErrors := 0;
     AutoReconnectHook := None;
     nodeHandlers := list_to_set nodeHandlerTags;
     handlerQueue := [] |}.

Definition L (A : Type) : Type := Supervised → A * Supervised * list Effect.

Definition lret {A} (a : A) : L A := λ s, (a, s, []).

Definition lbind {A B} (m : L A) (k : A → L B) : L B := λ s,
  let '(a, s1, t1) := m s in
  let '(b, s2, t2) := k a s1 in
  (b, s2, t1 ++ t2).

Definition lget : L Supervised := λ s, (s, s, []).
Definition lmodify (f : Supervised → Supervised) : L unit := λ s, (tt, f s, []).
Definition effect (e : Effect) : L unit := λ s, (tt, s, [e]).

(** A method of the client run by the supervisor. *)
Definition lift {A} (m : @M W AccountT A) : L A := λ s,
  let '(a, c, t) := m (cli s) in (a, set_cli c s, EfEvent <$> t).

Notation "'let*' x := m 'in' k" := (lbind m (λ x, k))
  (at level 10, x name, m at level 100, k at level 200).
Notation "m ;; k" := (lbind m (λ _, k))
  (at level 100, k at level 200, right associativity).

Context (E : @Collaborators W Bundle AccountT).

(** Collaborators: the binary codec and the request registry. *)
Context (waBinary_Unpack : list Z → string + list Z)
        (waBinary_Unmarshal : list Z → string + Node)
        (receiveResponse : Node → @M W AccountT bool).

Definition onDisconnect (ns : NoiseSocket) (remote : bool) : L unit :=
  lift (emit (EvSocketStop ns false)) ;;
  lift (call_ (socket_Stop E ns false)) ;;
  let* s := lget in
  if decide (socket (cli s) = Some ns) then
    lift (modify (set_socket None)) ;;
    lift (clearResponseWaiters xmlStreamEndNode) ;;
    if negb (isExpectedDisconnect (cli s)) && remote then
      lift (log LDebug "Emitting Disconnected event") ;;
      effect (EfGo (GoDispatchEvent Disconnected)) ;;
      effect (EfGo GoAutoReconnect)
    else if remote then
      lift (log LDebug "OnDisconnect() called, but it was expected, so not emitting event")
    else
      lift (log LDebug "OnDisconnect() called after manual disconnection")
  else
    lift (log LDebug "Ignoring OnDisconnect on different socket").

Definition time_Second : Z := (10 ^ 9)%Z.

(** [errors.Is(err, ErrAlreadyConnected)]: the chain of wrapped errors is
    searched; an error of another package is not this one. *)
Fixpoint is_ErrAlreadyConnected (err : Error) : bool :=
  match err with
  | ErrAlreadyConnected => true
  | Errorf _ (Some cause) => is_ErrAlreadyConnected cause
  | _ => false
  end.

(** The loop of [autoReconnect], for at most [fuel] attempts: [true] when
    the method returned. *)
Fixpoint autoReconnect_loop (fuel : nat) : L bool :=
  match fuel with
  | O => lret false
  | S fuel' =>
      let* s := lget in
      let autoReconnectDelay :=
        wrap_int (wrap_int (AutoReconnectErrors s * 2) * time_Second) in
      lift (log LDebug "Automatically reconnecting after %v") ;;
      lmodify (set_AutoReconnectErrors (wrap_int (AutoReconnectErrors s + 1))) ;;
      effect (EfSleep autoReconnectDelay) ;;
      let* err := lift (Connect E) in
      match err with
      | None => lret true
      | Some err =>
          if is_ErrAlreadyConnected err then
            lift (log LDebug "Connect() said we're already connected after autoreconnect sleep") ;;
            lret true
          else
            lift (log LError "Error reconnecting after autoreconnect sleep: %v") ;;
            let* s := lget in
            match AutoReconnectHook s with
            | Some hook =>
                let* again := lift (call (hook err)) in
                if negb again then
                  lift (log LDebug "AutoReconnectHook returned false, not reconnecting") ;;
                  lret true
                else autoReconnect_loop fuel'
            | None => autoReconnect_loop fuel'
            end
      end
  end.

Definition autoReconnect (fuel : nat) : L bool :=
  let* s := lget in
  if negb (EnableAutoReconnect s) || bool_decide (StoreJID (cli s) = None)
  then lret true
  else autoReconnect_loop fuel.

Definition handleFrame (data : list Z) : L unit :=
  match waBinary_Unpack data with
  | inl _ =>
      lift (log LWarn "Failed to decompress frame: %v") ;;
      lift (log LDebug "Errored frame hex: %s")
  | inr decompressed =>
      match waBinary_Unmarshal decompressed with
      | inl _ =>
          lift (log LWarn "Failed to decode node in frame: %v") ;;
          lift (log LDebug "Errored frame hex: %s")
      | inr node =>
          lift (log LDebug "%s") ;;
          if decide (Tag node = "xmlstreamend") then
            let* s := lget in
            if negb (isExpectedDisconnect (cli s))
            then lift (log LWarn "Received stream end frame")
            else lret tt
          else
            let* handled := lift (receiveResponse node) in
            if handled : bool then lret tt else
            let* s := lget in
            if decide (Tag node ∈ nodeHandlers s) then
              (* select { case cli.handlerQueue <- node: default: ... } *)
              if decide (length (handlerQueue s) < handlerQueueSize)%nat then
                lmodify (set_handlerQueue (handlerQueue s ++ [node]))
              else
                lift (log LWarn "Handler queue is full, message ordering is no longer guaranteed") ;;
                effect (EfGo (GoQueueSend node))
            else if decide (Tag node ≠ "ack") then
              lift (log LDebug "Didn't handle WhatsApp node %s")
            else lret tt
      end
  end.

End Supervisor.

(** ** Specification vocabulary *)

(** The stanzas handed to [sendNode], the events handed to
    [dispatchEvent], and the other observations a run leaves behind. *)
Definition sent_nodes (t : list Event) : list Node :=
  omap (λ e, match e with EvSendNode n => Some n | _ => None end) t.

Definition dispatched (t : list Event) : list WAEvent :=
  omap (λ e, match e with EvDispatch x => Some x | _ => None end) t.

Definition acks (t : list Event) : list Node :=
  omap (λ e, match e with EvGo (GoSendAck n) => Some n | _ => None end) t.

Definition prekey_fetches (t : list Event) : list (list JID) :=
  omap (λ e, match e with EvFetchPreKeys l => Some l | _ => None end) t.

Definition logged (lvl : LogLevel) (t : list Event) : list string :=
  omap (λ e, match e with
             | EvLog l s =>
                 match lvl, l with
                 | LDebug, LDebug | LWarn, LWarn | LError, LError => Some s
                 | _, _ => None
                 end
             | _ => None
             end) t.

(** [hs'] is [hs] without its first handler carrying [id]. *)
Definition removes_first {W} (id : Z) (hs hs' : list (@wrappedEventHandler W)) : Prop :=
  ∃ l1 h l2, hs = l1 ++ h :: l2 ∧ handler_id h = id
             ∧ (∀ x, x ∈ l1 → handler_id x ≠ id) ∧ hs' = l1 ++ l2.

(** The zero value of a ring slot, and the slots that count as occupied:
    [addRecentMessage] tells them apart by the message id. *)
Definition zeroKey : recentMessageKey := mkRecentKey EmptyJID "".
Definition occupied (k : recentMessageKey) : Prop := ID k ≠ "".

Global Instance occupied_dec k : Decision (occupied k).
Proof. unfold occupied. apply _. Defined.

Definition ring_keys {W A} (c : @Client W A) : list recentMessageKey :=
  filter occupied (recentMessagesList c).

Definition call_key (x : JID * MessageID * option positive) : recentMessageKey :=
  mkRecentKey x.1.1 x.1.2.

(** A sequence of [addRecentMessage] calls. *)
Fixpoint addRecentMessages {W A} (calls : list (JID * MessageID * option positive))
  (c : @Client W A) : option (@Client W A) :=
  match calls with
  | [] => Some c
  | x :: rest => c' ← addRecentMessage x.1.1 x.1.2 x.2 c; addRecentMessages rest c'
  end.

(** The ring read from the pointer onwards, oldest slot first. *)
Definition window {W A} (c : @Client W A) : list recentMessageKey :=
  drop (recentMessagesPtr c) (recentMessagesList c)
  ++ take (recentMessagesPtr c) (recentMessagesList c).

(** The ring of capacity [n0] after the keys [ks] were added to a fresh
    client: the window is a queue of the last [n0] slots written, and the
    map holds the last [n0] keys. *)
Record ring_inv {W A} (n0 : nat) (ks : list recentMessageKey) (c : @Client W A) : Prop := {
  ri_len : length (recentMessagesList c) = n0;
  ri_ptr : (recentMessagesPtr c < n0)%nat;
  ri_window : window c = drop (length ks) (replicate n0 zeroKey ++ ks);
  ri_dom : dom (recentMessagesMap c) = list_to_set (drop (length ks - n0) ks) }.

(** The child tags of a [call] stanza that have a typed event. *)
Definition known_call_tags : list string :=
  ["offer"; "offer_notice"; "relaylatency"; "accept"; "preaccept"; "transport"; "terminate"].

(** The child tag a typed call event stands for, and what it carries. *)
Definition call_variant (e : WAEvent) : option string :=
  match e with
  | CallOffer _ _ _ => Some "offer"
  | CallOfferNotice _ _ _ _ => Some "offer_notice"
  | CallRelayLatency _ _ => Some "relaylatency"
  | CallAccept _ _ _ => Some "accept"
  | CallPreAccept _ _ _ => Some "preaccept"
  | CallTransport _ _ _ => Some "transport"
  | CallTerminate _ _ _ => Some "terminate"
  | _ => None
  end.

Definition call_meta (e : WAEvent) : option BasicCallMeta :=
  match e with
  | CallOffer m _ _ | CallOfferNotice m _ _ _ | CallRelayLatency m _
  | CallAccept m _ _ | CallPreAccept m _ _ | CallTransport m _ _
  | CallTerminate m _ _ => Some m
  | _ => None
  end.

Definition call_reason (e : WAEvent) : option string :=
  match e with
  | CallTerminate _ r _ => Some r
  | _ => None
  end.

Definition call_media_type (e : WAEvent) : option (string * string) :=
  match e with
  | CallOfferNotice _ m t _ => Some (m, t)
  | _ => None
  end.

(** The deliveries of the end-of-stream stanza to the waiters of [c]. *)
Definition end_of_stream_deliveries {W A} (c : @Client W A) : list Event :=
  (λ kv, EvWaiterDeliver kv.1 kv.2 xmlStreamEndNode) <$> map_to_list (responseWaiters c).

(** The message id [sendRetryReceipt] reads from a stanza, and the retry
    count carried by its single [enc] child, if any. *)
Definition stanza_id (node : Node) : MessageID :=
  match attr_index (Attrs node) "id" with VString s => s | _ => "" end.

Definition count_in_msg (parse : string → option Z) (node : Node) : Z :=
  match GetChildren node with
  | [child] =>
      if decide (Tag child = "enc")
      then (ag_OptionalInt parse "count" (AttrGetter child)).1
      else 0%Z
  | _ => 0%Z
  end.

(** The count [sendRetryReceipt] works with, given the stored one. *)
Definition updated_count (stored inMsg : Z) : Z :=
  let n := wrap_int (stored + 1) in
  if bool_decide (n = 1%Z) && (0 <? inMsg)%Z then wrap_int (inMsg + 1) else n.

(** The children of a retry receipt. *)
Definition retry_child (count : Z) (id : MessageID) (t : AttrVal) : Node :=
  mkNode "retry"
    (<["v" := VInt 1]> (<["t" := t]> (<["id" := VString id]> (<["count" := VInt count]> ∅))))
    CNil.

Definition registration_child (regID : Z) : Node :=
  mkNode "registration" ∅ (CBytes (PutUint32 regID)).

Definition keys_child (identity : list Z) (fresh signed : Node) (deviceIdentity : list Z)
  : Node :=
  mkNode "keys" ∅
    (CNodes [ mkNode "type" ∅ (CBytes [DjbType]);
              mkNode "identity" ∅ (CBytes identity);
              fresh; signed;
              mkNode "device-identity" ∅ (CBytes deviceIdentity) ]).

Definition receipt_attrs (node : Node) : gmap string AttrVal :=
  copy_attr "participant" (Attrs node)
    (copy_attr "recipient" (Attrs node)
       (<["to" := attr_index (Attrs node) "from"]>
          (<["type" := VString "retry"]> (<["id" := VString (stanza_id node)]> ∅)))).

(** A sequence of [sendRetryReceipt] calls: the events of each call. *)
Fixpoint sendRetryReceipts {W Bundle AccountT} (E : @Collaborators W Bundle AccountT)
  (calls : list (Node * MessageInfo * bool)) (c : @Client W AccountT) : list (list Event) :=
  match calls with
  | [] => []
  | x :: rest =>
      let r := sendRetryReceipt E x.1.1 x.1.2 x.2 c in
      r.2 :: sendRetryReceipts E rest r.1.2
  end.

(** The single child of an incoming message carries no [count]. *)
Definition no_count_attr (node : Node) : Prop :=
  ∀ child, GetChildren node = [child] → Attrs child !! "count" = None.

(** What a call of [sendRetryReceipt] hands to [sendNode], and the errors
    it logs before doing so. *)
Definition retry_receipt_outcome {W Bundle AccountT} (E : @Collaborators W Bundle AccountT)
  (node : Node) (force : bool) (c : @Client W AccountT) : list Node * list string :=
  let id := stanza_id node in
  let rc := updated_count (default 0%Z (messageRetries c !! id)) (count_in_msg (parseInt E) node) in
  let base := [retry_child rc id (attr_index (Attrs node) "t");
               registration_child (RegistrationID c)] in
  if (5 <=? rc)%Z then ([], [])
  else if (1 <? rc)%Z || force then
    match (GenOnePreKey E (world c)).1 with
    | inl _ => ([mkNode "receipt" (receipt_attrs node) (CNodes base)],
               ["Failed to get prekey for retry receipt: %v"])
    | inr key =>
        match proto_Marshal_Account E (Account c) with
        | inl _ => ([], ["Failed to marshal account info: %v"])
        | inr di =>
            ([mkNode "receipt" (receipt_attrs node)
                (CNodes (base ++ [keys_child (IdentityKeyPub c) (preKeyToNode E key)
                                    (preKeyToNode E (SignedPreKey c)) di]))], [])
        end
    end
  else ([mkNode "receipt" (receipt_attrs node) (CNodes base)], []).

(** What [handleRetryReceipt] reads from the [retry] child of a receipt:
    message id, timestamp and count, when the child is there and its
    attributes are well-formed. *)
Definition parse_retry (parse : string → option Z) (node : Node)
  : option (MessageID * Time * Z) :=
  match GetOptionalChildByTag node "retry" with
  | None => None
  | Some retryChild =>
      let r1 := ag_String "id" (AttrGetter retryChild) in
      let r2 := ag_UnixTime parse "t" r1.2 in
      let r3 := ag_Int parse "count" r2.2 in
      if ag_OK r3.2 then Some (r1.1, r2.1, r3.1) else None
  end.

(** The plaintext of a message is recoverable: from the ring, or from the
    [GetMessageForRetry] hook whatever the state of the world. *)
Definition recoverable {W A} (c : @Client W A) (receipt : Receipt) (id : MessageID) : Prop :=
  is_Some (getRecentMessage (Chat receipt) id c)
  ∨ (∀ w, is_Some (GetMessageForRetry c (Sender receipt) (Chat receipt) id w).1).

(** What the retry engine leaves alone: the identity of the device, the
    hooks, the recent-message ring and map, and every message cell that
    exists. *)
Definition retry_frame {W A} (c c' : @Client W A) : Prop :=
  StoreJID c' = StoreJID c
  ∧ GetMessageForRetry c' = GetMessageForRetry c
  ∧ PreRetryCallback c' = PreRetryCallback c
  ∧ recentMessagesMap c' = recentMessagesMap c
  ∧ recentMessagesList c' = recentMessagesList c
  ∧ recentMessagesPtr c' = recentMessagesPtr c
  ∧ heap c ⊆ heap c'.

(** The steps of [retryPrepare] after the counter succeed: the device is
    logged in, the hook (if any) never vetoes, and messages marshal. *)
Definition prepare_ready {W Bundle A} (E : @Collaborators W Bundle A) (c : @Client W A)
  (receipt : Receipt) : Prop :=
  JID_IsEmpty E (getOwnJID c) = false
  ∧ (∀ cb, PreRetryCallback c = Some cb → ∀ id n m w, (cb receipt id n m w).1 = true)
  ∧ (∀ m, ∃ b, proto_Marshal E m = inr b).

(** The bundle step of [handleRetryReceipt] succeeds: a [keys] child
    parses, and fetching prekeys yields a bundle for the sender. *)
Definition bundle_ready {W Bundle A} (E : @Collaborators W Bundle A)
  (receipt : Receipt) (node : Node) : Prop :=
  (is_Some (GetOptionalChildByTag node "keys") →
   ∃ b, nodeToPreKeyBundle E (Z.of_N (Device (Sender receipt))) node = inr b)
  ∧ (∀ w, ∃ keys b w',
       fetchPreKeys E [Sender receipt] w = (inr keys, w')
       ∧ keys !! Sender receipt = Some (mkPreKeyResp (Some b) None)).

(** Encrypting for the sender of the receipt succeeds. *)
Definition encrypt_ready {W Bundle A} (E : @Collaborators W Bundle A)
  (receipt : Receipt) : Prop :=
  ∀ pt b attrs w, ∃ enc inc w',
    encryptMessageForDevice E pt (Sender receipt) b attrs w = (inr (enc, inc), w').

(** The time [shouldRecreateSession] stores when it decides to recreate:
    the reading of the clock it takes last. *)
Definition recorded_time {W Bundle A} (E : @Collaborators W Bundle A)
  (jid : JID) (c : @Client W A) : Time :=
  let first := time_Now E (world c) in
  if ContainsSession E (JID_SignalAddress E jid) (world c) then
    match sessionRecreateHistory c !! jid with
    | Some _ => (time_Now E first.2).1
    | None => first.1
    end
  else first.1.

(** A sequence of [handleRetryReceipt] calls: result and events of each. *)
Fixpoint handleRetryReceipts {W Bundle A} (E : @Collaborators W Bundle A)
  (calls : list (Receipt * Node)) (c : @Client W A) : list (option Error * list Event) :=
  match calls with
  | [] => []
  | x :: rest =>
      let r := handleRetryReceipt E x.1 x.2 c in
      (r.1.1, r.2) :: handleRetryReceipts E rest r.1.2
  end.

(** An operation on the event-handler registry, and a sequence of them. *)
Inductive RegistryOp {W : Type} :=
| OpAdd (handler : WAEvent → W → bool * W)
| OpRemove (id : Z)
| OpRemoveAll.
Arguments RegistryOp : clear implicits.

Definition registry_step {W A} (op : RegistryOp W) (c : @Client W A) : @Client W A :=
  match op with
  | OpAdd handler => (AddEventHandler handler c).1.2
  | OpRemove id => (RemoveEventHandler id c).1.2
  | OpRemoveAll => (RemoveEventHandlers c).1.2
  end.

Definition registry_run {W A} (ops : list (RegistryOp W)) (c : @Client W A) : @Client W A :=
  foldl (λ c op, registry_step op c) c ops.

Definition added_handler {W} (op : RegistryOp W) : option (WAEvent → W → bool * W) :=
  match op with
  | OpAdd handler => Some handler
  | _ => None
  end.

(** A handler function that never panics. *)
Definition never_panics {W} (f : WAEvent → W → bool * W) : Prop :=
  ∀ evt w, (f evt w).1 = false.

(** The ids of the registered handlers increase along the list and do not
    exceed the counter. *)
Definition ids_increasing {W A} (c : @Client W A) : Prop :=
  (0 ≤ nextHandlerID c)%Z
  ∧ Forall (λ h, handler_id h ≤ nextHandlerID c)%Z (eventHandlers c)
  ∧ StronglySorted Z.lt (handler_id <$> eventHandlers c).

(** The frames written to a socket, the frame sockets opened and closed,
    and the goroutines started. *)
Definition frames (t : list Event) : list (NoiseSocket * list Z) :=
  omap (λ e, match e with EvSendFrame s p => Some (s, p) | _ => None end) t.

Definition frame_opens (t : list Event) : list FrameSocket :=
  omap (λ e, match e with EvFrameConnect fs => Some fs | _ => None end) t.

Definition frame_closes (t : list Event) : list FrameSocket :=
  omap (λ e, match e with EvFrameClose fs => Some fs | _ => None end) t.

Definition goroutines (t : list Event) : list Task :=
  omap (λ e, match e with EvGo g => Some g | _ => None end) t.

Definition socket_stops (t : list Event) : list (NoiseSocket * bool) :=
  omap (λ e, match e with EvSocketStop s f => Some (s, f) | _ => None end) t.

(** The ring after [n] insertions into a fresh client: the pointer is [n]
    modulo the size, insertion [j] of the last [size] ones sits in slot
    [j] modulo the size, and the slots never written hold the zero key. *)
Record ring_slots {W A} (calls : list (JID * MessageID * option positive))
    (c : @Client W A) : Prop := {
  rs_len : length (recentMessagesList c) = recentMessagesSize;
  rs_ptr : recentMessagesPtr c = (length calls mod recentMessagesSize)%nat;
  rs_written : ∀ j x, calls !! j = Some x → (length calls ≤ j + recentMessagesSize)%nat →
               recentMessagesList c !! (j mod recentMessagesSize)%nat = Some (call_key x);
  rs_blank : ∀ i, (length calls ≤ i < recentMessagesSize)%nat →
             recentMessagesList c !! i = Some zeroKey }.

(** [c'] differs from [c] at most in the retry counters, the message heap
    and the world. *)
Definition counts_only {W A} (c c' : @Client W A) : Prop :=
  c' = set_world (world c')
         (set_heap (heap c')
            (set_incomingRetryRequestCounter (incomingRetryRequestCounter c') c)).

(** The same, the recreation history included: what [handleRetryReceipt]
    can change at all. *)
Definition retry_footprint {W A} (c c' : @Client W A) : Prop :=
  c' = set_world (world c')
         (set_heap (heap c')
            (set_incomingRetryRequestCounter (incomingRetryRequestCounter c')
               (set_sessionRecreateHistory (sessionRecreateHistory c') c))).

(** The child tags whose event carries the platform and version of the
    remote side, and what a typed call event carries of them. *)
Definition remote_call_tags : list string := ["offer"; "accept"; "preaccept"; "transport"].

Definition call_remote (e : WAEvent) : option CallRemoteMeta :=
  match e with
  | CallOffer _ r _ | CallAccept _ r _ | CallPreAccept _ r _ | CallTransport _ r _ => Some r
  | _ => None
  end.

Definition call_data (e : WAEvent) : option Node :=
  match e with
  | CallOffer _ _ d | CallOfferNotice _ _ _ d | CallRelayLatency _ d
  | CallAccept _ _ d | CallPreAccept _ _ d | CallTransport _ _ d
  | CallTerminate _ _ d => Some d
  | _ => None
  end.

(** The [reject] child and the [call] stanza of [RejectCall]. *)
Definition reject_child (callID : string) (creator : JID) : Node :=
  mkNode "reject"
    {[ "call-id" := VString callID; "call-creator" := VJID creator;
       "count" := VString "0" ]} CNil.

Definition reject_stanza (id : MessageID) (from to : JID) (callID : string) : Node :=
  mkNode "call" {[ "id" := VString id; "from" := VJID from; "to" := VJID to ]}
    (CNodes [reject_child callID to]).

(** The request [Logout] sends. *)
Definition logout_query (ServerJID ownID : JID) : infoQuery :=
  {| iqNamespace := "md"; iqType := iqSet; iqTo := ServerJID;
     iqContent :=
       [mkNode "remove-companion-device"
          {[ "jid" := VJID ownID; "reason" := VString "user_initiated" ]} CNil] |}.

(** The event [ParseWebMessage] builds before [UnwrapRaw], for a chat and
    a sender. *)
Definition parsed_message (GroupServer : string) (webMsg : WebMessageInfo)
  (chat sender : JID) : MessageEvt :=
  mkMessageEvt (WebMessage webMsg) webMsg
    {| PChat := chat; PSender := sender;
       PIsFromMe := FromMe (Key webMsg);
       PIsGroup := bool_decide (Server chat = GroupServer);
       PID := KeyId (Key webMsg);
       PPushName := PushName webMsg;
       PTimestamp := time_FromUnix (wrap_int (MessageTimestamp webMsg)) |}.

(** The events of the client's methods, the goroutines and the sleeps in
    what the supervisor did. *)
Definition events_of (t : list Effect) : list Event :=
  omap (λ e, match e with EfEvent x => Some x | _ => None end) t.

Definition spawned (t : list Effect) : list SupervisorTask :=
  omap (λ e, match e with EfGo g => Some g | _ => None end) t.

Definition sleeps (t : list Effect) : list Z :=
  omap (λ e, match e with EfSleep d => Some d | _ => None end) t.

(** The supervisor's own fields are those of [s]. *)
Definition same_settings {W A} (s s' : @Supervised W A) : Prop :=
  EnableAutoReconnect s' = EnableAutoReconnect s
  ∧ AutoReconnectHook s' = AutoReconnectHook s
  ∧ nodeHandlers s' = nodeHandlers s
  ∧ handlerQueue s' = handlerQueue s.

(** ** A concrete set of collaborators

    A small world in which every collaborator can be run: a clock, a flag
    for the Signal session, a stock of prekeys and the sockets that are
    alive. It serves to evaluate the methods on concrete inputs. *)
Module Bench.

Record World := mkWorld {
  clock : Z; has_session : bool; prekeys_left : nat; live : list positive;
  next_socket : positive }.

Definition digit (a : ascii) : option Z :=
  let n := nat_of_ascii a in
  if decide (48 ≤ n ≤ 57)%nat then Some (Z.of_nat (n - 48)) else None.

Fixpoint digits (s : string) (acc : Z) : option Z :=
  match s with
  | EmptyString => Some acc
  | String a s' =>
      match digit a with
      | Some d => digits s' (acc * 10 + d)%Z
      | None => None
      end
  end.

Definition parseDecimal (s : string) : option Z :=
  match s with
  | EmptyString => None
  | _ => digits s 0
  end.

Definition tick (w : World) : Time * World :=
  (clock w, mkWorld (clock w + 1) (has_session w) (prekeys_left w) (live w) (next_socket w)).

Definition genOnePreKey (w : World) : (string + PreKey) * World :=
  match prekeys_left w with
  | O => (inl "no prekeys left", w)
  | S n => (inr (mkPreKey (Z.of_nat n) [7%Z] None),
            mkWorld (clock w) (has_session w) n (live w) (next_socket w))
  end.

Definition keyNode (k : PreKey) : Node :=
  mkNode (match KeySignature k with Some _ => "skey" | None => "key" end) ∅
    (CBytes (KeyPub k)).

Definition newSocket (w : World) : positive * World :=
  (next_socket w,
   mkWorld (clock w) (has_session w) (prekeys_left w) (live w) (Pos.succ (next_socket w))).

Definition handshake (fs : positive) (kp : list Z * list Z) (w : World)
  : (string + positive) * World :=
  (inr fs, mkWorld (clock w) (has_session w) (prekeys_left w) (fs :: live w) (next_socket w)).

Definition stop (s : positive) (force : bool) (w : World) : World :=
  mkWorld (clock w) (has_session w) (prekeys_left w)
    (filter (λ x, x ≠ s) (live w)) (next_socket w).

(** The account is a flag: whether its blob marshals. *)
Definition env : @Collaborators World unit bool :=
  {| parseInt := parseDecimal;
     time_Now := tick;
     JID_IsEmpty := λ j, bool_decide (Server j = "");
     JID_String := λ j, User j +:+ "@" +:+ Server j;
     JID_SignalAddress := λ j, (User j, Device j);
     ContainsSession := λ _ w, has_session w;
     GenOnePreKey := genOnePreKey;
     GroupSessionCreate := λ _ _ w, (inr [1%Z; 2%Z], w);
     proto_Marshal := λ m, inr [Z.of_nat (String.length (Other m))];
     proto_Marshal_Account := λ ok : bool, if ok then inr [9%Z] else inl "bad account";
     waBinary_Marshal := λ _, inr [];
     preKeyToNode := keyNode;
     nodeToPreKeyBundle := λ _ _, inr tt;
     fetchPreKeys := λ jids w, (inr (list_to_map ((λ j, (j, mkPreKeyResp (Some tt) None)) <$> jids)), w);
     encryptMessageForDevice := λ pt _ _ attrs w, (inr (mkNode "enc" attrs (CBytes pt), false), w);
     getMediaTypeFromMessage := λ _, "";
     getTypeFromMessage := λ _, "text";
     getMessageContent := λ enc _ _ _, [enc];
     socket_IsConnected := λ s w, bool_decide (s ∈ live w);
     socket_Stop := stop;
     socket_SendFrame := λ _ _ w, (None, w);
     NewFrameSocket := newSocket;
     frameSocket_Connect := λ _ w, (None, w);
     frameSocket_Close := λ _ w, w;
     NewKeyPair := λ w, (([], []), w);
     noiseHandshake := handshake |}.

Definition world0 : World := mkWorld 0 true 3 [] 1.

Definition alice : JID := mkJID "alice" 0 0 "s.whatsapp.net".
Definition bob : JID := mkJID "bob" 0 1 "s.whatsapp.net".

(** A freshly created client of a paired device. *)
Definition client0 : @Client World bool :=
  NewClient (Some alice) 305419896 [1%Z] (mkPreKey 1 [2%Z] (Some [3%Z])) true ∅ 0 world0.

Definition noop : WAEvent → World → bool * World := λ _ w, (false, w).

Definition ptr1 : option positive := Some 1%positive.

Definition numbered (n : nat) : JID * MessageID * option positive :=
  (bob, String (ascii_of_nat n) "", ptr1).

(** 257 calls, the first two with the same key. *)
Definition dup_calls : list (JID * MessageID * option positive) :=
  [(bob, "dup", ptr1); (bob, "dup", ptr1)] ++ (numbered <$> seq 1 255).

(** 257 calls with distinct keys. *)
Definition distinct_calls : list (JID * MessageID * option positive) :=
  (numbered <$> seq 1 255) ++ [(bob, "m256", ptr1); (bob, "m257", ptr1)].

Definition call_offer : Node :=
  mkNode "call" {[ "from" := VJID bob; "t" := VString "1700000000" ]}
    (CNodes [mkNode "offer"
               {[ "call-creator" := VJID bob; "call-id" := VString "C1";
                  "platform" := VString "iOS"; "version" := VString "2.24" ]} CNil]).

Definition call_bogus : Node :=
  mkNode "call" {[ "from" := VJID bob; "t" := VString "1700000000" ]}
    (CNodes [mkNode "bogus" ∅ CNil]).

(** A client whose socket handle is dead, with one pending waiter. *)
Definition stale_client : @Client World bool :=
  set_socket (Some 5%positive) (set_responseWaiters {[ "req-1" := 9%positive ]} client0).

(** An incoming message whose [enc] child carries no [count]. *)
Definition incoming : Node :=
  mkNode "message"
    {[ "id" := VString "M1"; "from" := VJID bob; "t" := VString "1700000000" ]}
    (CNodes [mkNode "enc" {[ "v" := VString "2"; "type" := VString "msg" ]}
               (CBytes [1%Z; 2%Z; 3%Z])]).

Definition info0 : MessageInfo := mkMessageInfo bob bob "M1".

(** One retry receipt for [M1] was sent before. *)
Definition second_retry : @Client World bool :=
  set_messageRetries {[ "M1" := 1%Z ]} client0.

(** The same, with no prekey left in the store. *)
Definition no_prekeys : @Client World bool :=
  set_world (mkWorld 0 true 0 [] 1) second_retry.

(** A client whose account blob does not marshal. *)
Definition bad_account : @Client World bool :=
  NewClient (Some alice) 305419896 [1%Z] (mkPreKey 1 [2%Z] (Some [3%Z])) false ∅ 0
    world0.

Definition hello : Message := mkMessage "hello" None None.

(** A client that sent [M1] to bob and still has it in the ring. *)
Definition retry_client : @Client World bool :=
  default client0
    (addRecentMessage bob "M1" (Some 1%positive)
       (set_heap {[ 1%positive := hello ]} client0)).

Definition retry_receipt : Receipt := mkReceipt bob bob false false.
Definition group_receipt : Receipt := mkReceipt bob bob false true.

Definition retry_node : Node :=
  mkNode "receipt"
    {[ "type" := VString "retry"; "from" := VJID bob; "id" := VString "M1" ]}
    (CNodes [mkNode "retry"
               {[ "id" := VString "M1"; "t" := VString "1700000000";
                  "count" := VString "1" ]} CNil;
             mkNode "registration" ∅ (CBytes [0%Z; 0%Z; 0%Z; 1%Z])]).

Definition minutes (n : Z) : Z := (n * 60 * 10 ^ 9)%Z.

(** The last recreation for bob was [n] minutes before the bench clock. *)
Definition recreated_ago (n : Z) : @Client World bool :=
  set_sessionRecreateHistory {[ bob := (- minutes n)%Z ]} retry_client.

(** The same client when no Signal session with bob exists. *)
Definition no_session : @Client World bool :=
  set_world (mkWorld 0 false 3 [] 1) retry_client.

(** A handler that panics, and one that advances the clock. *)
Definition panicky : WAEvent → World → bool * World := λ _ w, (true, w).
Definition ticking : WAEvent → World → bool * World := λ _ w, (false, (tick w).2).

(** Registrations and removals, the first handler removed first. *)
Definition registry_ops : list (RegistryOp World) :=
  [OpAdd noop; OpAdd ticking; OpRemove 1; OpAdd noop; OpRemove 3; OpAdd ticking].

(** A client with a ticking handler, a panicking one and another ticking
    one, registered in this order. *)
Definition three_handlers : @Client World bool :=
  registry_run [OpAdd ticking; OpAdd panicky; OpAdd ticking] client0.

(** A device that is not logged in and has sent [M1] to bob. *)
Definition logged_out : @Client World bool :=
  default client0
    (addRecentMessage bob "M1" (Some 1%positive)
       (set_heap {[ 1%positive := hello ]}
          (NewClient None 305419896 [1%Z] (mkPreKey 1 [2%Z] (Some [3%Z])) true ∅ 0 world0))).

End Bench.

(** * Properties *)

(** ** Running the monad *)

Section Monad.
Context {W AccountT : Type}.
Implicit Types (c : @Client W AccountT).

Lemma bind_run {A B} (m : M A) (k : A → M B) c :
  bind m k c
  = ((k (m c).1.1 (m c).1.2).1, (m c).2 ++ (k (m c).1.1 (m c).1.2).2).
Proof.
  unfold bind. destruct (m c) as [[a c1] t1]; cbn.
  by destruct (k a c1) as [[b c2] t2].
Qed.

Lemma emit_then_trace {A} (e : Event) (m : M A) c :
  (bind (emit e) (λ _, m) c).2 = e :: (m c).2.
Proof. by rewrite bind_run. Qed.

End Monad.

(** ** The event-handler registry *)

Section EventHandlers.
Context {W AccountT : Type}.
Implicit Types (c : @Client W AccountT) (hs : list (@wrappedEventHandler W)).

Lemma wrap_u32_succ (n : Z) :
  (0 ≤ n < 2 ^ 32 - 1)%Z → wrap_u32 (n + 1) = (n + 1)%Z.
Proof. intros H. unfold wrap_u32. apply Z.mod_small. lia. Qed.

Lemma drop_clear_fn_0 hs : drop 1 (clear_fn 0 hs) = drop 1 hs.
Proof. by destruct hs. Qed.

Lemma slice_copy_shift {A} (i : nat) (s : list A) :
  (i < length s - 1)%nat →
  slice_copy i (drop (i + 1) s) s = take i s ++ drop (i + 1) s ++ drop (length s - 1) s.
Proof.
  intros Hi. unfold slice_copy. 
  rewrite (take_ge (drop (i + 1) s)) by (rewrite length_drop; lia).
  rewrite length_drop. do 3 f_equal. lia.
Qed.

Lemma take_clear_fn_last hs :
  take (length (clear_fn (length hs - 1) hs) - 1) (clear_fn (length hs - 1) hs)
  = take (length hs - 1) hs.
Proof.
  unfold clear_fn. rewrite length_alter.
  rewrite take_alter. case_decide; [lia | done].
Qed.

(** What the three slice manipulations of [RemoveEventHandler] amount to. *)
Lemma remove_at_index hs (index : nat) :
  (index < length hs)%nat → index ≠ 0%nat →
  let hs1 := if decide (index < length hs - 1)%nat
             then slice_copy index (drop (index + 1) hs) hs else hs in
  let hs2 := clear_fn (length hs1 - 1) hs1 in
  take (length hs2 - 1) hs2 = take index hs ++ drop (S index) hs.
Proof.
  intros Hlt Hne. cbn zeta. rewrite take_clear_fn_last.
  case_decide as Hd.
  - rewrite slice_copy_shift by done.
    assert (Hlen : length (take index hs ++ drop (index + 1) hs ++ drop (length hs - 1) hs)
                   = length hs).
    { rewrite !length_app, length_take, !length_drop. lia. }
    rewrite Hlen.
    rewrite app_assoc, take_app_le.
    + rewrite (take_ge (take index hs ++ drop (index + 1) hs)); [by rewrite Nat.add_1_r|].
      rewrite length_app, length_take, length_drop. lia.
    + rewrite length_app, length_take, length_drop. lia.
  - assert (index = length hs - 1)%nat as -> by lia.
    rewrite drop_ge by lia. by rewrite app_nil_r.
Qed.


(** Claim C8, as the code has it. [AddEventHandler] returns the package
    counter plus one modulo [2^32], appends the handler under that id, and
    the id is strictly greater than the previous one as long as the counter
    has not reached [2^32 - 1]. [RemoveEventHandler id] returns [true]
    exactly when some registered handler carries [id]; it then removes the
    first such handler and keeps the others in their order; when it returns
    [false] the client is unchanged. *)
Theorem event_handler_registry c (handler : WAEvent → W → bool * W) (id : Z) :
  let added := AddEventHandler handler c in
  let removed := RemoveEventHandler id c in
  (added.1.1 = wrap_u32 (nextHandlerID c + 1)
   ∧ nextHandlerID added.1.2 = added.1.1
   ∧ eventHandlers added.1.2 = eventHandlers c ++ [mkHandler (Some handler) added.1.1]
   ∧ ((0 ≤ nextHandlerID c < 2 ^ 32 - 1)%Z → (nextHandlerID c < added.1.1)%Z))
  ∧ (removed.1.1 = true ↔ ∃ h, h ∈ eventHandlers c ∧ handler_id h = id)
  ∧ (removed.1.1 = true → removes_first id (eventHandlers c) (eventHandlers removed.1.2))
  ∧ (removed.1.1 = false → removed.1.2 = c).
Proof.
  cbn zeta. split; [|split; [|split]].
  - cbn. repeat split; try done.
    intros H. rewrite wrap_u32_succ by done. lia.
  - unfold RemoveEventHandler, bind, get; cbn.
    destruct (list_find _ _) as [[index h]|] eqn:Hfind.
    + apply list_find_Some in Hfind as (Hl & Hid & _).
      split; [intros _|].
      * exists h. split; [by eapply list_elem_of_lookup_2|done].
      * intros _. by case_decide.
    + apply list_find_None in Hfind. cbn. split; [done|].
      intros (h & Hin & Hid). rewrite Forall_forall in Hfind. by destruct (Hfind h Hin).
  - unfold RemoveEventHandler, bind, get; cbn.
    destruct (list_find _ _) as [[index h]|] eqn:Hfind; [|done].
    intros _. apply list_find_Some in Hfind as (Hl & Hid & Hfirst).
    exists (take index (eventHandlers c)), h, (drop (S index) (eventHandlers c)).
    split; [by rewrite take_drop_middle|]. split; [done|]. split.
    { intros x Hx. apply list_elem_of_lookup in Hx as [j Hj].
      apply lookup_take_Some in Hj as [Hj Hlt]. by eapply Hfirst. }
    case_decide as H0; cbn.
    * subst index. by rewrite drop_clear_fn_0.
    * apply remove_at_index; [by eapply lookup_lt_Some|done].
  - unfold RemoveEventHandler, bind, get; cbn.
    destruct (list_find _ _) as [[index h]|] eqn:Hfind; [|done].
    by case_decide.
Qed.

End EventHandlers.

(** Claim C8 as stated fails when the [uint32] counter wraps around: the
    call after the one that returned [4294967295] returns [0]. *)
Lemma AddEventHandler_wraps :
  let c := set_nextHandlerID 4294967294 Bench.client0 in
  let first := AddEventHandler Bench.noop c in
  let second := AddEventHandler Bench.noop first.1.2 in
  first.1.1 = 4294967295%Z ∧ second.1.1 = 0%Z ∧ ¬ (first.1.1 < second.1.1)%Z.
Proof.
  cbn zeta. split; [reflexivity|]. split; [reflexivity|].
  vm_compute. discriminate.
Qed.

(** Claim C8 on a client with two registered handlers. *)
Lemma event_handler_registry_witness :
  let c := (AddEventHandler Bench.noop (AddEventHandler Bench.noop Bench.client0).1.2).1.2 in
  (nextHandlerID c < (AddEventHandler Bench.noop c).1.1)%Z
  ∧ (RemoveEventHandler 1 c).1.1 = true
  ∧ handler_id <$> eventHandlers (RemoveEventHandler 1 c).1.2 = [2%Z]
  ∧ (RemoveEventHandler 5 c).1.2 = c.
Proof.
  set (c := (AddEventHandler Bench.noop (AddEventHandler Bench.noop Bench.client0).1.2).1.2).
  cbn zeta.
  destruct (event_handler_registry c Bench.noop 1) as ((_ & _ & _ & Hlt) & Hiff & Hrm & _).
  destruct (event_handler_registry c Bench.noop 5) as (_ & _ & _ & Hkeep).
  split; [apply Hlt; vm_compute; split; [discriminate|reflexivity]|].
  split; [reflexivity|].
  split; [reflexivity|].
  apply Hkeep. reflexivity.
Defined.

(** ** The recent-message ring *)

Section Ring.
Context {W AccountT : Type}.
Implicit Types (c : @Client W AccountT) (ks : list recentMessageKey).

Lemma addRecentMessages_snoc calls x c :
  addRecentMessages (calls ++ [x]) c
  = c' ← addRecentMessages calls c; addRecentMessage x.1.1 x.1.2 x.2 c'.
Proof.
  revert c. induction calls as [|y calls IH]; intros c; cbn.
  - by destruct (addRecentMessage _ _ _ _).
  - destruct (addRecentMessage y.1.1 y.1.2 y.2 c); cbn; [apply IH|done].
Qed.

Lemma ring_step n0 ks c to id p :
  ring_inv n0 ks c → id ≠ "" →
  NoDup ks → Forall occupied ks →
  ∃ c', addRecentMessage to id p c = Some c' ∧ ring_inv n0 (ks ++ [mkRecentKey to id]) c'.
Proof.
  intros [Hlen Hptr Hwin Hdom] Hid Hnd Hocc.
  set (k := mkRecentKey to id).
  destruct (lookup_lt_is_Some_2 (recentMessagesList c) (recentMessagesPtr c)) as [old Hold];
    [lia|].
  unfold addRecentMessage. rewrite Hold. cbn [mbind option_bind].
  eexists. split; [reflexivity|].
  (* the slot under the pointer is the head of the window *)
  assert (Hhead : (replicate n0 zeroKey ++ ks) !! length ks = Some old).
  { assert (window c !! 0%nat = Some old) as H0.
    { unfold window. rewrite (drop_S _ _ _ Hold). done. }
    rewrite Hwin, lookup_drop in H0. by rewrite Nat.add_0_r in H0. }
  constructor; cbn.
  - by rewrite length_insert.
  - rewrite length_insert. case_decide; lia.
  - unfold window; cbn. rewrite length_insert, length_app. cbn [length]. 
    rewrite (app_assoc (replicate _ _)). rewrite drop_app_le by (rewrite length_app, length_replicate; lia).
    rewrite <- (drop_drop _ 1 (length ks)), <- Hwin. unfold window.
    rewrite (drop_S _ _ _ Hold). cbn [skipn app].
    case_decide as Hwrap.
    + cbn [skipn firstn]. rewrite app_nil_r.
      rewrite insert_take_drop by lia.
      rewrite (drop_ge _ (S (recentMessagesPtr c))) by lia. done.
    + rewrite drop_insert_lt by lia.
      rewrite (take_S_r _ _ k) by (apply list_lookup_insert_eq; lia).
      rewrite take_insert_ge by lia. by rewrite app_assoc.
  - rewrite length_app, length_cons, length_nil. fold k.
    rewrite dom_insert_L.
    destruct (decide (length ks < n0)%nat) as [Hlt|Hge].
    + rewrite lookup_app_l in Hhead by (rewrite length_replicate; lia).
      apply lookup_replicate in Hhead as [-> _].
      rewrite decide_False by (cbn; intros H; by apply H).
      rewrite Hdom.
      replace (length ks - n0)%nat with 0%nat by lia.
      replace (length ks + 1 - n0)%nat with 0%nat by lia.
      rewrite !drop_0, list_to_set_app_L. set_solver.
    + rewrite lookup_app_r in Hhead by (rewrite length_replicate; lia).
      rewrite length_replicate in Hhead.
      assert (occupied old) as Hocc_old.
      { rewrite Forall_forall in Hocc. apply Hocc. by eapply list_elem_of_lookup_2. }
      rewrite decide_True by done.
      rewrite dom_delete_L, Hdom.
      rewrite (drop_S _ _ _ Hhead).
      replace (length ks + 1 - n0)%nat with (S (length ks - n0)) by lia.
      rewrite drop_app_le by (apply lookup_lt_Some in Hhead; lia).
      rewrite list_to_set_app_L, list_to_set_cons.
      assert (old ∉ drop (S (length ks - n0)) ks) as Hnotin.
      { rewrite <- (take_drop_middle _ _ _ Hhead) in Hnd.
        apply NoDup_app in Hnd as (_ & _ & Hnd). by apply NoDup_cons in Hnd as [? _]. }
      set_solver.
Qed.


Lemma ring_inv_NewClient jid regID idk spk (acct : AccountT) h ctr (w : W) :
  ring_inv recentMessagesSize [] (NewClient jid regID idk spk acct h ctr w).
Proof.
  constructor; cbn [NewClient recentMessagesList recentMessagesPtr recentMessagesMap].
  - apply length_replicate.
  - unfold recentMessagesSize. lia.
  - unfold window; cbn [NewClient recentMessagesList recentMessagesPtr].
    by rewrite drop_0, take_0, !app_nil_r.
  - by rewrite dom_empty_L.
Qed.

Lemma ring_inv_run n0 calls c0 :
  ring_inv n0 [] c0 →
  NoDup (call_key <$> calls) → Forall occupied (call_key <$> calls) →
  ∃ c, addRecentMessages calls c0 = Some c ∧ ring_inv n0 (call_key <$> calls) c.
Proof.
  intros H0. induction calls as [|x calls IH] using rev_ind; intros Hnd Hocc.
  - by exists c0.
  - rewrite fmap_app in Hnd, Hocc. cbn in Hnd, Hocc.
    apply NoDup_app in Hnd as (Hnd & Hx & _).
    apply Forall_app in Hocc as (Hocc & Hk).
    destruct (IH Hnd Hocc) as (c & Hrun & Hinv).
    destruct (ring_step n0 _ c x.1.1 x.1.2 x.2 Hinv) as (c' & Hadd & Hinv'); [|done..|].
    { rewrite Forall_singleton in Hk. exact Hk. }
    exists c'. rewrite addRecentMessages_snoc, Hrun. cbn. split; [done|].
    by rewrite fmap_app.
Qed.

Lemma ring_keys_window c : ring_keys c ≡ₚ filter occupied (window c).
Proof.
  unfold ring_keys, window. rewrite <- (take_drop (recentMessagesPtr c) (recentMessagesList c)) at 1.
  rewrite !filter_app. apply Permutation_app_comm.
Qed.

Lemma filter_occupied_replicate n : filter occupied (replicate n zeroKey) = [].
Proof.
  induction n as [|n IH]; [done|]. cbn [replicate].
  rewrite filter_cons_False; [done|]. unfold occupied; cbn. by intros H.
Qed.

Lemma filter_occupied_all ks : Forall occupied ks → filter occupied ks = ks.
Proof.
  induction 1 as [|k ks Hk _ IH]; [done|]. by rewrite filter_cons_True, IH.
Qed.

Lemma ring_inv_keys n0 ks c :
  ring_inv n0 ks c → Forall occupied ks →
  ring_keys c ≡ₚ drop (length ks - n0) ks.
Proof.
  intros [_ _ Hwin _] Hocc. rewrite ring_keys_window, Hwin.
  rewrite drop_app, length_replicate, filter_app.
  assert (filter occupied (drop (length ks) (replicate n0 zeroKey)) = []) as ->.
  { rewrite drop_replicate. apply filter_occupied_replicate. }
  cbn [app]. rewrite filter_occupied_all; [done|]. by apply Forall_drop.
Qed.

(** Claim C2, as the code has it. From a fresh client, after any number
    [n] of the calls of a sequence whose keys are pairwise distinct and
    carry a non-empty message id, the ring is intact: the key set of the map
    is the set of keys in occupied slots, no key occupies two slots, and
    once more than 256 calls were made exactly 256 entries remain in both,
    the 256 keys added last. *)
Theorem recent_ring_consistent jid regID idk spk (acct : AccountT) h ctr (w : W)
    (calls : list (JID * MessageID * option positive)) (n : nat) :
  NoDup (call_key <$> calls) →
  Forall occupied (call_key <$> calls) →
  ∃ c, addRecentMessages (take n calls) (NewClient jid regID idk spk acct h ctr w) = Some c
     ∧ dom (recentMessagesMap c) = list_to_set (ring_keys c)
     ∧ NoDup (ring_keys c)
     ∧ ((recentMessagesSize < n ≤ length calls)%nat →
        length (ring_keys c) = recentMessagesSize
        ∧ size (recentMessagesMap c) = recentMessagesSize
        ∧ dom (recentMessagesMap c)
          = list_to_set (take recentMessagesSize (drop (n - recentMessagesSize) (call_key <$> calls)))).
Proof.
  intros Hnd Hocc.
  assert (NoDup (call_key <$> take n calls)) as Hnd'.
  { rewrite fmap_take. eapply sublist_NoDup; [done|apply sublist_take]. }
  assert (Forall occupied (call_key <$> take n calls)) as Hocc'.
  { rewrite fmap_take. by apply Forall_take. }
  destruct (ring_inv_run recentMessagesSize (take n calls) _
              (ring_inv_NewClient jid regID idk spk acct h ctr w) Hnd' Hocc')
    as (c & Hrun & Hinv).
  pose proof (ring_inv_keys _ _ _ Hinv Hocc') as Hkeys.
  exists c. split; [done|].
  assert (NoDup (drop (length (call_key <$> take n calls) - recentMessagesSize)
                   (call_key <$> take n calls))) as Hnd''.
  { eapply sublist_NoDup; [done|apply sublist_drop]. }
  split; [|split].
  - rewrite (ri_dom _ _ _ Hinv). apply set_eq. intros k.
    rewrite !elem_of_list_to_set. by rewrite Hkeys.
  - by rewrite Hkeys.
  - intros [Hgt Hle].
    assert (length (call_key <$> take n calls) = n) as Hlen.
    { rewrite length_fmap, length_take. lia. }
    rewrite Hlen in *.
    assert (drop (n - recentMessagesSize) (call_key <$> take n calls)
            = take recentMessagesSize (drop (n - recentMessagesSize) (call_key <$> calls))) as Heq.
    { rewrite fmap_take, take_drop_commute. do 2 f_equal. lia. }
    split; [|split].
    + rewrite Hkeys, length_drop, Hlen. lia.
    + rewrite <- size_dom, (ri_dom _ _ _ Hinv), Hlen.
      rewrite size_list_to_set by done. rewrite length_drop, Hlen. lia.
    + by rewrite (ri_dom _ _ _ Hinv), Hlen, Heq.
Qed.

End Ring.

(** Claim C2 as stated fails in two ways. A key with the empty message id
    is stored in the map while its slot still counts as empty; and when a
    key is added twice, evicting its older slot removes it from the map
    although the younger slot still holds it. *)
Lemma recent_ring_inconsistent :
  (∃ c, addRecentMessages [(Bench.bob, "", Bench.ptr1)] Bench.client0 = Some c
        ∧ dom (recentMessagesMap c) ≠ list_to_set (ring_keys c))
  ∧ (∃ c, addRecentMessages Bench.dup_calls Bench.client0 = Some c
          ∧ dom (recentMessagesMap c) ≠ list_to_set (ring_keys c)).
Proof.
  split.
  - assert (is_Some (addRecentMessages [(Bench.bob, "", Bench.ptr1)] Bench.client0))
      as [c Hrun] by (apply (bool_decide_unpack _); vm_compute; exact I).
    exists c. split; [done|]. intros Heq.
    assert ((c' ← addRecentMessages [(Bench.bob, "", Bench.ptr1)] Bench.client0;
             recentMessagesMap c' !! mkRecentKey Bench.bob "") = Some Bench.ptr1) as Hmap
      by (vm_compute; reflexivity).
    assert (ring_keys <$> addRecentMessages [(Bench.bob, "", Bench.ptr1)] Bench.client0 = Some [])
      as Hring by (vm_compute; reflexivity).
    rewrite Hrun in Hmap, Hring. cbn in Hmap, Hring.
    assert (mkRecentKey Bench.bob "" ∈ dom (recentMessagesMap c)) as Hin
      by (apply elem_of_dom; eauto).
    rewrite Heq in Hin. apply elem_of_list_to_set in Hin.
    injection Hring as Hring. rewrite Hring in Hin. inversion Hin.
  - assert (is_Some (addRecentMessages Bench.dup_calls Bench.client0))
      as [c Hrun] by (apply (bool_decide_unpack _); vm_compute; exact I).
    exists c. split; [done|]. intros Heq.
    assert ((c' ← addRecentMessages Bench.dup_calls Bench.client0;
             recentMessagesMap c' !! mkRecentKey Bench.bob "dup") = None) as Hmap
      by (vm_compute; reflexivity).
    assert ((c' ← addRecentMessages Bench.dup_calls Bench.client0; ring_keys c' !! 1%nat)
            = Some (mkRecentKey Bench.bob "dup")) as Hring by (vm_compute; reflexivity).
    rewrite Hrun in Hmap, Hring. cbn in Hmap, Hring.
    apply not_elem_of_dom in Hmap. apply Hmap. rewrite Heq.
    apply elem_of_list_to_set. by eapply list_elem_of_lookup_2.
Qed.

(** Claim C2 on 257 distinct keys. *)
Lemma recent_ring_consistent_witness :
  ∃ c, addRecentMessages Bench.distinct_calls Bench.client0 = Some c
       ∧ dom (recentMessagesMap c) = list_to_set (ring_keys c)
       ∧ length (ring_keys c) = 256%nat
       ∧ size (recentMessagesMap c) = 256%nat.
Proof.
  assert (NoDup (call_key <$> Bench.distinct_calls)) as Hnd.
  { apply (bool_decide_unpack _). vm_compute. exact I. }
  assert (Forall occupied (call_key <$> Bench.distinct_calls)) as Hocc.
  { apply (bool_decide_unpack _). vm_compute. exact I. }
  destruct (recent_ring_consistent (Some Bench.alice) 305419896 [1%Z]
              (mkPreKey 1 [2%Z] (Some [3%Z])) true ∅ 0 Bench.world0
              Bench.distinct_calls 257 Hnd Hocc) as (c & Hrun & Hdom & _ & Hfull).
  destruct Hfull as (Hlen & Hsize & _).
  { vm_compute. split; apply Nat.leb_le; reflexivity. }
  exists c. repeat split; assumption.
Defined.

(** ** The call handler *)

Section CallHandler.
Context {W Bundle AccountT : Type} (E : @Collaborators W Bundle AccountT).
Implicit Types (c : @Client W AccountT).

Lemma dispatchEvent_trace evt c :
  acks (dispatchEvent evt c).2 = [] ∧ dispatched (dispatchEvent evt c).2 = [evt].
Proof.
  unfold dispatchEvent, bind, emit, get, call, log, ret; cbn.
  by destruct (run_handlers _ _ _) as [[] w].
Qed.

Local Ltac on_tag child s :=
  destruct (decide (Tag child = s)) as [Htag|?];
  [eexists; split; [reflexivity|]; rewrite Htag;
   rewrite decide_True by set_solver; repeat split; try done; intros; discriminate|].

Lemma handleCallEvent_unfold node c :
  ∃ evt, (handleCallEvent E node c).2
           = EvGo (GoSendAck node) :: (dispatchEvent evt (c)).2
       ∧ match GetChildren node with
         | [child] =>
             let ag := AttrGetter node in
             let cag := AttrGetter child in
             let meta := mkBasicCallMeta (ag_JID "from" ag).1
                           (ag_UnixTime (parseInt E) "t" ag).1
                           (ag_JID "call-creator" cag).1 (ag_String "call-id" cag).1 in
             if decide (Tag child ∈ known_call_tags) then
               call_variant evt = Some (Tag child) ∧ call_meta evt = Some meta
               ∧ (Tag child = "terminate" →
                  call_reason evt = Some (ag_String "reason" cag).1)
               ∧ (Tag child = "offer_notice" →
                  call_media_type evt
                  = Some ((ag_String "media" cag).1, (ag_String "type" cag).1))
             else evt = UnknownCallEvent node
         | _ => evt = UnknownCallEvent node
         end.
Proof.
  unfold handleCallEvent. rewrite emit_then_trace.
  destruct (GetChildren node) as [|child [|]]; try (eexists; split; [reflexivity|done]).
  unfold known_call_tags.
  on_tag child "offer". on_tag child "offer_notice". on_tag child "relaylatency".
  on_tag child "accept". on_tag child "preaccept". on_tag child "transport".
  on_tag child "terminate".
  eexists. split; [reflexivity|].
  rewrite decide_False; [done|]. set_solver.
Qed.

(** Claim C6. For every inbound call stanza [handleCallEvent] starts
    exactly one acknowledgement. If the stanza does not have exactly one
    child, or the tag of its single child is none of the seven call tags,
    exactly one [UnknownCallEvent] is dispatched and nothing else.
    Otherwise exactly one event is dispatched, of the variant of the child
    tag, with [from] and [t] read from the outer attributes and
    [call-creator] and [call-id] from the child; [terminate] also carries
    the child's [reason], [offer_notice] its [media] and [type]. *)
Theorem handleCallEvent_dispatch node c :
  let t := (handleCallEvent E node c).2 in
  acks t = [node]
  ∧ ((∀ child, GetChildren node = [child] → Tag child ∉ known_call_tags) →
     dispatched t = [UnknownCallEvent node])
  ∧ (∀ child, GetChildren node = [child] → Tag child ∈ known_call_tags →
     ∃ evt, dispatched t = [evt]
       ∧ call_variant evt = Some (Tag child)
       ∧ call_meta evt
         = Some {| From := (ag_JID "from" (AttrGetter node)).1;
                   Timestamp := (ag_UnixTime (parseInt E) "t" (AttrGetter node)).1;
                   CallCreator := (ag_JID "call-creator" (AttrGetter child)).1;
                   CallID := (ag_String "call-id" (AttrGetter child)).1 |}
       ∧ (Tag child = "terminate" →
          call_reason evt = Some (ag_String "reason" (AttrGetter child)).1)
       ∧ (Tag child = "offer_notice" →
          call_media_type evt
          = Some ((ag_String "media" (AttrGetter child)).1,
                  (ag_String "type" (AttrGetter child)).1))).
Proof.
  cbn zeta. destruct (handleCallEvent_unfold node c) as (evt & -> & Hevt).
  destruct (dispatchEvent_trace evt c) as [Hacks Hdisp].
  assert (∀ tl, acks (EvGo (GoSendAck node) :: tl) = node :: acks tl) as Ha by done.
  assert (∀ tl, dispatched (EvGo (GoSendAck node) :: tl) = dispatched tl) as Hd by done.
  rewrite Ha, Hd, Hacks, Hdisp. split; [done|]. split.
  - intros Hunknown. destruct (GetChildren node) as [|child [|]]; try by subst.
    rewrite decide_False in Hevt by by apply Hunknown. by subst.
  - intros child Hchild Hknown. rewrite Hchild in Hevt.
    rewrite decide_True in Hevt by done. by exists evt.
Qed.

End CallHandler.

(** Claim C6 on an offer and on a stanza with an unknown child. *)
Lemma handleCallEvent_dispatch_witness :
  (∃ evt, dispatched (handleCallEvent Bench.env Bench.call_offer Bench.client0).2 = [evt]
     ∧ call_variant evt = Some "offer"
     ∧ call_meta evt = Some (mkBasicCallMeta Bench.bob 1700000000000000000 Bench.bob "C1"))
  ∧ dispatched (handleCallEvent Bench.env Bench.call_bogus Bench.client0).2
    = [UnknownCallEvent Bench.call_bogus].
Proof.
  destruct (handleCallEvent_dispatch Bench.env Bench.call_offer Bench.client0) as (_ & _ & Hknown).
  destruct (handleCallEvent_dispatch Bench.env Bench.call_bogus Bench.client0) as (_ & Hunknown & _).
  split.
  - destruct (Hknown _ eq_refl) as (evt & Hd & Hv & Hm & _).
    { apply (bool_decide_unpack _). vm_compute. exact I. }
    exists evt. repeat split; [exact Hd|exact Hv|].
    rewrite Hm. vm_compute. reflexivity.
  - apply Hunknown. intros child Hchild. injection Hchild as <-.
    apply (bool_decide_unpack _). vm_compute. exact I.
Defined.

(** ** Connecting *)

Section Connect.
Context {W Bundle AccountT : Type} (E : @Collaborators W Bundle AccountT).
Implicit Types (c : @Client W AccountT).

Lemma connectNew_outcome c :
  let r := connectNew E c in
  r.1.1 ≠ Some ErrAlreadyConnected
  ∧ expectedDisconnectVal r.1.2 = 0%Z
  ∧ responseWaiters r.1.2 = responseWaiters c
  ∧ (∃ rest, r.2 = EvFrameConnect (NewFrameSocket E (world c)).1 :: rest)
  ∧ match r.1.1 with
    | None => ∃ ns, socket r.1.2 = Some ns ∧ EvGo (GoKeepAliveLoop ns) ∈ r.2
    | Some _ => socket r.1.2 = socket c
    end.
Proof.
  unfold connectNew, doHandshake, resetExpectedDisconnect, bind, modify, call, call_, emit, get, ret.
  cbn.
  destruct (NewFrameSocket E (world c)) as [fs w1]; cbn.
  destruct (frameSocket_Connect E fs w1) as [[e|] w2]; cbn.
  { repeat split; eauto. }
  destruct (NewKeyPair E w2) as [kp w3]; cbn.
  destruct (noiseHandshake E fs kp w3) as [[e|ns] w4]; cbn.
  { repeat split; eauto. }
  repeat split; eauto. exists ns. split; [done|]. set_solver.
Qed.

Lemma unlockedDisconnect_run c sock :
  socket c = Some sock →
  unlockedDisconnect E c
  = (tt, set_responseWaiters ∅ (set_socket None
           (set_world (socket_Stop E sock true (world c)) c)),
     EvSocketStop sock true :: end_of_stream_deliveries c).
Proof.
  intros Hs.
  unfold unlockedDisconnect, clearResponseWaiters, bind, get, emit, call_, modify; cbn.
  rewrite Hs. by cbn.
Qed.

(** Claim C7. [Connect] returns [ErrAlreadyConnected] exactly when a socket
    handle exists and reports itself connected. When a handle exists but is
    not connected, [Connect] first disconnects (it stops that socket, drops
    the handle and delivers the end-of-stream stanza to the waiters, which
    it clears), then resets the expected-disconnect flag and opens a new
    frame socket: on success the client holds the new socket, on failure it
    holds none and the error is not [ErrAlreadyConnected]. *)
Theorem Connect_guard c :
  let r := Connect E c in
  (r.1.1 = Some ErrAlreadyConnected
   ↔ ∃ sock, socket c = Some sock ∧ socket_IsConnected E sock (world c) = true)
  ∧ (∀ sock, socket c = Some sock → socket_IsConnected E sock (world c) = false →
     (∃ fs rest,
        r.2 = EvSocketStop sock true :: end_of_stream_deliveries c
              ++ EvFrameConnect fs :: rest)
     ∧ expectedDisconnectVal r.1.2 = 0%Z
     ∧ responseWaiters r.1.2 = ∅
     ∧ match r.1.1 with
       | None => ∃ ns, socket r.1.2 = Some ns ∧ EvGo (GoKeepAliveLoop ns) ∈ r.2
       | Some e => socket r.1.2 = None ∧ e ≠ ErrAlreadyConnected
       end).
Proof.
  cbn zeta. split.
  - unfold Connect. rewrite bind_run. cbn.
    destruct (socket c) as [sock|] eqn:Hs; cbn.
    + destruct (socket_IsConnected E sock (world c)) eqn:Hc; cbn.
      * split; [intros _; by exists sock|done].
      * rewrite bind_run. cbn. split.
        -- intros Hr. exfalso. revert Hr. apply connectNew_outcome.
        -- intros (s & [= <-] & Hs'). congruence.
    + split.
      * intros Hr. exfalso. revert Hr. apply connectNew_outcome.
      * by intros (s & ? & _).
  - intros sock Hs Hc.
    assert (Connect E c = ((connectNew E (unlockedDisconnect E c).1.2).1,
                           (unlockedDisconnect E c).2 ++ (connectNew E (unlockedDisconnect E c).1.2).2))
      as ->.
    { unfold Connect. rewrite bind_run. unfold get. cbn [fst snd].
      rewrite Hs, Hc. cbn [negb]. by rewrite bind_run. }
    rewrite (unlockedDisconnect_run c sock Hs). cbn [fst snd].
    destruct (connectNew_outcome (set_responseWaiters ∅ (set_socket None
                     (set_world (socket_Stop E sock true (world c)) c))))
      as (Hne & Hexp & Hw & (rest & Hfs) & Hout).
    split; [|split; [done|split; [done|]]].
    + eexists _, rest. rewrite Hfs. reflexivity.
    + destruct (connectNew E _).1.1 as [e|].
      * split; [done|]. by intros ->.
      * destruct Hout as (ns & Hns & Hin). exists ns. split; [done|].
        apply elem_of_app. by right.
Qed.

End Connect.

(** Claim C7 on a client with a dead socket and one waiter. *)
Lemma Connect_guard_witness :
  let r := Connect Bench.env Bench.stale_client in
  (∃ fs rest,
     r.2 = EvSocketStop 5 true :: EvWaiterDeliver "req-1" 9 xmlStreamEndNode
           :: EvFrameConnect fs :: rest)
  ∧ expectedDisconnectVal r.1.2 = 0%Z
  ∧ responseWaiters r.1.2 = ∅
  ∧ r.1.1 ≠ Some ErrAlreadyConnected.
Proof.
  cbn zeta.
  destruct (Connect_guard Bench.env Bench.stale_client) as [Hiff Hstale].
  destruct (Hstale 5%positive eq_refl eq_refl) as ((fs & rest & Htrace) & Hexp & Hw & _).
  split; [|split; [exact Hexp|split; [exact Hw|]]].
  - exists fs, rest. rewrite Htrace. reflexivity.
  - intros Hr. apply Hiff in Hr as (sock & Hs & Hc).
    injection Hs as <-. vm_compute in Hc. discriminate.
Defined.

(** ** Retry receipts for incoming messages *)

Lemma to_byte_mod (z : Z) : to_byte z = (z mod 256)%Z.
Proof.
  unfold to_byte. change 255%Z with (Z.ones 8).
  rewrite Z.land_ones by lia. reflexivity.
Qed.

Lemma PutUint32_big_endian (v : Z) :
  (0 ≤ v < 2 ^ 32)%Z →
  length (PutUint32 v) = 4%nat
  ∧ Forall (λ b, 0 ≤ b < 256)%Z (PutUint32 v)
  ∧ be_value (PutUint32 v) = v.
Proof.
  intros Hv. unfold PutUint32, be_value. cbn [foldl length].
  rewrite !to_byte_mod, !Z.shiftr_div_pow2 by lia.
  change (2 ^ 24)%Z with 16777216%Z. change (2 ^ 16)%Z with 65536%Z.
  change (2 ^ 8)%Z with 256%Z. change (2 ^ 32)%Z with 4294967296%Z in Hv.
  split; [done|]. split.
  - repeat constructor; apply Z.mod_pos_bound; lia.
  - Z.to_euclidean_division_equations. lia.
Qed.

Section SendRetryReceipt.
Context {W Bundle AccountT : Type} (E : @Collaborators W Bundle AccountT).
Implicit Types (c : @Client W AccountT).

Local Arguments wrap_int : simpl never.
Local Arguments PutUint32 : simpl never.
Local Arguments attr_index : simpl never.
Local Arguments copy_attr : simpl never.
Local Arguments GetChildren : simpl never.
Local Arguments ag_OptionalInt : simpl never.
Local Arguments sendNode : simpl never.

Lemma sendNode_run (p : Node) c :
  ∃ r w tl, sendNode E p c = (r, set_world w c, EvSendNode p :: tl)
            ∧ sent_nodes tl = [] ∧ logged LError tl = [].
Proof.
  unfold sendNode, sendNodeAndGetData, bind, emit, get, call, ret; cbn.
  destruct (socket c) as [sock|]; cbn.
  - destruct (waBinary_Marshal E p) as [e|payload]; cbn.
    + exists (Some (Errorf "failed to marshal node: %w" (Some (ErrExternal e)))), (world c), [].
      by destruct c.
    + destruct (socket_SendFrame E sock payload (world c)) as [e w]; cbn. eauto 10.
  - exists (Some ErrNotConnected), (world c), []. by destruct c.
Qed.

Lemma sent_nodes_app (t1 t2 : list Event) :
  sent_nodes (t1 ++ t2) = sent_nodes t1 ++ sent_nodes t2.
Proof. apply omap_app. Qed.

Lemma logged_app lvl (t1 t2 : list Event) :
  logged lvl (t1 ++ t2) = logged lvl t1 ++ logged lvl t2.
Proof. apply omap_app. Qed.

Local Ltac send_step :=
  match goal with
  | |- context [sendNode E ?p ?c'] =>
      let r := fresh "r" in
      let Hs := fresh "Hs" in
      let Hl := fresh "Hl" in
      destruct (sendNode_run p c') as (r & ? & ? & -> & Hs & Hl);
      destruct r; cbn;
      rewrite ?sent_nodes_app, ?logged_app, ?Hs, ?Hl; cbn
  end.

Lemma sendRetryReceipt_run node info force c :
  let r := sendRetryReceipt E node info force c in
  let id := stanza_id node in
  let rc := updated_count (default 0%Z (messageRetries c !! id)) (count_in_msg (parseInt E) node) in
  messageRetries r.1.2 = <[id := rc]> (messageRetries c)
  ∧ Account r.1.2 = Account c
  ∧ sent_nodes r.2 = (retry_receipt_outcome E node force c).1
  ∧ ∃ tail, logged LError r.2 = (retry_receipt_outcome E node force c).2 ++ tail.
Proof.
  cbn zeta. unfold retry_receipt_outcome, updated_count, sendRetryReceipt.
  cbv zeta.
  change (match attr_index (Attrs node) "id" with VString s => s | _ => "" end)
    with (stanza_id node).
  change (match GetChildren node with
          | [child] => if decide (Tag child = "enc")
                       then (ag_OptionalInt (parseInt E) "count" (AttrGetter child)).1
                       else 0%Z
          | _ => 0%Z
          end) with (count_in_msg (parseInt E) node).
  unfold bind, emit, get, modify, call, ret, log; cbn.
  remember (stanza_id node) as id eqn:Hid.
  remember (count_in_msg (parseInt E) node) as inMsg eqn:HinMsg.
  remember (wrap_int (default 0%Z (messageRetries c !! id) + 1)) as n eqn:Hn.
  destruct (bool_decide (n = 1%Z) && (0 <? inMsg)%Z) eqn:Hadopt; cbn;
    match goal with |- context [(5 <=? ?x)%Z] => generalize x; intros rc end;
    (destruct (5 <=? rc)%Z; cbn;
     [rewrite ?insert_insert_eq; repeat split; by exists []|]);
    destruct (bool_decide (rc = 1%Z)); cbn;
    destruct ((1 <? rc)%Z || force); cbn;
    try (destruct (GenOnePreKey E (world c)) as [[e|key] w]; cbn;
         [|destruct (proto_Marshal_Account E (Account c)) as [e|di]; cbn]);
    try send_step;
    rewrite ?insert_insert_eq; subst id;
    (split; [reflexivity|split; [reflexivity|split; [reflexivity|]]]);
    eexists; cbn; reflexivity.
Qed.

(** Claim C10. When the updated count is below the ceiling and a keys block
    is due (count above 1, or identity inclusion forced), the two failures
    differ: if [GenOnePreKey] fails the error is logged and the receipt is
    sent with its [retry] and [registration] children only; if the prekey
    was generated but the account blob does not marshal, the error is
    logged and no receipt is sent. *)
Theorem retry_receipt_failure_modes node info force c :
  let t := (sendRetryReceipt E node info force c).2 in
  let id := stanza_id node in
  let rc := updated_count (default 0%Z (messageRetries c !! id)) (count_in_msg (parseInt E) node) in
  (rc < 5)%Z → (1 < rc)%Z ∨ force = true →
  (∀ e, (GenOnePreKey E (world c)).1 = inl e →
     sent_nodes t
     = [mkNode "receipt" (receipt_attrs node)
          (CNodes [retry_child rc id (attr_index (Attrs node) "t");
                   registration_child (RegistrationID c)])]
     ∧ "Failed to get prekey for retry receipt: %v" ∈ logged LError t)
  ∧ (∀ key e, (GenOnePreKey E (world c)).1 = inr key →
     proto_Marshal_Account E (Account c) = inl e →
     sent_nodes t = []
     ∧ "Failed to marshal account info: %v" ∈ logged LError t).
Proof.
  cbn zeta. intros Hlt Hneed.
  destruct (sendRetryReceipt_run node info force c) as (_ & _ & Hsent & tail & Hlog).
  rewrite Hsent, Hlog. unfold retry_receipt_outcome.
  rewrite (proj2 (Z.leb_gt _ _)) by done.
  assert (((1 <? updated_count (default 0%Z (messageRetries c !! stanza_id node))
                   (count_in_msg (parseInt E) node))%Z || force) = true) as ->.
  { destruct Hneed as [H| ->]; [|by rewrite orb_true_r].
    by rewrite (proj2 (Z.ltb_lt _ _)). }
  split.
  - intros e ->. split; [done|]. set_solver.
  - intros key e -> ->. split; [done|]. set_solver.
Qed.

Lemma receipt_attrs_type node : receipt_attrs node !! "type" = Some (VString "retry").
Proof.
  unfold receipt_attrs, copy_attr.
  destruct (Attrs node !! "recipient"); destruct (Attrs node !! "participant");
    by simplify_map_eq.
Qed.

(** Claim C4, as the code has it. A stanza sent by [sendRetryReceipt] is
    the only one of the call; it has tag [receipt] and type [retry]; its
    children are, in order, the [retry] child with the updated count, the
    message id and the original timestamp, the [registration] child with
    the registration id as 4 big-endian bytes, and then a [keys] child
    exactly when a keys block is due and the prekey was generated; that
    child holds [type], [identity], the fresh prekey, the signed prekey and
    [device-identity], in this order. *)
Theorem retry_receipt_shape node info force c p :
  let t := (sendRetryReceipt E node info force c).2 in
  let id := stanza_id node in
  let rc := updated_count (default 0%Z (messageRetries c !! id)) (count_in_msg (parseInt E) node) in
  let needed := (1 < rc)%Z ∨ force = true in
  p ∈ sent_nodes t →
  sent_nodes t = [p]
  ∧ Tag p = "receipt"
  ∧ Attrs p !! "type" = Some (VString "retry")
  ∧ (∃ keys,
       GetChildren p
       = retry_child rc id (attr_index (Attrs node) "t")
         :: registration_child (RegistrationID c) :: keys
       ∧ ((keys = []
           ∧ ¬ (needed ∧ ∃ key, (GenOnePreKey E (world c)).1 = inr key))
          ∨ (∃ key di,
               needed
               ∧ (GenOnePreKey E (world c)).1 = inr key
               ∧ proto_Marshal_Account E (Account c) = inr di
               ∧ keys = [keys_child (IdentityKeyPub c) (preKeyToNode E key)
                           (preKeyToNode E (SignedPreKey c)) di])))
  ∧ length (PutUint32 (RegistrationID c)) = 4%nat
  ∧ ((0 ≤ RegistrationID c < 2 ^ 32)%Z →
     be_value (PutUint32 (RegistrationID c)) = RegistrationID c).
Proof.
  cbn zeta.
  destruct (sendRetryReceipt_run node info force c) as (_ & _ & -> & _).
  unfold retry_receipt_outcome.
  set (rc := updated_count _ _).
  intros Hp.
  assert (∀ v, (0 ≤ v < 2 ^ 32)%Z → be_value (PutUint32 v) = v) as Hbe
    by (intros v Hv; by apply PutUint32_big_endian).
  destruct (5 <=? rc)%Z; [by apply elem_of_nil in Hp|].
  destruct (1 <? rc)%Z eqn:Hrc; cbn [orb] in *.
  - apply Z.ltb_lt in Hrc.
    destruct (GenOnePreKey E (world c)).1 as [e|key] eqn:Hgen; cbn in *.
    + apply list_elem_of_singleton in Hp as ->.
      repeat split; [apply receipt_attrs_type| |auto].
      eexists. split; [reflexivity|]. left. split; [done|].
      by intros (_ & key & ?).
    + destruct (proto_Marshal_Account E (Account c)) as [e|di] eqn:Hm; cbn in *;
        [by apply elem_of_nil in Hp|].
      apply list_elem_of_singleton in Hp as ->.
      repeat split; [apply receipt_attrs_type| |auto].
      eexists. split; [reflexivity|]. right. exists key, di. auto.
  - apply Z.ltb_ge in Hrc. destruct force; cbn in *.
    + destruct (GenOnePreKey E (world c)).1 as [e|key] eqn:Hgen; cbn in *.
      * apply list_elem_of_singleton in Hp as ->.
        repeat split; [apply receipt_attrs_type| |auto].
        eexists. split; [reflexivity|]. left. split; [done|].
        by intros (_ & key & ?).
      * destruct (proto_Marshal_Account E (Account c)) as [e|di] eqn:Hm; cbn in *;
          [by apply elem_of_nil in Hp|].
        apply list_elem_of_singleton in Hp as ->.
        repeat split; [apply receipt_attrs_type| |auto].
        eexists. split; [reflexivity|]. right. exists key, di. auto.
    + apply list_elem_of_singleton in Hp as ->.
      repeat split; [apply receipt_attrs_type| |auto].
      eexists. split; [reflexivity|]. left. split; [done|].
      intros ([?|?] & _); [lia|done].
Qed.

Lemma wrap_int_small (z : Z) : (- 2 ^ 63 ≤ z < 2 ^ 63)%Z → wrap_int z = z.
Proof. intros H. unfold wrap_int. rewrite Z.mod_small; lia. Qed.

Lemma count_in_msg_no_count parse node : no_count_attr node → count_in_msg parse node = 0%Z.
Proof.
  intros Hno. unfold count_in_msg.
  destruct (GetChildren node) as [|child [|]] eqn:Hch; try done.
  case_decide; [|done].
  unfold ag_OptionalInt, GetInt64, GetString, AttrGetter; cbn.
  by rewrite (Hno child Hch).
Qed.

Lemma updated_count_plain (j : Z) :
  (0 ≤ j < 2 ^ 63 - 1)%Z → updated_count j 0 = (j + 1)%Z.
Proof.
  intros Hj. unfold updated_count. rewrite andb_false_r. apply wrap_int_small; lia.
Qed.

Lemma sendRetryReceipts_ceiling id calls c (j : Z) :
  default 0%Z (messageRetries c !! id) = j → (0 ≤ j)%Z →
  (j + Z.of_nat (length calls) < 2 ^ 63)%Z →
  Forall (λ x, stanza_id x.1.1 = id ∧ no_count_attr x.1.1) calls →
  (∃ di, proto_Marshal_Account E (Account c) = inr di) →
  ∀ (k : nat) t, sendRetryReceipts E calls c !! k = Some t →
    ((j + Z.of_nat k < 4)%Z → ∃ p, sent_nodes t = [p] ∧ Tag p = "receipt")
    ∧ ((4 ≤ j + Z.of_nat k)%Z → sent_nodes t = []).
Proof.
  revert c j. induction calls as [|x calls IH]; intros c j Hj Hj0 Hlen Hall Hacct k t Hk;
    [done|].
  apply Forall_cons in Hall as [[Hid Hno] Hall].
  destruct (sendRetryReceipt_run x.1.1 x.1.2 x.2 c) as (Hstore & Hacc & Hsent & _).
  unfold retry_receipt_outcome in Hsent. cbv zeta in Hsent.
  rewrite Hid, Hj, (count_in_msg_no_count _ _ Hno) in Hstore, Hsent.
  cbn [length] in Hlen.
  rewrite updated_count_plain in Hstore, Hsent by lia.
  cbn [sendRetryReceipts] in Hk. cbv zeta in Hk. rewrite lookup_cons in Hk.
  destruct k as [|k].
  - injection Hk as <-. rewrite Hsent. rewrite Z.add_0_r. split.
    + intros Hlt. rewrite (proj2 (Z.leb_gt _ _)) by lia.
      destruct Hacct as [di Hdi]. rewrite Hdi.
      destruct ((1 <? j + 1)%Z || x.2); [destruct (GenOnePreKey E (world c)).1|]; eauto.
    + intros Hge. by rewrite (proj2 (Z.leb_le _ _)) by lia.
  - destruct (IH (sendRetryReceipt E x.1.1 x.1.2 x.2 c).1.2 (j + 1)%Z) with (k := k) (t := t)
      as [Hlow Hhigh]; try done.
    + by rewrite Hstore, lookup_insert_eq.
    + lia.
    + lia.
    + by rewrite Hacc.
    + split; intros; [apply Hlow|apply Hhigh]; lia.
Qed.

(** Claim C5, as the code has it. For calls for one message id whose [enc]
    child carries no [count], starting with no counter for that id, with
    fewer than 2^63 calls and an account blob that marshals: each of the
    first four calls hands exactly one [receipt] stanza to [sendNode], and
    the fifth and every later call none. *)
Theorem retry_receipt_ceiling id calls c :
  messageRetries c !! id = None →
  Forall (λ x, stanza_id x.1.1 = id ∧ no_count_attr x.1.1) calls →
  (Z.of_nat (length calls) < 2 ^ 63)%Z →
  (∃ di, proto_Marshal_Account E (Account c) = inr di) →
  ∀ (k : nat) t, sendRetryReceipts E calls c !! k = Some t →
    ((k < 4)%nat → ∃ p, sent_nodes t = [p] ∧ Tag p = "receipt")
    ∧ ((4 ≤ k)%nat → sent_nodes t = []).
Proof.
  intros Hnone Hall Hlen Hacct k t Hk.
  destruct (sendRetryReceipts_ceiling id calls c 0) with (k := k) (t := t) as [Hlow Hhigh];
    try done.
  - by rewrite Hnone.
  - split; intros; [apply Hlow|apply Hhigh]; lia.
Qed.

End SendRetryReceipt.




(** Claim C10 on a store without prekeys and on an account that does not
    marshal. *)
Lemma retry_receipt_failure_modes_witness :
  sent_nodes (sendRetryReceipt Bench.env Bench.incoming Bench.info0 false Bench.no_prekeys).2
  = [mkNode "receipt" (receipt_attrs Bench.incoming)
       (CNodes [retry_child 2 "M1" (VString "1700000000");
                registration_child 305419896])]
  ∧ sent_nodes (sendRetryReceipt Bench.env Bench.incoming Bench.info0 false
                  (set_messageRetries {[ "M1" := 1%Z ]} Bench.bad_account)).2 = [].
Proof.
  split.
  - pose proof (retry_receipt_failure_modes Bench.env Bench.incoming Bench.info0 false Bench.no_prekeys) as H.
    cbn zeta in H.
    specialize (H ltac:(vm_compute; reflexivity) ltac:(left; vm_compute; reflexivity)).
    destruct H as [Hgen _].
    destruct (Hgen "no prekeys left" eq_refl) as [Hsent _]. exact Hsent.
  - pose proof (retry_receipt_failure_modes Bench.env Bench.incoming Bench.info0 false
                  (set_messageRetries {[ "M1" := 1%Z ]} Bench.bad_account)) as H.
    cbn zeta in H.
    specialize (H ltac:(vm_compute; reflexivity) ltac:(left; vm_compute; reflexivity)).
    destruct H as [_ Hmarshal].
    destruct (Hmarshal (mkPreKey 2 [7%Z] None) "bad account" eq_refl eq_refl) as [Hsent _].
    exact Hsent.
Defined.

(** Claim C4 as stated fails when no prekey can be generated: the updated
    count is 2, yet the receipt has no [keys] child. *)
Lemma retry_receipt_without_keys :
  updated_count (default 0%Z (messageRetries Bench.no_prekeys !! stanza_id Bench.incoming))
    (count_in_msg Bench.parseDecimal Bench.incoming) = 2%Z
  ∧ ∃ p, sent_nodes (sendRetryReceipt Bench.env Bench.incoming Bench.info0 false Bench.no_prekeys).2 = [p]
         ∧ GetChildren p = [retry_child 2 "M1" (VString "1700000000");
                            registration_child 305419896]
         ∧ GetOptionalChildByTag p "keys" = None.
Proof.
  split; [vm_compute; reflexivity|].
  eexists. split; [vm_compute; reflexivity|]. split; vm_compute; reflexivity.
Qed.

(** Claim C4 on the second retry receipt for a message. *)
Lemma retry_receipt_shape_witness :
  ∃ p keys,
    sent_nodes (sendRetryReceipt Bench.env Bench.incoming Bench.info0 false Bench.second_retry).2 = [p]
    ∧ Tag p = "receipt"
    ∧ GetChildren p = retry_child 2 "M1" (VString "1700000000")
                      :: registration_child 305419896 :: keys
    ∧ be_value (PutUint32 305419896) = 305419896%Z.
Proof.
  set (t := (sendRetryReceipt Bench.env Bench.incoming Bench.info0 false Bench.second_retry).2).
  set (p := default xmlStreamEndNode (head (sent_nodes t))).
  destruct (retry_receipt_shape Bench.env Bench.incoming Bench.info0 false Bench.second_retry p)
    as (Hsent & Htag & _ & (keys & Hch & _) & _ & Hbe).
  { vm_compute. constructor. }
  exists p, keys.
  split; [exact Hsent|]. split; [exact Htag|]. split; [exact Hch|].
  apply Hbe. vm_compute. split; [discriminate|reflexivity].
Defined.

(** Claim C5 as stated fails when the account blob does not marshal: the
    second call for the id sends nothing. *)
Lemma retry_receipt_dropped_on_marshal_failure :
  ∃ p, sent_nodes <$> sendRetryReceipts Bench.env
            [(Bench.incoming, Bench.info0, false); (Bench.incoming, Bench.info0, false)] Bench.bad_account
       = [[p]; []].
Proof. eexists. vm_compute. reflexivity. Qed.

(** Claim C5 on six calls for one message: the fourth sends, the fifth
    does not. *)
Lemma retry_receipt_ceiling_witness :
  ∃ t3 t4,
    sendRetryReceipts Bench.env (replicate 6 (Bench.incoming, Bench.info0, false)) Bench.client0 !! 3%nat
    = Some t3
    ∧ sendRetryReceipts Bench.env (replicate 6 (Bench.incoming, Bench.info0, false)) Bench.client0 !! 4%nat
      = Some t4
    ∧ (∃ p, sent_nodes t3 = [p] ∧ Tag p = "receipt")
    ∧ sent_nodes t4 = [].
Proof.
  pose proof (retry_receipt_ceiling Bench.env "M1"
                (replicate 6 (Bench.incoming, Bench.info0, false)) Bench.client0) as H.
  assert (no_count_attr Bench.incoming) as Hno by (intros child [= <-]; reflexivity).
  specialize (H eq_refl).
  specialize (H ltac:(repeat constructor; exact Hno)).
  specialize (H ltac:(vm_compute; reflexivity)).
  specialize (H ltac:(eexists; reflexivity)).
  eexists _, _. split; [reflexivity|]. split; [reflexivity|]. split.
  - apply (H 3%nat _ eq_refl). lia.
  - apply (H 4%nat _ eq_refl). lia.
Defined.

(** ** Retry receipts for outgoing messages *)

Section RetryFrame.
Context {W Bundle AccountT : Type} (E : @Collaborators W Bundle AccountT).
Implicit Types (c : @Client W AccountT).

Lemma retry_frame_refl c : retry_frame c c.
Proof. by repeat split. Qed.

Lemma retry_frame_trans c1 c2 c3 : retry_frame c1 c2 → retry_frame c2 c3 → retry_frame c1 c3.
Proof.
  intros (?&?&?&?&?&?&?) (?&?&?&?&?&?&?).
  repeat split; try congruence. by etrans.
Qed.

Lemma retry_frame_world c w : retry_frame c (set_world w c).
Proof. by repeat split. Qed.


Lemma prekey_fetches_app (t1 t2 : list Event) :
  prekey_fetches (t1 ++ t2) = prekey_fetches t1 ++ prekey_fetches t2.
Proof. apply omap_app. Qed.

Lemma getMessageForRetry_run receipt id c :
  let r := getMessageForRetry receipt id c in
  let c' := r.1.2 in
  retry_frame c c'
  ∧ incomingRetryRequestCounter c' = incomingRetryRequestCounter c
  ∧ sent_nodes r.2 = [] ∧ prekey_fetches r.2 = []
  ∧ match r.1.1 with
    | inr a => (a ∉ dom (heap c)) ∧ is_Some (heap c' !! a)
    | inl _ => True
    end
  ∧ (recoverable c receipt id → ∃ a, r.1.1 = inr a).
Proof.
  cbn zeta. unfold getMessageForRetry, recoverable, proto_Clone, alloc.
  unfold bind, get, call, log, emit, ret; cbn.
  pose proof (is_fresh (dom (heap c))) as Hfresh.
  destruct (getRecentMessage (Chat receipt) id c) as [p|] eqn:Hcache; cbn.
  - repeat split; eauto.
    + apply insert_subseteq. by apply not_elem_of_dom.
    + by rewrite lookup_insert_eq.
  - destruct (GetMessageForRetry c (Sender receipt) (Chat receipt) id (world c))
      as [[m|] w] eqn:Hhook; cbn.
    + repeat split; eauto.
      * apply insert_subseteq. by apply not_elem_of_dom.
      * by rewrite lookup_insert_eq.
    + repeat split; try done.
      intros [[? [=]]|Hrec]. specialize (Hrec (world c)). rewrite Hhook in Hrec.
      by destruct Hrec.
Qed.

Local Arguments getMessageForRetry : simpl never.
Local Arguments wrap_int : simpl never.
Local Arguments GetOptionalChildByTag : simpl never.
Local Arguments ag_String : simpl never.
Local Arguments ag_UnixTime : simpl never.
Local Arguments ag_Int : simpl never.
Local Arguments ag_OK : simpl never.
Local Arguments deref : simpl never.
Local Arguments Z.leb : simpl never.
Local Arguments sent_nodes : simpl never.
Local Arguments prekey_fetches : simpl never.

Lemma retryPrepare_run receipt node c :
  let r := retryPrepare E receipt node c in
  let c' := r.1.2 in
  retry_frame c c'
  ∧ sent_nodes r.2 = [] ∧ prekey_fetches r.2 = []
  ∧ (∀ rq, r.1.1 = inr rq → rr_msg rq ∉ dom (heap c))
  ∧ (∀ id ts cnt,
       parse_retry (parseInt E) node = Some (id, ts, cnt) → recoverable c receipt id →
       let key := mkRetryKey (Sender receipt) id in
       let n := wrap_int (default 0%Z (incomingRetryRequestCounter c !! key) + 1) in
       incomingRetryRequestCounter c' = <[key := n]> (incomingRetryRequestCounter c)
       ∧ ((10 ≤ n)%Z → r.1.1 = inl None)
       ∧ ((n < 10)%Z → prepare_ready E c receipt →
          ∃ rq, r.1.1 = inr rq ∧ rr_retryCount rq = cnt ∧ rr_messageID rq = id)).
Proof.
  cbn zeta. unfold parse_retry.
  remember (retryPrepare E receipt node c) as r eqn:Hr. unfold retryPrepare in Hr.
  destruct (GetOptionalChildByTag node "retry") as [retryChild|] eqn:Hchild.
  2: { subst r. cbn. by repeat split. }
  cbv zeta in Hr |- *.
  destruct (ag_OK _) eqn:Hok; cbn [negb] in Hr.
  2: { subst r. cbn. by repeat split. }
  set (id := (ag_String "id" (AttrGetter retryChild)).1) in *.
  set (ts := (ag_UnixTime _ _ _).1) in *. set (cnt := (ag_Int _ _ _).1) in *.
  unfold bind at 1 in Hr.
  pose proof (getMessageForRetry_run receipt id c) as Hget.
  destruct (getMessageForRetry receipt id c) as [[found c1] t1].
  cbn in Hget. destruct Hget as (Hf & Hctr & Hs & Hp & Hfresh & Hrec).
  destruct found as [e|msg].
  { subst r. cbn. rewrite app_nil_r.
    split; [exact Hf|]. split; [exact Hs|]. split; [exact Hp|]. split; [done|].
    intros ? ? ? [= <- <- <-] Hr; by destruct (Hrec Hr). }
  destruct Hfresh as [Hfresh [m0 Hm0]].
  unfold bind, get, modify, log, emit, ret, call, alloc in Hr; cbn in Hr.
  rewrite Hctr in Hr.
  set (key := mkRetryKey (Sender receipt) id) in *.
  set (n := wrap_int (default 0%Z (incomingRetryRequestCounter c !! key) + 1)) in *.
  destruct Hf as (F1 & F2 & F3 & F4 & F5 & F6 & F7).
  assert (heap c !! msg = None) as Hmsg by by apply not_elem_of_dom.
  assert (heap c !! fresh (dom (heap c1)) = None) as Hnew.
  { eapply lookup_weaken_None; [|exact F7]. apply not_elem_of_dom, is_fresh. }
  assert (getOwnJID c1 = getOwnJID c) as Hown by (unfold getOwnJID; by rewrite F1).
  rewrite Hown in Hr.
  destruct (10 <=? n)%Z eqn:Hcap; cbn in Hr.
  { subst r. cbn. rewrite !sent_nodes_app, !prekey_fetches_app, Hs, Hp.
    split; [by repeat split|]. split; [done|]. split; [done|]. split; [done|].
    intros ? ? ? [= <- <- <-] Hrecov. split; [done|]. split; [done|].
    intros Hlt. apply Z.leb_le in Hcap. subst n key. lia. }
  apply Z.leb_gt in Hcap.
  destruct (JID_IsEmpty E (getOwnJID c)) eqn:Hempty; cbn in Hr.
  { subst r. cbn. rewrite !sent_nodes_app, !prekey_fetches_app, Hs, Hp.
    split; [by repeat split|]. split; [done|]. split; [done|]. split; [done|].
    intros ? ? ? [= <- <- <-] Hrecov. split; [done|]. split; [intros; subst n key; lia|].
    intros _ (Hready & _). congruence. }
  destruct (IsGroup receipt);
    [destruct (GroupSessionCreate E _ _ _) as [[e|ser] w]|destruct (IsFromMe receipt)];
    cbn in Hr; rewrite ?F3 in Hr;
    (destruct (PreRetryCallback c) as [cb|] eqn:Hcb; cbn in Hr;
     [match type of Hr with context [cb ?a ?b ?c ?d ?e] =>
        destruct (cb a b c d e) as [[] w'] eqn:Hcbres end|]);
    cbn in Hr;
    try match type of Hr with context [proto_Marshal E ?m] =>
        destruct (proto_Marshal E m) as [e'|pt] eqn:Hmarshal end;
    cbn in Hr; subst r; cbn;
    rewrite ?sent_nodes_app, ?prekey_fetches_app, ?Hs, ?Hp;
    (split; [unfold retry_frame; cbn; repeat split; try congruence; try assumption;
             by apply insert_subseteq_r|]);
    (split; [reflexivity|]); (split; [reflexivity|]);
    (split; [intros rq [= <-]; cbn; first [exact Hfresh|by apply not_elem_of_dom]|]);
    intros ? ? ? [= <- <- <-] Hrecov; (split; [reflexivity|]);
    (split; [intros; subst n key; lia|]);
    intros _ (Hready1 & Hready2 & Hready3);
    try (eexists; repeat split; reflexivity);
    try (specialize (Hready2 cb Hcb); match type of Hcbres with cb ?a ?b ?c ?d ?e = _ =>
           specialize (Hready2 b c d e); by rewrite Hcbres in Hready2 end);
    match type of Hmarshal with proto_Marshal E ?m = _ =>
      destruct (Hready3 m) as [b Hb]; congruence end.
Qed.



Lemma shouldRecreateSession_run retryCount jid c :
  let r := shouldRecreateSession E retryCount jid c in
  let c' := r.1.2 in
  let has := ContainsSession E (JID_SignalAddress E jid) (world c) in
  let now := (time_Now E (world c)).1 in
  (r.1.1.2 = true
   ↔ has = false
     ∨ ((1 < retryCount)%Z
        ∧ match sessionRecreateHistory c !! jid with
          | None => True
          | Some prev => (prev + recreateSessionTimeout < now)%Z
          end))
  ∧ (r.1.1.2 = true →
     sessionRecreateHistory c' = <[jid := recorded_time E jid c]> (sessionRecreateHistory c))
  ∧ (r.1.1.2 = false → sessionRecreateHistory c' = sessionRecreateHistory c)
  ∧ retry_frame c c'
  ∧ incomingRetryRequestCounter c' = incomingRetryRequestCounter c
  ∧ r.2 = [].
Proof.
  cbn zeta. unfold shouldRecreateSession, recorded_time.
  unfold bind, get, modify, call, ret; cbn.
  destruct (ContainsSession E (JID_SignalAddress E jid) (world c)) eqn:Hhas; cbn.
  - destruct (retryCount <? 2)%Z eqn:Hcount; cbn.
    + apply Z.ltb_lt in Hcount. repeat split; try done.
      intros [?|[? _]]; [done|lia].
    + apply Z.ltb_ge in Hcount.
      destruct (sessionRecreateHistory c !! jid) as [prev|] eqn:Hprev; cbn.
      * destruct (time_Now E (world c)) as [now w1] eqn:Hnow; cbn.
        unfold time_Before, time_Add.
        destruct (prev + recreateSessionTimeout <? now)%Z eqn:Hexp; cbn.
        -- apply Z.ltb_lt in Hexp.
           destruct (time_Now E w1) as [now2 w2]; cbn.
           repeat split; try done. intros _. right. split; [lia|done].
        -- apply Z.ltb_ge in Hexp. repeat split; try done.
           intros [?|[_ ?]]; [done|lia].
      * destruct (time_Now E (world c)) as [now w1] eqn:Hnow; cbn.
        repeat split; try done. intros _. right. split; [lia|done].
  - destruct (time_Now E (world c)) as [now w1] eqn:Hnow; cbn.
    repeat split; try done. intros _. by left.
Qed.

Local Arguments shouldRecreateSession : simpl never.
Local Arguments sendNode : simpl never.

Lemma retryBundle_run receipt node cnt c :
  let r := retryBundle E receipt node cnt c in
  let c' := r.1.2 in
  retry_frame c c'
  ∧ incomingRetryRequestCounter c' = incomingRetryRequestCounter c
  ∧ sent_nodes r.2 = []
  ∧ prekey_fetches r.2
    = match GetOptionalChildByTag node "keys" with
      | Some _ => []
      | None =>
          if (shouldRecreateSession E cnt (Sender receipt) c).1.1.2
          then [[Sender receipt]] else []
      end
  ∧ (bundle_ready E receipt node → ∃ b, r.1.1 = inr b).
Proof.
  cbn zeta. unfold bundle_ready.
  remember (retryBundle E receipt node cnt c) as r eqn:Hr. unfold retryBundle in Hr.
  destruct (GetOptionalChildByTag node "keys") as [keysChild|] eqn:Hkeys.
  - destruct (nodeToPreKeyBundle E _ node) as [e|b] eqn:Hparse; subst r; cbn.
    + repeat split; try done. intros [Hb _]. destruct Hb as [b Hb]; [by eexists|congruence].
    + repeat split; try done. eauto.
  - unfold bind at 1 in Hr.
    pose proof (shouldRecreateSession_run cnt (Sender receipt) c) as Hsr.
    destruct (shouldRecreateSession E cnt (Sender receipt) c) as [[[reason recreate] c1] t1].
    cbn in Hsr. destruct Hsr as (_ & _ & _ & Hf & Hctr & ->).
    destruct recreate; cbn in Hr.
    + unfold bind, log, emit, call, ret in Hr; cbn in Hr.
      assert (∀ w, retry_frame c (set_world w c1)) as Hf'
        by (intros w; eapply retry_frame_trans; [exact Hf|apply retry_frame_world]).
      destruct (fetchPreKeys E [Sender receipt] (world c1)) as [[e|keys] w] eqn:Hfetch;
        cbn in Hr.
      * subst r; cbn. split; [apply Hf'|].
        split; [done|]. split; [done|]. split; [done|].
        intros [_ Hb]. destruct (Hb (world c1)) as (? & ? & ? & ? & _). congruence.
      * destruct (err (default _ (keys !! Sender receipt))) eqn:Herr;
          [|destruct (bundle (default _ (keys !! Sender receipt))) eqn:Hbundle];
          cbn in Hr; subst r; cbn;
          (split; [apply Hf'|]); (split; [done|]); (split; [done|]); (split; [done|]);
          try (by eauto);
          intros [_ Hb]; destruct (Hb (world c1)) as (keys' & b' & w' & Hfetch' & Hlook);
          rewrite Hfetch in Hfetch'; injection Hfetch' as <- <-;
          rewrite Hlook in *; cbn in *; congruence.
    + subst r; cbn. split; [exact Hf|]. repeat split; try done. eauto.
Qed.

Lemma sendNode_no_fetch (p : Node) c : prekey_fetches (sendNode E p c).2 = [].
Proof.
  unfold sendNode, sendNodeAndGetData, bind, emit, get, call, ret; cbn.
  destruct (socket c) as [sock|]; cbn; [|done].
  destruct (waBinary_Marshal E p) as [e|payload]; cbn; [done|].
  by destruct (socket_SendFrame E sock payload (world c)) as [e w].
Qed.

Lemma retrySend_run receipt node rq bundle c :
  let r := retrySend E receipt node rq bundle c in
  let c' := r.1.2 in
  retry_frame c c'
  ∧ incomingRetryRequestCounter c' = incomingRetryRequestCounter c
  ∧ prekey_fetches r.2 = []
  ∧ (length (sent_nodes r.2) ≤ 1)%nat
  ∧ (encrypt_ready E receipt → ∃ p, sent_nodes r.2 = [p] ∧ Tag p = "message").
Proof.
  cbn zeta. unfold encrypt_ready.
  remember (retrySend E receipt node rq bundle c) as r eqn:Hr. unfold retrySend in Hr.
  unfold bind at 1 in Hr. unfold get at 1 in Hr. cbn [fst snd] in Hr.
  cbv zeta in Hr.
  unfold bind at 1 in Hr. unfold call at 1 in Hr.
  match type of Hr with context [encryptMessageForDevice E ?pt ?s ?b ?a ?w] =>
    destruct (encryptMessageForDevice E pt s b a w) as [[e|[enc inc]] w1] eqn:Henc end.
  - subst r; cbn. split; [apply retry_frame_world|].
    split; [done|]. split; [done|]. split; [unfold sent_nodes; cbn; lia|].
    intros Hready.
    match type of Henc with encryptMessageForDevice E ?pt ?s ?b ?a ?w = _ =>
      destruct (Hready pt b a w) as (? & ? & ? & ?) end. congruence.
  - cbn in Hr. unfold bind at 1 in Hr.
    match type of Hr with context [sendNode E ?p ?c1] =>
      pose proof (sendNode_no_fetch p c1) as Hnf;
      destruct (sendNode_run E p c1) as (res & w2 & tl & Hsend & Hs & _) end.
    rewrite Hsend in Hr, Hnf. unfold sent_nodes, prekey_fetches in *. cbn in Hnf.
    destruct res; cbn in Hr; subst r; cbn;
      rewrite ?omap_app, ?Hnf, ?Hs; cbn;
      (split; [by repeat split|]); (split; [done|]); (split; [done|]);
      (split; [lia|]); intros _; by eexists.
Qed.

Local Arguments retryPrepare : simpl never.
Local Arguments retryBundle : simpl never.
Local Arguments retrySend : simpl never.

Lemma handleRetryReceipt_run receipt node c :
  let r := handleRetryReceipt E receipt node c in
  let p := retryPrepare E receipt node c in
  let c' := r.1.2 in
  retry_frame c c'
  ∧ (length (sent_nodes r.2) ≤ 1)%nat
  ∧ prekey_fetches r.2
    = match p.1.1, GetOptionalChildByTag node "keys" with
      | inr rq, None =>
          if (shouldRecreateSession E (rr_retryCount rq) (Sender receipt) p.1.2).1.1.2
          then [[Sender receipt]] else []
      | _, _ => []
      end
  ∧ (∀ id ts cnt,
       parse_retry (parseInt E) node = Some (id, ts, cnt) → recoverable c receipt id →
       let key := mkRetryKey (Sender receipt) id in
       let n := wrap_int (default 0%Z (incomingRetryRequestCounter c !! key) + 1) in
       incomingRetryRequestCounter c' = <[key := n]> (incomingRetryRequestCounter c)
       ∧ ((10 ≤ n)%Z → r.1.1 = None ∧ sent_nodes r.2 = [])
       ∧ ((n < 10)%Z → prepare_ready E c receipt → bundle_ready E receipt node →
          encrypt_ready E receipt →
          ∃ p, sent_nodes r.2 = [p] ∧ Tag p = "message")).
Proof.
  cbn zeta. unfold handleRetryReceipt. rewrite bind_run.
  pose proof (retryPrepare_run receipt node c) as Hprep. cbn zeta in Hprep.
  destruct (retryPrepare E receipt node c) as [[prepared c1] t1].
  cbn [fst snd] in *. destruct Hprep as (Hf1 & Hs1 & Hp1 & _ & Hcount).
  destruct prepared as [res|rq].
  { cbn. rewrite app_nil_r, Hs1, Hp1.
    split; [done|]. split; [cbn; lia|]. split; [done|].
    intros id ts cnt Hparse Hrec. destruct (Hcount id ts cnt Hparse Hrec) as (Hc & Hcap & Hgo).
    split; [done|]. split.
    - intros Hge. by injection (Hcap Hge) as ->.
    - intros Hlt Hready _ _. destruct (Hgo Hlt Hready) as (rq & [=] & _). }
  rewrite bind_run.
  pose proof (retryBundle_run receipt node (rr_retryCount rq) c1) as Hb. cbn zeta in Hb.
  destruct (retryBundle E receipt node (rr_retryCount rq) c1) as [[bres c2] t2].
  cbn [fst snd] in *. destruct Hb as (Hf2 & Hc2 & Hs2 & Hp2 & Hbready).
  assert (retry_frame c c2) as Hf12 by by eapply retry_frame_trans.
  destruct bres as [e|b].
  { cbn. rewrite app_nil_r, sent_nodes_app, prekey_fetches_app, Hs1, Hp1, Hs2, Hp2.
    split; [done|]. split; [cbn; lia|]. split; [by destruct (GetOptionalChildByTag _ _)|].
    intros id ts cnt Hparse Hrec. destruct (Hcount id ts cnt Hparse Hrec) as (Hc & Hcap & Hgo).
    split; [by rewrite Hc2|]. split.
    - intros Hge. by specialize (Hcap Hge).
    - intros _ _ Hbr _. by destruct (Hbready Hbr). }
  pose proof (retrySend_run receipt node rq b c2) as Hsend. cbn zeta in Hsend.
  destruct (retrySend E receipt node rq b c2) as [[sres c3] t3].
  cbn [fst snd] in *. destruct Hsend as (Hf3 & Hc3 & Hp3 & Hlen & Hsent).
  rewrite !sent_nodes_app, !prekey_fetches_app, Hs1, Hp1, Hs2, Hp2, Hp3, app_nil_r.
  cbn [app].
  split; [by eapply retry_frame_trans|]. split; [done|].
  split; [by destruct (GetOptionalChildByTag _ _)|].
  intros id ts cnt Hparse Hrec. destruct (Hcount id ts cnt Hparse Hrec) as (Hc & Hcap & Hgo).
  split; [by rewrite Hc3, Hc2|]. split.
  - intros Hge. by specialize (Hcap Hge).
  - intros _ _ _ Henc. by apply Hsent.
Qed.

Lemma recoverable_frame c c' receipt id :
  retry_frame c c' → recoverable c receipt id → recoverable c' receipt id.
Proof.
  intros (_ & F2 & _ & F4 & _) Hrec. unfold recoverable, getRecentMessage in *.
  by rewrite F2, F4.
Qed.

Lemma prepare_ready_frame c c' receipt :
  retry_frame c c' → prepare_ready E c receipt → prepare_ready E c' receipt.
Proof.
  intros (F1 & _ & F3 & _) Hready. unfold prepare_ready, getOwnJID in *.
  by rewrite F1, F3.
Qed.

Lemma handleRetryReceipts_cap s id calls c (j : Z) :
  default 0%Z (incomingRetryRequestCounter c !! mkRetryKey s id) = j → (0 ≤ j)%Z →
  (j + Z.of_nat (length calls) < 2 ^ 63)%Z →
  Forall (λ x, Sender x.1 = s
               ∧ (∃ ts cnt, parse_retry (parseInt E) x.2 = Some (id, ts, cnt))
               ∧ recoverable c x.1 id) calls →
  ∀ (k : nat) x r, calls !! k = Some x → handleRetryReceipts E calls c !! k = Some r →
    ((j + Z.of_nat k < 9)%Z →
     prepare_ready E c x.1 → bundle_ready E x.1 x.2 → encrypt_ready E x.1 →
     ∃ p, sent_nodes r.2 = [p] ∧ Tag p = "message")
    ∧ ((9 ≤ j + Z.of_nat k)%Z → r.1 = None ∧ sent_nodes r.2 = []).
Proof.
  revert c j. induction calls as [|y calls IH]; intros c j Hj Hj0 Hlen Hall k x r Hx Hr;
    [done|].
  apply Forall_cons in Hall as [(Hs & (ts & cnt & Hparse) & Hrec) Hall].
  destruct (handleRetryReceipt_run y.1 y.2 c) as (Hf & _ & _ & Hcount).
  destruct (Hcount id ts cnt Hparse Hrec) as (Hctr & Hcap & Hgo).
  rewrite Hs, Hj in Hctr, Hcap, Hgo. cbn [length] in Hlen.
  rewrite wrap_int_small in Hctr, Hcap, Hgo by lia.
  cbn [handleRetryReceipts] in Hr. cbv zeta in Hr.
  rewrite lookup_cons in Hr. rewrite lookup_cons in Hx.
  destruct k as [|k].
  - injection Hr as <-. injection Hx as <-. rewrite Z.add_0_r. cbn [fst snd]. split.
    + intros Hlt Hp Hb He. apply Hgo; [lia|done..].
    + intros Hge. apply Hcap. lia.
  - destruct (IH (handleRetryReceipt E y.1 y.2 c).1.2 (j + 1)%Z) with (k := k) (x := x) (r := r)
      as [Hlow Hhigh]; try done.
    + by rewrite Hctr, lookup_insert_eq.
    + lia.
    + lia.
    + eapply Forall_impl; [exact Hall|]. intros z (? & ? & ?).
      split; [done|]. split; [done|]. by eapply recoverable_frame.
    + split.
      * intros Hlt Hp Hb He. apply Hlow; [lia| |done..]. by eapply prepare_ready_frame.
      * intros Hge. apply Hhigh. lia.
Qed.

(** Claim C1.  Take retry receipts from one sender for one message id,
    starting with no counter for the pair, the plaintext recoverable from
    the ring or from [GetMessageForRetry].  Each of the first nine calls
    of [handleRetryReceipt] hands exactly one stanza to [sendNode], with
    tag [message], provided the device is logged in, the hook does not
    veto, and marshalling, the bundle step and encryption succeed.  The
    tenth call and every later one hand nothing to [sendNode] and return
    no error: the counter is incremented first and the receipt is dropped
    as soon as it has reached ten.  The length bound is the range of the
    Go [int] counter. *)
Theorem retry_counter_cap s id calls c :
  incomingRetryRequestCounter c !! mkRetryKey s id = None →
  (Z.of_nat (length calls) < 2 ^ 63)%Z →
  Forall (λ x, Sender x.1 = s
               ∧ (∃ ts cnt, parse_retry (parseInt E) x.2 = Some (id, ts, cnt))
               ∧ recoverable c x.1 id) calls →
  ∀ (k : nat) x r, calls !! k = Some x → handleRetryReceipts E calls c !! k = Some r →
    ((k < 9)%nat →
     prepare_ready E c x.1 → bundle_ready E x.1 x.2 → encrypt_ready E x.1 →
     ∃ p, sent_nodes r.2 = [p] ∧ Tag p = "message")
    ∧ ((9 ≤ k)%nat → r.1 = None ∧ sent_nodes r.2 = []).
Proof.
  intros Hnone Hlen Hall k x r Hx Hr.
  destruct (handleRetryReceipts_cap s id calls c 0) with (k := k) (x := x) (r := r)
    as [Hlow Hhigh]; try done.
  - by rewrite Hnone.
  - split.
    + intros Hlt. apply Hlow. lia.
    + intros Hge. apply Hhigh. lia.
Qed.

(** Claim C3.  [shouldRecreateSession] answers [true] exactly when no
    Signal session exists for the address of the JID, or [retryCount > 1]
    and either no recreation is recorded for the JID or the recorded one
    is more than one hour before the current time.  When it answers
    [true] it records for the JID the time it read.  In
    [handleRetryReceipt], for a receipt without a [keys] child, prekeys
    are fetched (once, for the sender) exactly when the predicate answers
    [true] on the state left by the preparation steps; nothing is fetched
    when the preparation returns early. *)
Theorem session_recreate_policy retryCount jid receipt node c :
  let r := shouldRecreateSession E retryCount jid c in
  let has := ContainsSession E (JID_SignalAddress E jid) (world c) in
  let now := (time_Now E (world c)).1 in
  let p := retryPrepare E receipt node c in
  (r.1.1.2 = true
   ↔ has = false
     ∨ ((1 < retryCount)%Z
        ∧ match sessionRecreateHistory c !! jid with
          | None => True
          | Some prev => (prev + recreateSessionTimeout < now)%Z
          end))
  ∧ (r.1.1.2 = true →
     sessionRecreateHistory r.1.2 !! jid = Some (recorded_time E jid c))
  ∧ (∀ rq, p.1.1 = inr rq → GetOptionalChildByTag node "keys" = None →
     prekey_fetches (handleRetryReceipt E receipt node c).2
     = if (shouldRecreateSession E (rr_retryCount rq) (Sender receipt) p.1.2).1.1.2
       then [[Sender receipt]] else [])
  ∧ (∀ res, p.1.1 = inl res → prekey_fetches (handleRetryReceipt E receipt node c).2 = []).
Proof.
  cbn zeta.
  destruct (shouldRecreateSession_run retryCount jid c) as (Hiff & Hrec & _).
  destruct (handleRetryReceipt_run receipt node c) as (_ & _ & Hfetch & _).
  split; [exact Hiff|]. split.
  - intros Ht. rewrite (Hrec Ht). apply lookup_insert_eq.
  - split.
    + intros rq Hp Hkeys. by rewrite Hfetch, Hp, Hkeys.
    + intros res Hp. by rewrite Hfetch, Hp.
Qed.

(** Claim C9.  [handleRetryReceipt] leaves the recent-message map, the
    ring and its pointer as they were, and every message cell that
    existed before the call holds the same message after it.  The message
    it modifies and resends lives in a cell that did not exist before the
    call: [getMessageForRetry] returns a fresh cell, holding a copy of the
    cached message when the ring has one. *)
Theorem cached_plaintext_untouched receipt node c :
  let r := handleRetryReceipt E receipt node c in
  let c' := r.1.2 in
  recentMessagesMap c' = recentMessagesMap c
  ∧ recentMessagesList c' = recentMessagesList c
  ∧ recentMessagesPtr c' = recentMessagesPtr c
  ∧ (∀ a m, heap c !! a = Some m → heap c' !! a = Some m)
  ∧ (∀ rq, (retryPrepare E receipt node c).1.1 = inr rq → rr_msg rq ∉ dom (heap c))
  ∧ (∀ id a, (getMessageForRetry receipt id c).1.1 = inr a →
     (a ∉ dom (heap c))
     ∧ ∀ p, getRecentMessage (Chat receipt) id c = Some p →
            heap (getMessageForRetry receipt id c).1.2 !! a = Some (deref p c)).
Proof.
  cbn zeta.
  destruct (handleRetryReceipt_run receipt node c) as ((_ & _ & _ & F4 & F5 & F6 & F7) & _).
  destruct (retryPrepare_run receipt node c) as (_ & _ & _ & Hfresh & _).
  split; [done|]. split; [done|]. split; [done|]. split.
  - intros a m Ha. by eapply lookup_weaken.
  - split; [exact Hfresh|].
    intros id a Ha. split.
    + destruct (getMessageForRetry_run receipt id c) as (_ & _ & _ & _ & Hnew & _).
      rewrite Ha in Hnew. by destruct Hnew.
    + intros p Hp. revert Ha.
      unfold getMessageForRetry, proto_Clone, alloc, bind, get, log, emit, ret; cbn.
      rewrite Hp; cbn. intros [= <-]. apply lookup_insert_eq.
Qed.

End RetryFrame.

(** Claim C1, counterexample to the cap as stated: of ten receipts for the
    same pair the first nine each produce one stanza and the tenth
    produces none. *)
Lemma tenth_retry_dropped :
  (λ r, length (sent_nodes r.2)) <$>
    handleRetryReceipts Bench.env (replicate 10 (Bench.retry_receipt, Bench.retry_node)) Bench.retry_client
  = [1; 1; 1; 1; 1; 1; 1; 1; 1; 0]%nat.
Proof. vm_compute. reflexivity. Qed.

(** The side conditions of the retry engine hold for the concrete
    collaborators. *)
Lemma bench_prepare_ready : prepare_ready Bench.env Bench.retry_client Bench.retry_receipt.
Proof.
  split; [reflexivity|]. split; [intros cb [=]|]. intros m. eexists. reflexivity.
Qed.

Lemma bench_bundle_ready : bundle_ready Bench.env Bench.retry_receipt Bench.retry_node.
Proof.
  split; [intros _; eexists; reflexivity|].
  intros w. eexists _, _, _. split; reflexivity.
Qed.

Lemma bench_encrypt_ready : encrypt_ready Bench.env Bench.retry_receipt.
Proof. intros pt b attrs w. eexists _, _, _. reflexivity. Qed.

(** Claim C1 on eleven receipts for [M1] from bob: the ninth is answered
    with one [message] stanza, the eleventh with none and no error. *)
Lemma retry_counter_cap_witness :
  ∃ r8 r10,
    handleRetryReceipts Bench.env (replicate 11 (Bench.retry_receipt, Bench.retry_node)) Bench.retry_client
      !! 8%nat = Some r8
    ∧ handleRetryReceipts Bench.env (replicate 11 (Bench.retry_receipt, Bench.retry_node)) Bench.retry_client
        !! 10%nat = Some r10
    ∧ (∃ p, sent_nodes r8.2 = [p] ∧ Tag p = "message")
    ∧ r10.1 = None ∧ sent_nodes r10.2 = [].
Proof.
  pose proof (retry_counter_cap Bench.env Bench.bob "M1"
                (replicate 11 (Bench.retry_receipt, Bench.retry_node)) Bench.retry_client) as H.
  specialize (H eq_refl).
  specialize (H ltac:(vm_compute; reflexivity)).
  assert (Forall (λ x : Receipt * Node,
            Sender x.1 = Bench.bob
            ∧ (∃ ts cnt, parse_retry (parseInt Bench.env) x.2 = Some ("M1", ts, cnt))
            ∧ recoverable Bench.retry_client x.1 "M1")
            (replicate 11 (Bench.retry_receipt, Bench.retry_node))) as Hall.
  { apply Forall_replicate. split; [reflexivity|]. split.
    - eexists _, _. vm_compute. reflexivity.
    - left. exists 1%positive. vm_compute. reflexivity. }
  specialize (H Hall).
  assert (is_Some (handleRetryReceipts Bench.env (replicate 11 (Bench.retry_receipt, Bench.retry_node))
                     Bench.retry_client !! 8%nat)) as [r8 H8]
    by (apply (bool_decide_unpack _); vm_compute; exact I).
  assert (is_Some (handleRetryReceipts Bench.env (replicate 11 (Bench.retry_receipt, Bench.retry_node))
                     Bench.retry_client !! 10%nat)) as [r10 H10]
    by (apply (bool_decide_unpack _); vm_compute; exact I).
  exists r8, r10. split; [exact H8|]. split; [exact H10|].
  destruct (H 8%nat _ r8 eq_refl H8) as [Hlow _].
  destruct (H 10%nat _ r10 eq_refl H10) as [_ Hhigh].
  split.
  - apply Hlow; [lia|apply bench_prepare_ready|apply bench_bundle_ready
                 |apply bench_encrypt_ready].
  - apply Hhigh. lia.
Defined.

(** Claim C3, counterexample to the policy as stated: with a session, a
    count of two and no recorded recreation the answer is [true], although
    no recorded recreation is older than one hour. *)
Lemma recreate_without_history :
  (shouldRecreateSession Bench.env 2 Bench.bob Bench.retry_client).1.1.2 = true
  ∧ ¬ (ContainsSession Bench.env (JID_SignalAddress Bench.env Bench.bob) (world Bench.retry_client)
       = false
       ∨ ((1 < 2)%Z
          ∧ ∃ prev, sessionRecreateHistory Bench.retry_client !! Bench.bob = Some prev
                    ∧ (prev + recreateSessionTimeout
                       < (time_Now Bench.env (world Bench.retry_client)).1)%Z)).
Proof.
  split; [vm_compute; reflexivity|].
  intros [Hno|[_ (prev & Hprev & _)]].
  - vm_compute in Hno. discriminate.
  - vm_compute in Hprev. discriminate.
Qed.

(** Claim C3 on the scenarios of the policy: recreation 61 minutes ago
    gives [true] and records the clock, 59 minutes ago gives [false]; with
    a session and a count of one nothing is fetched, without a session
    one bundle is fetched for bob. *)
Lemma session_recreate_policy_witness :
  (shouldRecreateSession Bench.env 2 Bench.bob (Bench.recreated_ago 61)).1.1.2 = true
  ∧ (shouldRecreateSession Bench.env 2 Bench.bob (Bench.recreated_ago 59)).1.1.2 = false
  ∧ sessionRecreateHistory (shouldRecreateSession Bench.env 2 Bench.bob (Bench.recreated_ago 61)).1.2
      !! Bench.bob = Some 1%Z
  ∧ prekey_fetches (handleRetryReceipt Bench.env Bench.retry_receipt Bench.retry_node Bench.retry_client).2 = []
  ∧ prekey_fetches (handleRetryReceipt Bench.env Bench.retry_receipt Bench.retry_node Bench.no_session).2
    = [[Bench.bob]].
Proof.
  destruct (session_recreate_policy Bench.env 2 Bench.bob Bench.retry_receipt Bench.retry_node
              (Bench.recreated_ago 61)) as (Hiff61 & Hrec61 & _).
  destruct (session_recreate_policy Bench.env 2 Bench.bob Bench.retry_receipt Bench.retry_node
              (Bench.recreated_ago 59)) as (Hiff59 & _).
  destruct (session_recreate_policy Bench.env 2 Bench.bob Bench.retry_receipt Bench.retry_node
              Bench.retry_client) as (_ & _ & Hfetch & _).
  destruct (session_recreate_policy Bench.env 2 Bench.bob Bench.retry_receipt Bench.retry_node
              Bench.no_session) as (_ & _ & Hfetch' & _).
  assert ((shouldRecreateSession Bench.env 2 Bench.bob (Bench.recreated_ago 61)).1.1.2 = true)
    as H61.
  { apply Hiff61. right. split; [lia|]. vm_compute. reflexivity. }
  split; [exact H61|]. split; [|split; [|split]].
  - destruct (shouldRecreateSession Bench.env 2 Bench.bob (Bench.recreated_ago 59)).1.1.2 eqn:H59;
      [|reflexivity].
    destruct (proj1 Hiff59 eq_refl) as [Hno|[_ Hold]].
    + vm_compute in Hno. discriminate.
    + vm_compute in Hold. discriminate.
  - rewrite (Hrec61 H61). vm_compute. reflexivity.
  - assert ((retryPrepare Bench.env Bench.retry_receipt Bench.retry_node Bench.retry_client).1.1
            = inr (mkRetryRequest "M1" 1700000000000000000 1 2 [5%Z])) as Hp
      by (vm_compute; reflexivity).
    rewrite (Hfetch _ Hp eq_refl). vm_compute. reflexivity.
  - assert ((retryPrepare Bench.env Bench.retry_receipt Bench.retry_node Bench.no_session).1.1
            = inr (mkRetryRequest "M1" 1700000000000000000 1 2 [5%Z])) as Hp
      by (vm_compute; reflexivity).
    rewrite (Hfetch' _ Hp eq_refl). vm_compute. reflexivity.
Defined.

(** Claim C9 on a group receipt for [M1]: the cached cell still holds
    [hello], while the copy that was sent carries the sender-key
    distribution message. *)
Lemma cached_plaintext_untouched_witness :
  let r := handleRetryReceipt Bench.env Bench.group_receipt Bench.retry_node Bench.retry_client in
  recentMessagesMap r.1.2 = recentMessagesMap Bench.retry_client
  ∧ heap r.1.2 !! 1%positive = Some Bench.hello
  ∧ heap r.1.2 !! 2%positive
    = Some (mkMessage "hello" (Some ("bob@s.whatsapp.net", [1%Z; 2%Z])) None)
  ∧ length (sent_nodes r.2) = 1%nat.
Proof.
  cbn zeta.
  destruct (cached_plaintext_untouched Bench.env Bench.group_receipt Bench.retry_node Bench.retry_client)
    as (Hmap & _ & _ & Hheap & _).
  split; [exact Hmap|]. split; [apply Hheap; reflexivity|].
  split; vm_compute; reflexivity.
Defined.

(** ** The event-handler registry as a whole *)

Section Registry.
Context {W AccountT : Type}.
Implicit Types (c : @Client W AccountT) (hs : list (@wrappedEventHandler W)).

Lemma RemoveEventHandler_run id c :
  RemoveEventHandler id c
  = match list_find (λ h, handler_id h = id) (eventHandlers c) with
    | Some (i, _) =>
        (true, set_eventHandlers (take i (eventHandlers c) ++ drop (S i) (eventHandlers c)) c, [])
    | None => (false, c, [])
    end.
Proof.
  unfold RemoveEventHandler, bind, get; cbn.
  destruct (list_find _ _) as [[index h]|] eqn:Hfind; [|done].
  apply list_find_Some in Hfind as (Hl & _ & _).
  case_decide as H0; cbn.
  - subst index. by rewrite drop_clear_fn_0, take_0.
  - rewrite remove_at_index; [done|by eapply lookup_lt_Some|done].
Qed.

Lemma AddEventHandler_run (handler : WAEvent → W → bool * W) c :
  AddEventHandler handler c
  = (wrap_u32 (nextHandlerID c + 1),
     set_eventHandlers
       (eventHandlers c ++ [mkHandler (Some handler) (wrap_u32 (nextHandlerID c + 1))])
       (set_nextHandlerID (wrap_u32 (nextHandlerID c + 1)) c), []).
Proof. reflexivity. Qed.

Lemma registry_run_snoc (ops : list (RegistryOp W)) op c :
  registry_run (ops ++ [op]) c = registry_step op (registry_run ops c).
Proof. unfold registry_run. by rewrite foldl_app. Qed.

Lemma run_handlers_quiet hs evt (w : W) :
  Forall (λ h, ∃ f, handler_fn h = Some f ∧ never_panics f) hs →
  (run_handlers hs evt w).1 = false.
Proof.
  intros H. revert w. induction H as [|h hs (f & Hf & Hnp) _ IH]; intros w; [done|].
  cbn. rewrite Hf. rewrite (Hnp evt w). apply IH.
Qed.

Lemma registry_step_callable (P : (WAEvent → W → bool * W) → Prop) op c :
  Forall (λ h, ∃ f, handler_fn h = Some f ∧ P f) (eventHandlers c) →
  (∀ f, added_handler op = Some f → P f) →
  Forall (λ h, ∃ f, handler_fn h = Some f ∧ P f) (eventHandlers (registry_step op c)).
Proof.
  intros Hc Hop. destruct op as [handler|id|]; cbn [registry_step].
  - rewrite AddEventHandler_run. cbn. apply Forall_app. split; [done|].
    apply Forall_singleton. exists handler. split; [done|]. by apply Hop.
  - rewrite RemoveEventHandler_run.
    destruct (list_find _ _) as [[i h]|]; cbn; [|done].
    apply Forall_app. split; [by apply Forall_take|by apply Forall_drop].
  - cbn. constructor.
Qed.

(** The registry never holds a [nil] function. Start from handlers that
    are all callable and never panic, and apply any sequence of
    [AddEventHandler] (of functions that never panic),
    [RemoveEventHandler] and [RemoveEventHandlers]: every registered
    handler is callable again, and [dispatchEvent] runs them all and logs
    no panic. The slots that [RemoveEventHandler] sets to [nil] are never
    part of the list again. *)
Theorem registry_never_holds_nil (evt : WAEvent) (ops : list (RegistryOp W)) c :
  Forall (λ h, ∃ f, handler_fn h = Some f ∧ never_panics f) (eventHandlers c) →
  Forall (λ op, ∀ f, added_handler op = Some f → never_panics f) ops →
  let c' := registry_run ops c in
  Forall (λ h, is_Some (handler_fn h)) (eventHandlers c')
  ∧ logged LError (dispatchEvent evt c').2 = [].
Proof.
  intros Hc Hops. cbn zeta.
  assert (Forall (λ h, ∃ f, handler_fn h = Some f ∧ never_panics f)
            (eventHandlers (registry_run ops c))) as Hall.
  { induction ops as [|op ops IH] using rev_ind; [done|].
    apply Forall_app in Hops as [Hops Hop]. rewrite Forall_singleton in Hop.
    rewrite registry_run_snoc. apply registry_step_callable; [by apply IH|done]. }
  split.
  - eapply Forall_impl; [exact Hall|]. intros h (f & -> & _). by eexists.
  - unfold dispatchEvent, bind, emit, get, call, log, ret; cbn.
    pose proof (run_handlers_quiet _ evt (world (registry_run ops c)) Hall) as Hq.
    destruct (run_handlers _ _ _) as [p w'] eqn:Hr. cbn in Hq. subst p. done.
Qed.

Lemma StronglySorted_app_snoc (l : list Z) (x : Z) :
  StronglySorted Z.lt l → Forall (λ y, y < x)%Z l → StronglySorted Z.lt (l ++ [x]).
Proof.
  induction 1 as [|y l Hl IH Hy]; intros Hx; cbn.
  - repeat constructor.
  - apply Forall_cons in Hx as [Hyx Hx]. constructor; [by apply IH|].
    apply Forall_app. split; [done|]. by apply Forall_singleton.
Qed.

Lemma StronglySorted_delete (l : list Z) (i : nat) :
  StronglySorted Z.lt l → StronglySorted Z.lt (take i l ++ drop (S i) l).
Proof.
  intros H. revert i. induction H as [|y l Hl IH Hy]; intros i.
  - rewrite take_nil, drop_nil. constructor.
  - destruct i as [|i]; cbn.
    + by rewrite drop_0.
    + constructor; [apply IH|].
      apply Forall_app. split; [by apply Forall_take|by apply Forall_drop].
Qed.

Lemma StronglySorted_lt_NoDup (l : list Z) : StronglySorted Z.lt l → NoDup l.
Proof.
  induction 1 as [|y l Hl IH Hy]; constructor; [|done].
  intros Hin. rewrite Forall_forall in Hy. specialize (Hy y Hin). lia.
Qed.

Lemma registry_step_ids op c :
  ids_increasing c →
  (nextHandlerID c + (match added_handler op with Some _ => 1 | None => 0 end) < 2 ^ 32)%Z →
  ids_increasing (registry_step op c)
  ∧ nextHandlerID (registry_step op c)
    = (nextHandlerID c + (match added_handler op with Some _ => 1 | None => 0 end))%Z.
Proof.
  intros (H0 & Hle & Hs) Hb. destruct op as [handler|id|]; cbn [registry_step added_handler] in *.
  - rewrite AddEventHandler_run. cbn. rewrite wrap_u32_succ by lia.
    split; [|done]. unfold ids_increasing; cbn. split; [lia|]. split.
    + apply Forall_app. split.
      * eapply Forall_impl; [exact Hle|]. cbn. intros; lia.
      * apply Forall_singleton. cbn. lia.
    + rewrite fmap_app. cbn. apply StronglySorted_app_snoc; [done|].
      apply Forall_fmap. eapply Forall_impl; [exact Hle|]. cbn. intros; lia.
  - rewrite RemoveEventHandler_run.
    destruct (list_find _ _) as [[i h]|]; cbn; [|split; [done|lia]].
    split; [|lia]. unfold ids_increasing; cbn. split; [done|]. split.
    + apply Forall_app. split; [by apply Forall_take|by apply Forall_drop].
    + rewrite fmap_app, fmap_take, fmap_drop. by apply StronglySorted_delete.
  - cbn. split; [|lia]. unfold ids_increasing; cbn. split; [done|]. split; constructor.
Qed.

(** Ids name at most one handler. As long as the [uint32] counter does
    not wrap, any sequence of registry operations keeps the registered
    handlers in registration order with strictly increasing ids, none
    above the counter: no two registered handlers share an id, and the
    counter is never reset, not even by [RemoveEventHandlers]. *)
Theorem registry_ids_unique (ops : list (RegistryOp W)) c :
  ids_increasing c →
  (nextHandlerID c + Z.of_nat (length (omap added_handler ops)) < 2 ^ 32)%Z →
  let c' := registry_run ops c in
  ids_increasing c'
  ∧ NoDup (handler_id <$> eventHandlers c')
  ∧ nextHandlerID c' = (nextHandlerID c + Z.of_nat (length (omap added_handler ops)))%Z.
Proof.
  intros Hc Hb. cbn zeta.
  assert (ids_increasing (registry_run ops c)
          ∧ nextHandlerID (registry_run ops c)
            = (nextHandlerID c + Z.of_nat (length (omap added_handler ops)))%Z) as [Hi Hn].
  { induction ops as [|op ops IH] using rev_ind.
    - cbn. split; [done|lia].
    - rewrite omap_app, length_app in Hb |- *.
      assert (length (omap added_handler [op])
              = match added_handler op with Some _ => 1 | None => 0 end)%nat as Hone
        by (cbn; by destruct (added_handler op)).
      rewrite Hone in Hb |- *.
      destruct IH as [Hi Hn]; [lia|].
      rewrite registry_run_snoc.
      destruct (registry_step_ids op (registry_run ops c) Hi) as [Hi' Hn'].
      + rewrite Hn. destruct (added_handler op); lia.
      + split; [done|]. rewrite Hn', Hn.
        destruct (added_handler op); lia. }
  split; [done|]. split; [|done].
  destruct Hi as (_ & _ & Hs). by apply StronglySorted_lt_NoDup.
Qed.

(** Registering a handler and removing it by the id returned puts the
    list of handlers back as it was, provided no registered handler
    carries that id already. If one does (the counter has wrapped), the
    removal takes that older handler and the new one stays registered. *)
Theorem add_then_remove (handler : WAEvent → W → bool * W) c :
  let a := AddEventHandler handler c in
  let r := RemoveEventHandler a.1.1 a.1.2 in
  r.1.1 = true
  ∧ nextHandlerID r.1.2 = a.1.1
  ∧ ((∀ h, h ∈ eventHandlers c → handler_id h ≠ a.1.1) →
     eventHandlers r.1.2 = eventHandlers c)
  ∧ (∀ l1 h l2, eventHandlers c = l1 ++ h :: l2 → handler_id h = a.1.1 →
       (∀ x, x ∈ l1 → handler_id x ≠ a.1.1) →
       eventHandlers r.1.2 = l1 ++ l2 ++ [mkHandler (Some handler) a.1.1]).
Proof.
  cbn zeta. rewrite AddEventHandler_run. cbn [fst snd].
  set (nid := wrap_u32 (nextHandlerID c + 1)).
  set (new := mkHandler (Some handler) nid).
  rewrite RemoveEventHandler_run. cbn [eventHandlers set_eventHandlers].
  destruct (list_find (λ h, handler_id h = nid) (eventHandlers c)) as [[i h]|] eqn:Hold.
  - rewrite (list_find_app_l _ _ _ _ _ Hold). cbn.
    split; [done|]. split; [done|].
    apply list_find_Some in Hold as (Hi & Hid & Hfirst).
    split.
    + intros Hno. destruct (Hno h); [by eapply list_elem_of_lookup_2|done].
    + intros l1 h' l2 Heq Hid' Hl1.
      assert (i = length l1) as ->.
      { destruct (Nat.lt_total i (length l1)) as [Hlt|[?|Hgt]]; [|done|].
        - rewrite Heq, lookup_app_l in Hi by done.
          destruct (Hl1 h); [by eapply list_elem_of_lookup_2|done].
        - destruct (Hfirst (length l1) h'); [|done..].
          rewrite Heq. by rewrite list_lookup_middle. }
      rewrite Heq.
      rewrite take_app_le by (rewrite length_app; lia).
      rewrite take_app_length.
      rewrite <- app_assoc. cbn [app].
      rewrite drop_app_ge by lia.
      replace (S (length l1) - length l1)%nat with 1%nat by lia. done.
  - rewrite list_find_app_r by done. cbn.
    rewrite decide_True by done. cbn.
    split; [done|]. split; [done|].
    rewrite take_app_length.
    rewrite drop_ge by (rewrite length_app; cbn; lia).
    rewrite app_nil_r.
    split; [done|].
    intros l1 h l2 Heq Hid _.
    apply list_find_None in Hold. rewrite Forall_forall in Hold.
    destruct (Hold h); [|done]. rewrite Heq. set_solver.
Qed.

Lemma run_handlers_app hs1 hs2 evt (w : W) :
  run_handlers (hs1 ++ hs2) evt w
  = if (run_handlers hs1 evt w).1 then run_handlers hs1 evt w
    else run_handlers hs2 evt (run_handlers hs1 evt w).2.
Proof.
  revert w. induction hs1 as [|h hs1 IH]; intros w; [done|].
  cbn. destruct (handler_fn h) as [f|]; [|done].
  destruct (f evt w).1 eqn:Hp; cbn; rewrite ?Hp; [done|]. apply IH.
Qed.

(** [dispatchEvent] calls the handlers in registration order, each on the
    world the previous one left, and changes nothing of the client but
    the world. A panic ends the loop: the handlers registered after the
    panicking one do not see the event, and one error is logged. *)
Theorem dispatchEvent_stops_at_panic evt c hs1 hs2 :
  eventHandlers c = hs1 ++ hs2 →
  let r := dispatchEvent evt c in
  let first := run_handlers hs1 evt (world c) in
  (first.1 = true →
   r = (tt, set_world first.2 c,
        [EvDispatch evt; EvLog LError "Event handler panicked while handling a %T: %v\n%s"]))
  ∧ (first.1 = false →
     let rest := run_handlers hs2 evt first.2 in
     r.1.2 = set_world rest.2 c
     ∧ logged LError r.2
       = if rest.1 then ["Event handler panicked while handling a %T: %v\n%s"] else []).
Proof.
  intros Hhs. cbn zeta.
  unfold dispatchEvent, bind, emit, get, call, log, ret; cbn.
  rewrite Hhs, run_handlers_app.
  destruct (run_handlers hs1 evt (world c)) as [p1 w1] eqn:H1. cbn.
  destruct p1; cbn.
  - split; [done|]. intros [=].
  - split; [intros [=]|]. intros _.
    destruct (run_handlers hs2 evt w1) as [p2 w2] eqn:H2. cbn.
    by destruct p2.
Qed.

End Registry.

(** ** Sending, disconnecting and connecting *)

Section Transport.
Context {W Bundle AccountT : Type} (E : @Collaborators W Bundle AccountT).
Implicit Types (c : @Client W AccountT).

(** A stanza reaches the socket exactly when the client holds a socket
    and the stanza marshals: then one frame with the marshalled payload is
    written to that socket, and the payload is returned together with
    whatever error the socket reports. Without a socket the result is
    [ErrNotConnected] and nothing is marshalled or written. Only the
    world of the collaborators changes, and [sendNode] returns the same
    error. *)
Theorem sendNode_contract node c :
  let r := sendNodeAndGetData E node c in
  (∃ w, r.1.2 = set_world w c)
  ∧ (socket c = None → r = ((None, Some ErrNotConnected), c, []))
  ∧ (frames r.2 ≠ [] ↔ ∃ sock payload, socket c = Some sock ∧ waBinary_Marshal E node = inr payload)
  ∧ (∀ sock payload, socket c = Some sock → waBinary_Marshal E node = inr payload →
     frames r.2 = [(sock, payload)]
     ∧ r.1.1.1 = Some payload
     ∧ r.1.1.2 = ErrExternal <$> (socket_SendFrame E sock payload (world c)).1)
  ∧ (∀ sock e, socket c = Some sock → waBinary_Marshal E node = inl e →
     r = ((None, Some (Errorf "failed to marshal node: %w" (Some (ErrExternal e)))), c, []))
  ∧ (sendNode E node c).1.1 = r.1.1.2
  ∧ (sendNode E node c).1.2 = r.1.2
  ∧ frames (sendNode E node c).2 = frames r.2.
Proof.
  cbn zeta. unfold sendNode. rewrite bind_run. cbn [emit fst snd].
  rewrite bind_run. cbn [ret fst snd app].
  unfold sendNodeAndGetData, bind, get, emit, call, ret; cbn.
  destruct (socket c) as [sock|] eqn:Hs; cbn.
  - destruct (waBinary_Marshal E node) as [e|payload] eqn:Hm; cbn.
    + split. { exists (world c). destruct c. reflexivity. } split; [done|]. split.
      { split; [done|]. by intros (? & ? & _ & [=]). }
      split; [intros ? ? _ [=]|]. split; [by intros ? ? _ [= ->]|]. done.
    + destruct (socket_SendFrame E sock payload (world c)) as [e w'] eqn:Hf; cbn.
      split; [by eexists|]. split; [done|]. split.
      { split; [by eauto|done]. }
      split; [intros ? ? [= <-] [= <-]; by rewrite Hf|]. split; [intros ? ? _ [=]|]. done.
  - split; [exists (world c); destruct c; reflexivity|]. split; [done|]. split.
    { split; [done|]. by intros (? & ? & [=] & _). }
    split; [intros ? ? [=]|]. split; [intros ? ? [=]|]. done.
Qed.

Lemma end_of_stream_empty c :
  responseWaiters c = ∅ → end_of_stream_deliveries c = [].
Proof. intros H. unfold end_of_stream_deliveries. by rewrite H, map_to_list_empty. Qed.

(** [Disconnect] does nothing on a client without a socket. Otherwise it
    stops the socket by force, drops the handle and hands the end-of-stream
    stanza to every pending waiter before forgetting them; it does not
    touch the expected-disconnect flag or the event handlers. Afterwards
    the client is not connected, a second [Disconnect] does nothing, and
    every [sendNode] fails with [ErrNotConnected] without writing a
    frame. *)
Theorem Disconnect_then_idle c :
  let r := Disconnect E c in
  let c' := r.1.2 in
  (socket c = None → r = (tt, c, []))
  ∧ (∀ sock, socket c = Some sock →
     r.2 = EvSocketStop sock true :: end_of_stream_deliveries c
     ∧ responseWaiters c' = ∅)
  ∧ socket c' = None
  ∧ expectedDisconnectVal c' = expectedDisconnectVal c
  ∧ eventHandlers c' = eventHandlers c
  ∧ IsConnected E c' = false
  ∧ Disconnect E c' = (tt, c', [])
  ∧ (∀ node, sendNode E node c' = (Some ErrNotConnected, c', [EvSendNode node])).
Proof.
  cbn zeta.
  assert (∀ c0 : @Client W AccountT, socket c0 = None →
            Disconnect E c0 = (tt, c0, [])
            ∧ IsConnected E c0 = false
            ∧ ∀ node, sendNode E node c0 = (Some ErrNotConnected, c0, [EvSendNode node]))
    as Hidle.
  { intros c0 H0. unfold Disconnect, IsConnected, sendNode, sendNodeAndGetData,
      bind, get, emit, ret; cbn. by rewrite H0. }
  destruct (socket c) as [sock|] eqn:Hs.
  - assert (Disconnect E c = unlockedDisconnect E c) as ->.
    { unfold Disconnect. rewrite bind_run. cbn [get fst snd]. rewrite Hs. cbn [app].
      by destruct (unlockedDisconnect E c) as [[[] ?] ?]. }
    rewrite (unlockedDisconnect_run E c sock Hs). cbn [fst snd].
    split; [done|]. split; [by intros ? [= <-]|]. split; [done|].
    split; [done|]. split; [done|].
    destruct (Hidle (set_responseWaiters ∅ (set_socket None
                (set_world (socket_Stop E sock true (world c)) c))))
      as (H1 & H2 & H3); done.
  - destruct (Hidle c Hs) as (H1 & H2 & H3). rewrite H1. cbn [fst snd].
    split; [done|]. split; [done|]. done.
Qed.

Lemma frame_opens_app (t1 t2 : list Event) :
  frame_opens (t1 ++ t2) = frame_opens t1 ++ frame_opens t2.
Proof. apply omap_app. Qed.

Lemma connectNew_cleanup c :
  let r := connectNew E c in
  let fs := (NewFrameSocket E (world c)).1 in
  frame_opens r.2 = [fs]
  ∧ socket_stops r.2 = []
  ∧ (∀ e, r.1.1 = Some e →
     frame_closes r.2 = [fs] ∧ goroutines r.2 = [] ∧ socket r.1.2 = socket c
     ∧ e ≠ ErrAlreadyConnected)
  ∧ (r.1.1 = None →
     frame_closes r.2 = []
     ∧ ∃ ns, socket r.1.2 = Some ns
             ∧ goroutines r.2 = [GoKeepAliveLoop ns; GoHandlerQueueLoop ns]).
Proof.
  cbn zeta.
  unfold connectNew, resetExpectedDisconnect, doHandshake, bind, modify, call, call_, emit,
    get, ret; cbn.
  destruct (NewFrameSocket E (world c)) as [fs w1] eqn:Hfs; cbn.
  destruct (frameSocket_Connect E fs w1) as [[e|] w2] eqn:Hc; cbn.
  - split; [done|]. split; [done|]. split; [|intros [=]]. by intros ? [= <-].
  - destruct (NewKeyPair E w2) as [kp w3] eqn:Hk; cbn.
    destruct (noiseHandshake E fs kp w3) as [[e|ns] w4] eqn:Hh; cbn.
    + split; [done|]. split; [done|]. split; [|intros [=]]. by intros ? [= <-].
    + split; [done|]. split; [done|]. split; [intros ? [=]|].
      intros _. split; [done|]. by exists ns.
Qed.

Lemma deliveries_inert c :
  frame_opens (end_of_stream_deliveries c) = []
  ∧ frame_closes (end_of_stream_deliveries c) = []
  ∧ goroutines (end_of_stream_deliveries c) = [].
Proof.
  unfold end_of_stream_deliveries.
  induction (map_to_list (responseWaiters c)) as [|x l IH]; [done|]. exact IH.
Qed.

Local Arguments connectNew : simpl never.

(** A connection attempt on a client that is not connected opens exactly
    one frame socket. If the attempt fails, on [Connect] of the frame
    socket or in the handshake, that frame socket is closed once, no
    goroutine is started and the client is left without a socket. If it
    succeeds nothing is closed, and the keep-alive loop and the handler
    queue loop are started, in this order, on the socket the client then
    holds. A stale socket is stopped first, exactly once. *)
Theorem Connect_cleans_up c :
  IsConnected E c = false →
  let r := Connect E c in
  ∃ fs,
    frame_opens r.2 = [fs]
    ∧ socket_stops r.2 = (match socket c with Some sock => [(sock, true)] | None => [] end)
    ∧ (∀ e, r.1.1 = Some e →
       frame_closes r.2 = [fs] ∧ goroutines r.2 = [] ∧ socket r.1.2 = None)
    ∧ (r.1.1 = None →
       frame_closes r.2 = []
       ∧ ∃ ns, socket r.1.2 = Some ns
               ∧ goroutines r.2 = [GoKeepAliveLoop ns; GoHandlerQueueLoop ns]).
Proof.
  unfold IsConnected. intros Hdead. cbn zeta. unfold Connect. rewrite bind_run.
  cbn [get fst snd app].
  destruct (socket c) as [sock|] eqn:Hs.
  - rewrite Hdead. cbn [negb]. rewrite bind_run.
    rewrite (unlockedDisconnect_run E c sock Hs). cbn [fst snd].
    set (c1 := set_responseWaiters _ _).
    destruct (connectNew_cleanup c1) as (Ho & Hst & Herr & Hok).
    destruct (deliveries_inert c) as (Hd1 & Hd2 & Hd3).
    exists (NewFrameSocket E (world c1)).1.
    assert (socket_stops (end_of_stream_deliveries c) = []) as Hd4.
    { unfold end_of_stream_deliveries.
      induction (map_to_list (responseWaiters c)) as [|x l IH]; [done|]. exact IH. }
    change ((EvSocketStop sock true :: end_of_stream_deliveries c) ++ (connectNew E c1).2)
      with ([EvSocketStop sock true] ++ end_of_stream_deliveries c ++ (connectNew E c1).2).
    unfold frame_opens, frame_closes, goroutines, socket_stops in *.
    rewrite !omap_app, Hd1, Hd2, Hd3, Hd4, Ho, Hst. cbn [app].
    split; [done|]. split; [done|]. split.
    + intros e He. destruct (Herr e He) as (? & ? & ? & _). done.
    + done.
  - destruct (connectNew_cleanup c) as (Ho & Hst & Herr & Hok).
    exists (NewFrameSocket E (world c)).1.
    split; [done|]. split; [done|]. split; [|done].
    intros e He. destruct (Herr e He) as (? & ? & Hsock & _). by rewrite Hsock.
Qed.

End Transport.

(** ** Positions and lookups in the recent-message ring *)

Section RingLookup.
Context {W AccountT : Type}.
Implicit Types (c : @Client W AccountT).

Lemma mod_succ_256 (n : nat) :
  (S n mod 256 = if decide (256 ≤ S (n mod 256)) then 0 else S (n mod 256))%nat.
Proof.
  pose proof (Nat.div_mod_eq n 256) as Hn.
  pose proof (Nat.mod_upper_bound n 256 ltac:(lia)) as Hr.
  case_decide as Hd; symmetry.
  - apply (Nat.mod_unique _ _ (S (n / 256))); lia.
  - apply (Nat.mod_unique _ _ (n / 256)); lia.
Qed.

Lemma mod_256_apart (j n : nat) :
  (j < n)%nat → (n < j + 256)%nat → (j mod 256 ≠ n mod 256)%nat.
Proof.
  intros Hlt Hgt Heq.
  pose proof (Nat.div_mod_eq n 256). pose proof (Nat.div_mod_eq j 256). lia.
Qed.

Lemma mod_256_same (n : nat) : (256 ≤ n)%nat → ((n - 256) mod 256 = n mod 256)%nat.
Proof.
  intros Hn. pose proof (Nat.div_mod_eq n 256) as Hd.
  pose proof (Nat.mod_upper_bound n 256 ltac:(lia)) as Hr.
  symmetry. apply (Nat.mod_unique _ _ (n / 256 - 1)); [done|].
  assert (1 ≤ n / 256)%nat by (destruct (n / 256)%nat; lia). lia.
Qed.

Lemma ring_slots_NewClient jid regID idk spk (acct : AccountT) h ctr (w : W) :
  ring_slots [] (NewClient jid regID idk spk acct h ctr w).
Proof.
  constructor; cbn [NewClient recentMessagesList recentMessagesPtr length].
  - apply length_replicate.
  - done.
  - intros j x [=].
  - intros i Hi. apply lookup_replicate_2. lia.
Qed.

Lemma ring_slots_step calls c x :
  ring_slots calls c →
  ∃ c', addRecentMessage x.1.1 x.1.2 x.2 c = Some c'
        ∧ ring_slots (calls ++ [x]) c'
        ∧ recentMessagesMap c'
          = <[call_key x := x.2]>
              (match recentMessagesList c !! recentMessagesPtr c with
               | Some old => if decide (ID old ≠ "")
                             then delete old (recentMessagesMap c)
                             else recentMessagesMap c
               | None => recentMessagesMap c
               end).
Proof.
  intros [Hlen Hptr Hwr Hbl]. unfold recentMessagesSize in *.
  pose proof (Nat.mod_upper_bound (length calls) 256 ltac:(lia)) as Hr.
  destruct (lookup_lt_is_Some_2 (recentMessagesList c) (recentMessagesPtr c)) as [old Hold];
    [lia|].
  unfold addRecentMessage. rewrite Hold. cbn [mbind option_bind].
  eexists. split; [reflexivity|]. split; [|reflexivity].
  constructor; cbn [recentMessagesList recentMessagesPtr set_recentMessagesPtr
                      set_recentMessagesList set_recentMessagesMap];
    unfold recentMessagesSize; rewrite ?length_insert, ?length_app; cbn [length].
  - done.
  - rewrite Nat.add_1_r, mod_succ_256, Hptr, Hlen. done.
  - intros j y Hj Hge. destruct (decide (j = length calls)) as [->|Hne].
    + rewrite list_lookup_middle in Hj by done. injection Hj as <-.
      rewrite <- Hptr. apply list_lookup_insert_eq. lia.
    + assert (j < length calls)%nat as Hlt.
      { apply lookup_lt_Some in Hj. rewrite length_app in Hj. cbn in Hj. lia. }
      rewrite lookup_app_l in Hj by done.
      rewrite list_lookup_insert_ne; [apply Hwr; [done|lia]|].
      rewrite Hptr. intros Heq. symmetry in Heq. revert Heq.
      apply mod_256_apart; lia.
  - intros i Hi. rewrite list_lookup_insert_ne; [apply Hbl; lia|].
    rewrite Hptr. rewrite Nat.mod_small; lia.
Qed.

Lemma ring_slots_run calls c0 :
  ring_slots [] c0 → ∃ c, addRecentMessages calls c0 = Some c ∧ ring_slots calls c.
Proof.
  intros H0. induction calls as [|x calls IH] using rev_ind; [by exists c0|].
  destruct IH as (c & Hrun & Hinv).
  destruct (ring_slots_step calls c x Hinv) as (c' & Hadd & Hinv' & _).
  exists c'. by rewrite addRecentMessages_snoc, Hrun.
Qed.

(** The ring never overflows. Whatever is added to a fresh client, with
    repeated or empty ids too, [addRecentMessage] never indexes the ring
    out of range: after [n] additions the ring still has 256 slots, the
    pointer is [n mod 256], each of the last 256 additions sits in the
    slot of its number modulo 256, and the slots not yet written hold the
    zero key. *)
Theorem recent_ring_positions jid regID idk spk (acct : AccountT) h ctr (w : W)
    (calls : list (JID * MessageID * option positive)) :
  ∃ c, addRecentMessages calls (NewClient jid regID idk spk acct h ctr w) = Some c
     ∧ length (recentMessagesList c) = 256%nat
     ∧ recentMessagesPtr c = (length calls mod 256)%nat
     ∧ (∀ j x, calls !! j = Some x → (length calls ≤ j + 256)%nat →
        recentMessagesList c !! (j mod 256)%nat = Some (call_key x))
     ∧ (∀ i, (length calls ≤ i < 256)%nat → recentMessagesList c !! i = Some zeroKey).
Proof.
  destruct (ring_slots_run calls _ (ring_slots_NewClient jid regID idk spk acct h ctr w))
    as (c & Hrun & [Hlen Hptr Hwr Hbl]).
  exists c. done.
Qed.

Lemma ring_map_run calls c0 :
  ring_slots [] c0 → recentMessagesMap c0 = ∅ →
  NoDup (call_key <$> calls) → Forall occupied (call_key <$> calls) →
  ∃ c, addRecentMessages calls c0 = Some c
     ∧ ring_slots calls c
     ∧ (∀ j x, calls !! j = Some x →
        recentMessagesMap c !! call_key x
        = if decide (length calls ≤ j + 256)%nat then Some x.2 else None)
     ∧ (∀ k, k ∉ call_key <$> calls → recentMessagesMap c !! k = None).
Proof.
  intros H0 Hempty. induction calls as [|x calls IH] using rev_ind; intros Hnd Hocc.
  { exists c0. split; [done|]. split; [done|]. split; [intros ? ? [=]|].
    intros k _. by rewrite Hempty. }
  rewrite fmap_app in Hnd, Hocc. cbn [fmap list_fmap] in Hnd, Hocc.
  apply NoDup_app in Hnd as (Hnd & Hfresh & _).
  apply Forall_app in Hocc as (Hocc & Hx). rewrite Forall_singleton in Hx.
  destruct (IH Hnd Hocc) as (c & Hrun & Hinv & Hmap & Hnone).
  destruct (ring_slots_step calls c x Hinv) as (c' & Hadd & Hinv' & Hm').
  exists c'. split; [by rewrite addRecentMessages_snoc, Hrun|]. split; [done|].
  (* which key the new entry pushes out *)
  assert (recentMessagesMap c'
          = <[call_key x := x.2]>
              (match calls !! (length calls - 256)%nat with
               | Some y => if decide (256 ≤ length calls)%nat
                           then delete (call_key y) (recentMessagesMap c)
                           else recentMessagesMap c
               | None => recentMessagesMap c
               end)) as Hm.
  { rewrite Hm'. f_equal. destruct Hinv as [Hlen Hptr Hwr Hbl].
    unfold recentMessagesSize in *. rewrite Hptr.
    destruct (decide (256 ≤ length calls)%nat) as [Hfull|Hpart].
    - destruct (lookup_lt_is_Some_2 calls (length calls - 256)) as [y Hy]; [lia|].
      rewrite Hy. rewrite <- mod_256_same by done.
      rewrite (Hwr _ _ Hy) by lia.
      rewrite decide_True; [done|].
      rewrite Forall_forall in Hocc. apply Hocc.
      apply list_elem_of_fmap. exists y. split; [done|]. by eapply list_elem_of_lookup_2.
    - rewrite Nat.mod_small by lia. rewrite Hbl by lia.
      rewrite decide_False by (intros H; by apply H).
      by destruct (calls !! _). }
  rewrite length_app. cbn [length].
  assert (∀ j y, calls !! j = Some y → call_key y ≠ call_key x) as Hother.
  { intros j y Hj Heq. apply (Hfresh (call_key x)); [|set_solver].
    rewrite <- Heq. apply list_elem_of_fmap. exists y. split; [done|].
    by eapply list_elem_of_lookup_2. }
  split.
  - intros j y Hj. destruct (decide (j = length calls)) as [->|Hne].
    + rewrite list_lookup_middle in Hj by done. injection Hj as <-.
      rewrite Hm, lookup_insert_eq. rewrite decide_True by lia. done.
    + assert (j < length calls)%nat as Hlt.
      { apply lookup_lt_Some in Hj. rewrite length_app in Hj. cbn in Hj. lia. }
      rewrite lookup_app_l in Hj by done.
      rewrite Hm, lookup_insert_ne by (symmetry; by eapply Hother).
      destruct (decide (256 ≤ length calls)%nat) as [Hfull|Hpart].
      * destruct (lookup_lt_is_Some_2 calls (length calls - 256)) as [z Hz]; [lia|].
        rewrite Hz. destruct (decide (j = length calls - 256)%nat) as [->|Hj'].
        -- assert (z = y) as -> by congruence.
           rewrite lookup_delete_eq. rewrite decide_False by lia. done.
        -- rewrite lookup_delete_ne.
           ++ rewrite (Hmap _ _ Hj). repeat case_decide; done || lia.
           ++ intros Heq. apply Hj'.
              eapply (NoDup_lookup (call_key <$> calls)); [done| |].
              ** rewrite list_lookup_fmap, Hj. cbn. reflexivity.
              ** rewrite list_lookup_fmap, Hz. cbn. by rewrite Heq.
      * assert (match calls !! (length calls - 256)%nat with
                | Some _ | None => recentMessagesMap c end = recentMessagesMap c) as ->
          by (by destruct (calls !! _)).
        rewrite (Hmap _ _ Hj). repeat case_decide; done || lia.
  - intros k Hk. rewrite fmap_app in Hk. cbn [fmap list_fmap] in Hk.
    rewrite Hm, lookup_insert_ne by set_solver.
    assert (recentMessagesMap c !! k = None) as Hc by (apply Hnone; set_solver).
    destruct (calls !! _); [|done]. case_decide; [|done].
    destruct (decide (call_key p = k)) as [->|?];
      [apply lookup_delete_eq|by rewrite lookup_delete_ne].
Qed.

(** What can be recovered for a retry. After additions with pairwise
    distinct keys and non-empty ids to a fresh client, [getRecentMessage]
    returns the message stored with a key exactly for the 256 keys added
    last; for a key added earlier, and for a key never added, it returns
    [nil]. *)
Theorem recent_messages_lookup jid regID idk spk (acct : AccountT) h ctr (w : W)
    (calls : list (JID * MessageID * option positive)) :
  NoDup (call_key <$> calls) →
  Forall occupied (call_key <$> calls) →
  ∃ c, addRecentMessages calls (NewClient jid regID idk spk acct h ctr w) = Some c
     ∧ (∀ j x, calls !! j = Some x →
        getRecentMessage x.1.1 x.1.2 c
        = if decide (length calls ≤ j + 256)%nat then x.2 else None)
     ∧ (∀ to id, mkRecentKey to id ∉ call_key <$> calls → getRecentMessage to id c = None).
Proof.
  intros Hnd Hocc.
  destruct (ring_map_run calls _ (ring_slots_NewClient jid regID idk spk acct h ctr w)
              eq_refl Hnd Hocc) as (c & Hrun & _ & Hmap & Hnone).
  exists c. split; [done|]. split.
  - intros j x Hj. unfold getRecentMessage.
    change (mkRecentKey x.1.1 x.1.2) with (call_key x).
    rewrite (Hmap _ _ Hj). by case_decide.
  - intros to id Hk. unfold getRecentMessage. by rewrite (Hnone _ Hk).
Qed.

End RingLookup.

(** ** Refusals, addressing and footprint of a retry *)

Section RetryEdges.
Context {W Bundle AccountT : Type} (E : @Collaborators W Bundle AccountT).
Implicit Types (c : @Client W AccountT).

Lemma counts_only_fields c c' :
  counts_only c c' →
  sessionRecreateHistory c' = sessionRecreateHistory c
  ∧ messageRetries c' = messageRetries c
  ∧ socket c' = socket c
  ∧ StoreJID c' = StoreJID c
  ∧ PreRetryCallback c' = PreRetryCallback c
  ∧ eventHandlers c' = eventHandlers c.
Proof. intros ->. by destruct c. Qed.

Lemma counts_only_trans c1 c2 c3 : counts_only c1 c2 → counts_only c2 c3 → counts_only c1 c3.
Proof.
  unfold counts_only. intros H1 H2. destruct c1, c2, c3; cbn in *.
  injection H1. injection H2. intros. subst. reflexivity.
Qed.

Lemma counts_only_refl c : counts_only c c.
Proof. unfold counts_only. by destruct c. Qed.

Lemma getMessageForRetry_cases receipt id c :
  let r := getMessageForRetry receipt id c in
  let a := fresh (dom (heap c)) in
  match getRecentMessage (Chat receipt) id c with
  | Some p =>
      r.1.1 = inr a ∧ r.1.2 = set_heap (<[a := deref p c]> (heap c)) c
  | None =>
      let h := GetMessageForRetry c (Sender receipt) (Chat receipt) id (world c) in
      match h.1 with
      | Some m => r.1.1 = inr a ∧ r.1.2 = set_heap (<[a := m]> (heap c)) (set_world h.2 c)
      | None => r = (inl (Errorf "couldn't find message %s" None), set_world h.2 c, [])
      end
  end.
Proof.
  cbn zeta. unfold getMessageForRetry, proto_Clone, alloc.
  unfold bind, get, call, log, emit, ret; cbn.
  destruct (getRecentMessage (Chat receipt) id c) as [p|] eqn:Hcache; cbn; [done|].
  by destruct (GetMessageForRetry c (Sender receipt) (Chat receipt) id (world c))
    as [[m|] w] eqn:Hhook.
Qed.

Local Arguments getMessageForRetry : simpl never.
Local Arguments wrap_int : simpl never.
Local Arguments GetOptionalChildByTag : simpl never.
Local Arguments ag_String : simpl never.
Local Arguments ag_UnixTime : simpl never.
Local Arguments ag_Int : simpl never.
Local Arguments ag_OK : simpl never.
Local Arguments deref : simpl never.
Local Arguments Z.leb : simpl never.
Local Arguments sent_nodes : simpl never.
Local Arguments prekey_fetches : simpl never.
Local Arguments logged : simpl never.

Lemma getMessageForRetry_counts receipt id c :
  counts_only c (getMessageForRetry receipt id c).1.2.
Proof.
  pose proof (getMessageForRetry_cases receipt id c) as H. cbn zeta in H.
  destruct (getRecentMessage (Chat receipt) id c) as [p|].
  - destruct H as [_ ->]. unfold counts_only. by destruct c.
  - destruct (GetMessageForRetry c _ _ _ _).1.
    + destruct H as [_ ->]. unfold counts_only. by destruct c.
    + rewrite H. unfold counts_only. by destruct c.
Qed.

(** What [retryPrepare] returns, case by case, once the [retry] child is
    well-formed and the message was found. *)
Lemma retryPrepare_outcome receipt node c id ts cnt :
  parse_retry (parseInt E) node = Some (id, ts, cnt) →
  let r := retryPrepare E receipt node c in
  let g := getMessageForRetry receipt id c in
  let key := mkRetryKey (Sender receipt) id in
  let n := wrap_int (default 0%Z (incomingRetryRequestCounter c !! key) + 1) in
  counts_only c r.1.2
  ∧ (∀ e, g.1.1 = inl e → r = (inl (Some e), g.1.2, g.2))
  ∧ (∀ a, g.1.1 = inr a →
     incomingRetryRequestCounter r.1.2 = <[key := n]> (incomingRetryRequestCounter c)
     ∧ ((10 ≤ n)%Z → r.1.1 = inl None)
     ∧ ((n < 10)%Z → JID_IsEmpty E (getOwnJID c) = true → r.1.1 = inl (Some ErrNotLoggedIn))
     ∧ ((n < 10)%Z → JID_IsEmpty E (getOwnJID c) = false →
        ∀ cb, PreRetryCallback c = Some cb → (∀ i k m w, (cb receipt i k m w).1 = false) →
        r.1.1 = inl None
        ∧ "Cancelled retry receipt in PreRetryCallback" ∈ logged LDebug r.2)
     ∧ (∀ rq, r.1.1 = inr rq →
        rr_messageID rq = id ∧ rr_timestamp rq = ts ∧ rr_retryCount rq = cnt
        ∧ (n < 10)%Z ∧ JID_IsEmpty E (getOwnJID c) = false
        ∧ proto_Marshal E (deref (rr_msg rq) r.1.2) = inr (rr_plaintext rq))).
Proof.
  intros Hparse. cbn zeta. unfold parse_retry in Hparse.
  remember (retryPrepare E receipt node c) as r eqn:Hr. unfold retryPrepare in Hr.
  destruct (GetOptionalChildByTag node "retry") as [retryChild|] eqn:Hchild; [|done].
  cbv zeta in Hr, Hparse.
  destruct (ag_OK _) eqn:Hok; [|done]. cbn [negb] in Hr.
  set (id0 := (ag_String "id" (AttrGetter retryChild)).1) in *.
  set (ts0 := (ag_UnixTime _ _ _).1) in *. set (cnt0 := (ag_Int _ _ _).1) in *.
  assert (id0 = id ∧ ts0 = ts ∧ cnt0 = cnt) as (Hid & Hts & Hcnt)
    by (by injection Hparse as -> -> ->).
  clearbody id0 ts0 cnt0. subst id0 ts0 cnt0. clear Hparse.
  unfold bind at 1 in Hr.
  pose proof (getMessageForRetry_counts receipt id c) as Hcounts.
  pose proof (getMessageForRetry_run receipt id c) as Hget.
  destruct (getMessageForRetry receipt id c) as [[found c1] t1]. cbn [fst snd] in *.
  destruct Hget as (_ & Hctr & _).
  destruct found as [e|msg].
  { subst r. cbn. rewrite app_nil_r. split; [done|]. split; [by intros ? [= <-]|].
    intros ? [=]. }
  destruct (counts_only_fields _ _ Hcounts) as (_ & _ & _ & Hjid & Hcb & _).
  assert (getOwnJID c1 = getOwnJID c) as Hown by (unfold getOwnJID; by rewrite Hjid).
  unfold bind, get, modify, log, emit, ret, call, alloc in Hr; cbn in Hr.
  rewrite Hown, Hctr in Hr.
  set (key := mkRetryKey (Sender receipt) id) in *.
  set (n := wrap_int (default 0%Z (incomingRetryRequestCounter c !! key) + 1)) in *.
  assert (∀ c2, counts_only c1 c2 → counts_only c c2) as Hco
    by (intros c2; by apply counts_only_trans).
  destruct (10 <=? n)%Z eqn:Hcap; cbn in Hr.
  { subst r. cbn. apply Z.leb_le in Hcap.
    split; [apply Hco; unfold counts_only; by destruct c1|]. split; [intros ? [=]|].
    intros ? _. split; [done|]. split; [done|]. split; [lia|]. split; [lia|].
    intros ? [=]. }
  apply Z.leb_gt in Hcap.
  destruct (JID_IsEmpty E (getOwnJID c)) eqn:Hempty; cbn in Hr.
  { subst r. cbn.
    split; [apply Hco; unfold counts_only; by destruct c1|]. split; [intros ? [=]|].
    intros ? _. split; [done|]. split; [lia|]. split; [done|]. split; [done|].
    intros ? [=]. }
  destruct (IsGroup receipt);
    [destruct (GroupSessionCreate E _ _ _) as [[e|ser] w]|destruct (IsFromMe receipt)];
    cbn in Hr; rewrite ?Hcb in Hr;
    (destruct (PreRetryCallback c) as [cb|] eqn:Hcbk; cbn in Hr;
     [match type of Hr with context [cb ?a ?b ?c ?d ?e] =>
        destruct (cb a b c d e) as [[] w'] eqn:Hcbres end|]);
    cbn in Hr;
    try match type of Hr with context [proto_Marshal E ?m] =>
        destruct (proto_Marshal E m) as [e'|pt] eqn:Hmarshal end;
    cbn in Hr; subst r; cbn;
    (split; [apply Hco; unfold counts_only; by destruct c1|]);
    (split; [intros ? [=]|]);
    intros ? _; (split; [reflexivity|]); (split; [lia|]); (split; [done|]);
    (split;
     [intros _ _ cb' Hcb' Hveto;
      first [discriminate Hcb'
            | injection Hcb' as <-;
              first [ match type of Hcbres with cb ?a ?b ?c ?d ?e = _ =>
                        specialize (Hveto b c d e); by rewrite Hcbres in Hveto end
                    | split; [reflexivity|];
                      unfold logged; rewrite ?omap_app; cbn; set_solver ] ]
     |]);
    first [ by intros ? [=]
          | intros rq [= <-]; cbn; repeat (split; [done|]);
            unfold deref in *; cbn in *; exact Hmarshal ].
Qed.


Local Arguments shouldRecreateSession : simpl never.
Local Arguments sendNode : simpl never.
Local Arguments retryPrepare : simpl never.
Local Arguments retryBundle : simpl never.
Local Arguments retrySend : simpl never.

Lemma handleRetryReceipt_unfold receipt node c :
  handleRetryReceipt E receipt node c
  = let p := retryPrepare E receipt node c in
    match p.1.1 with
    | inl res => (res, p.1.2, p.2)
    | inr rq =>
        let b := retryBundle E receipt node (rr_retryCount rq) p.1.2 in
        match b.1.1 with
        | inl e => (Some e, b.1.2, p.2 ++ b.2)
        | inr bundle =>
            let s := retrySend E receipt node rq bundle b.1.2 in
            (s.1.1, s.1.2, p.2 ++ b.2 ++ s.2)
        end
    end.
Proof.
  unfold handleRetryReceipt. cbv zeta. unfold bind at 1.
  destruct (retryPrepare E receipt node c) as [[[res|rq] c1] t1]; cbn [fst snd].
  { cbn. by rewrite app_nil_r. }
  unfold bind at 1.
  destruct (retryBundle E receipt node (rr_retryCount rq) c1) as [[[e|bundle] c2] t2];
    cbn [fst snd].
  { cbn. by rewrite app_nil_r. }
  by destruct (retrySend E receipt node rq bundle c2) as [[res c3] t3].
Qed.

Lemma parse_retry_None receipt node c :
  parse_retry (parseInt E) node = None →
  ∃ e, retryPrepare E receipt node c = (inl (Some e), c, [])
       ∧ (GetOptionalChildByTag node "retry" = None
          → e = ElementMissingError "retry" "retry receipt").
Proof.
  unfold parse_retry, retryPrepare.
  destruct (GetOptionalChildByTag node "retry") as [retryChild|]; [|by eexists].
  cbv zeta. destruct (ag_OK _); [done|]. intros _. by eexists.
Qed.

(** A retry receipt is refused before it is counted when its [retry]
    child is missing or malformed, and when the message is neither in the
    ring nor known to the [GetMessageForRetry] hook. In the first case an
    error is returned and the client is left as it was: nothing is logged
    and the hook is not consulted. In the second the error is
    [couldn't find message]; the hook has acted on the world and nothing
    else changed. In both the retry counter of the pair is untouched and
    nothing is sent. *)
Theorem retry_refused_before_counting receipt node c :
  let r := handleRetryReceipt E receipt node c in
  (parse_retry (parseInt E) node = None →
   r.1.2 = c ∧ r.2 = []
   ∧ ∃ e, r.1.1 = Some e
          ∧ (GetOptionalChildByTag node "retry" = None
             → e = ElementMissingError "retry" "retry receipt"))
  ∧ (∀ id ts cnt, parse_retry (parseInt E) node = Some (id, ts, cnt) →
     getRecentMessage (Chat receipt) id c = None →
     let h := GetMessageForRetry c (Sender receipt) (Chat receipt) id (world c) in
     h.1 = None →
     r = (Some (Errorf "couldn't find message %s" None), set_world h.2 c, [])).
Proof.
  cbn zeta. rewrite handleRetryReceipt_unfold. cbv zeta. split.
  - intros Hparse. destruct (parse_retry_None receipt node c Hparse) as (e & -> & He).
    cbn. split; [done|]. split; [done|]. by exists e.
  - intros id ts cnt Hparse Hcache Hhook.
    destruct (retryPrepare_outcome receipt node c id ts cnt Hparse) as (_ & Herr & _).
    pose proof (getMessageForRetry_cases receipt id c) as Hg. cbn zeta in Hg.
    rewrite Hcache, Hhook in Hg.
    rewrite (Herr (Errorf "couldn't find message %s" None)) by (by rewrite Hg).
    cbn [fst snd]. by rewrite Hg.
Qed.

(** A retry receipt refused after it was counted. With a well-formed
    [retry] child, a recoverable message and a counter below the cap: if
    the device is not logged in the result is [ErrNotLoggedIn]; if it is
    and the [PreRetryCallback] hook vetoes, the result is [nil] and the
    cancellation is logged. In both cases the counter of the pair has
    been incremented, nothing is sent and no prekeys are fetched. *)
Theorem retry_refused_after_counting receipt node c id ts cnt :
  parse_retry (parseInt E) node = Some (id, ts, cnt) →
  recoverable c receipt id →
  let key := mkRetryKey (Sender receipt) id in
  let n := wrap_int (default 0%Z (incomingRetryRequestCounter c !! key) + 1) in
  (n < 10)%Z →
  let r := handleRetryReceipt E receipt node c in
  let quiet :=
    incomingRetryRequestCounter r.1.2 = <[key := n]> (incomingRetryRequestCounter c)
    ∧ sent_nodes r.2 = [] ∧ prekey_fetches r.2 = [] in
  (JID_IsEmpty E (getOwnJID c) = true → r.1.1 = Some ErrNotLoggedIn ∧ quiet)
  ∧ (JID_IsEmpty E (getOwnJID c) = false →
     ∀ cb, PreRetryCallback c = Some cb → (∀ i k m w, (cb receipt i k m w).1 = false) →
     r.1.1 = None ∧ quiet
     ∧ "Cancelled retry receipt in PreRetryCallback" ∈ logged LDebug r.2).
Proof.
  intros Hparse Hrec. cbn zeta. intros Hn.
  rewrite handleRetryReceipt_unfold. cbv zeta.
  destruct (retryPrepare_outcome receipt node c id ts cnt Hparse) as (_ & _ & Hok).
  destruct (getMessageForRetry_run receipt id c) as (_ & _ & _ & _ & _ & Hfound).
  destruct (Hfound Hrec) as [a Ha].
  destruct (Hok a Ha) as (Hctr & _ & Hout & Hveto & _).
  destruct (retryPrepare_run E receipt node c) as (_ & Hs & Hf & _).
  split.
  - intros Hempty. rewrite (Hout Hn Hempty). by cbn.
  - intros Hempty cb Hcb Hno. destruct (Hveto Hn Hempty cb Hcb Hno) as [Hres Hlog].
    rewrite Hres. by cbn.
Qed.

Lemma copy_attr_lookup k (src dst : gmap string AttrVal) k' :
  copy_attr k src dst !! k'
  = if decide (k' = k) then (match src !! k with Some v => Some v | None => dst !! k end)
    else dst !! k'.
Proof.
  unfold copy_attr. destruct (src !! k) as [v|] eqn:Hk.
  - case_decide as Hd; [subst; apply lookup_insert_eq|by rewrite lookup_insert_ne].
  - by case_decide as Hd; [subst|].
Qed.

Local Arguments copy_attr : simpl never.
Local Arguments attr_index : simpl never.

Lemma retrySend_shape receipt node rq bundle c p :
  let r := retrySend E receipt node rq bundle c in
  (∃ w, r.1.2 = set_world w c)
  ∧ (p ∈ sent_nodes r.2 →
     sent_nodes r.2 = [p]
     ∧ Tag p = "message"
     ∧ Attrs p !! "to" = Some (attr_index (Attrs node) "from")
     ∧ Attrs p !! "id" = Some (VString (rr_messageID rq))
     ∧ Attrs p !! "t" = Some (VInt64 (time_Unix (rr_timestamp rq)))
     ∧ Attrs p !! "device_fanout"
       = (if IsGroup receipt then None else Some (VBool false))
     ∧ (∀ k, k ∈ ["participant"; "recipient"; "edit"] → Attrs p !! k = Attrs node !! k)).
Proof.
  cbn zeta.
  remember (retrySend E receipt node rq bundle c) as r eqn:Hr. unfold retrySend in Hr.
  unfold bind at 1 in Hr. unfold get at 1 in Hr. cbn [fst snd] in Hr.
  cbv zeta in Hr.
  unfold bind at 1 in Hr. unfold call at 1 in Hr.
  match type of Hr with context [encryptMessageForDevice E ?pt ?s ?b ?a ?w] =>
    destruct (encryptMessageForDevice E pt s b a w) as [[e|[enc inc]] w1] eqn:Henc end.
  - subst r; cbn. split; [by eexists|]. unfold sent_nodes; cbn. set_solver.
  - cbn in Hr. unfold bind at 1 in Hr.
    match type of Hr with context [sendNode E ?q ?c1] =>
      destruct (sendNode_run E q c1) as (res & w2 & tl & Hsend & Hs & _);
      set (q0 := q) in * end.
    assert (Tag q0 = "message"
            ∧ Attrs q0 !! "to" = Some (attr_index (Attrs node) "from")
            ∧ Attrs q0 !! "id" = Some (VString (rr_messageID rq))
            ∧ Attrs q0 !! "t" = Some (VInt64 (time_Unix (rr_timestamp rq)))
            ∧ Attrs q0 !! "device_fanout"
              = (if IsGroup receipt then None else Some (VBool false))
            ∧ (∀ k, k ∈ ["participant"; "recipient"; "edit"] →
               Attrs q0 !! k = Attrs node !! k)) as Hq.
    { subst q0. cbn [Tag Attrs]. split; [done|].
      rewrite !copy_attr_lookup.
      repeat (rewrite decide_False by done).
      split; [by destruct (IsGroup receipt); simplify_map_eq|].
      split; [by destruct (IsGroup receipt); simplify_map_eq|].
      split; [by destruct (IsGroup receipt); simplify_map_eq|].
      split; [by destruct (IsGroup receipt); simplify_map_eq|].
      intros k Hk. rewrite !copy_attr_lookup.
      assert (k = "participant" ∨ k = "recipient" ∨ k = "edit") as Hcase by set_solver.
      destruct Hcase as [Hk'|[Hk'|Hk']]; subst k;
        repeat (first [rewrite decide_True by done | rewrite decide_False by done]);
        repeat match goal with
               | |- context [Attrs node !! ?x] => destruct (Attrs node !! x) eqn:?
               end;
        try done; by destruct (IsGroup receipt); simplify_map_eq. }
    clearbody q0.
    rewrite Hsend in Hr.
    destruct res; cbn in Hr; subst r; cbn [fst snd];
      (split; [by eexists|]);
      unfold sent_nodes in *; cbn; rewrite ?omap_app, Hs; cbn;
      intros Hp; assert (p = q0) as -> by set_solver; done.
Qed.

(** The stanza that answers a retry receipt. Whenever [handleRetryReceipt]
    hands a stanza to [sendNode] it is the only one, its tag is [message],
    it goes to the [from] of the receipt under the id of the [retry] child
    and with that child's timestamp in seconds, [device_fanout] is [false]
    exactly outside groups, and [participant], [recipient] and [edit] are
    those of the receipt, present or not. *)
Theorem retry_message_addressing receipt node c p :
  p ∈ sent_nodes (handleRetryReceipt E receipt node c).2 →
  ∃ id ts cnt,
    parse_retry (parseInt E) node = Some (id, ts, cnt)
    ∧ sent_nodes (handleRetryReceipt E receipt node c).2 = [p]
    ∧ Tag p = "message"
    ∧ Attrs p !! "to" = Some (attr_index (Attrs node) "from")
    ∧ Attrs p !! "id" = Some (VString id)
    ∧ Attrs p !! "t" = Some (VInt64 (time_Unix ts))
    ∧ Attrs p !! "device_fanout" = (if IsGroup receipt then None else Some (VBool false))
    ∧ (∀ k, k ∈ ["participant"; "recipient"; "edit"] → Attrs p !! k = Attrs node !! k).
Proof.
  rewrite handleRetryReceipt_unfold. cbv zeta.
  destruct (retryPrepare_run E receipt node c) as (_ & Hs & _).
  destruct (parse_retry (parseInt E) node) as [[[id ts] cnt]|] eqn:Hparse.
  2: { destruct (parse_retry_None receipt node c Hparse) as (e & -> & _). cbn.
       unfold sent_nodes; cbn. set_solver. }
  destruct (retryPrepare_outcome receipt node c id ts cnt Hparse) as (_ & _ & Hok).
  destruct (getMessageForRetry receipt id c).1.1 as [e|a] eqn:Hg.
  { destruct (retryPrepare_outcome receipt node c id ts cnt Hparse) as (_ & Herr & _).
    rewrite Hg in Herr. rewrite (Herr e eq_refl). cbn [fst snd].
    rewrite (Herr e eq_refl) in Hs. cbn [fst snd] in Hs. rewrite Hs. set_solver. }
  destruct (Hok a eq_refl) as (_ & _ & _ & _ & Hrq).
  destruct (retryPrepare E receipt node c) as [[[res|rq] c1] t1]; cbn [fst snd] in *.
  { rewrite Hs. set_solver. }
  destruct (Hrq rq eq_refl) as (<- & <- & <- & _).
  destruct (retryBundle_run E receipt node (rr_retryCount rq) c1) as (_ & _ & Hsb & _).
  destruct (retryBundle E receipt node (rr_retryCount rq) c1) as [[[e|bundle] c2] t2];
    cbn [fst snd] in *.
  { rewrite sent_nodes_app, Hs, Hsb. set_solver. }
  rewrite !sent_nodes_app, Hs, Hsb. cbn [app]. intros Hp.
  destruct (retrySend_shape receipt node rq bundle c2 p) as (_ & Hshape).
  destruct (Hshape Hp) as (H1 & H2 & H3 & H4 & H5 & H6 & H7).
  eexists _, _, _. split; [reflexivity|]. done.
Qed.

Lemma retry_footprint_trans c1 c2 c3 :
  retry_footprint c1 c2 → retry_footprint c2 c3 → retry_footprint c1 c3.
Proof.
  unfold retry_footprint. intros H1 H2. destruct c1, c2, c3; cbn in *.
  injection H1. injection H2. intros. subst. reflexivity.
Qed.

Lemma counts_only_footprint c c' :
  counts_only c c' →
  retry_footprint c c' ∧ sessionRecreateHistory c' = sessionRecreateHistory c.
Proof.
  unfold counts_only, retry_footprint. intros H. destruct c, c'; cbn in *.
  injection H. intros. subst. done.
Qed.

Lemma set_world_footprint c w :
  retry_footprint c (set_world w c).
Proof. unfold retry_footprint. by destruct c. Qed.

Lemma shouldRecreateSession_footprint retryCount jid c :
  let r := shouldRecreateSession E retryCount jid c in
  retry_footprint c r.1.2.
Proof.
  cbn zeta. unfold shouldRecreateSession, retry_footprint.
  unfold bind, get, modify, call, ret; cbn.
  destruct (ContainsSession E (JID_SignalAddress E jid) (world c)); cbn.
  - destruct (retryCount <? 2)%Z; cbn; [by destruct c|].
    destruct (sessionRecreateHistory c !! jid) as [prev|]; cbn.
    + destruct (time_Now E (world c)) as [now w1]; cbn.
      destruct (time_Before _ _); cbn; [|by destruct c].
      destruct (time_Now E w1) as [now2 w2]; cbn. by destruct c.
    + destruct (time_Now E (world c)) as [now w1]; cbn. by destruct c.
  - destruct (time_Now E (world c)) as [now w1]; cbn. by destruct c.
Qed.

Lemma retryBundle_footprint receipt node cnt c :
  let r := retryBundle E receipt node cnt c in
  retry_footprint c r.1.2
  ∧ (is_Some (GetOptionalChildByTag node "keys") → r.1.2 = c ∧ r.2 = [])
  ∧ (sessionRecreateHistory r.1.2 = sessionRecreateHistory c
     ∨ (prekey_fetches r.2 = [[Sender receipt]]
        ∧ sessionRecreateHistory r.1.2
          = <[Sender receipt := recorded_time E (Sender receipt) c]>
              (sessionRecreateHistory c))).
Proof.
  cbn zeta.
  remember (retryBundle E receipt node cnt c) as r eqn:Hr. unfold retryBundle in Hr.
  destruct (GetOptionalChildByTag node "keys") as [keysChild|] eqn:Hkeys.
  - destruct (nodeToPreKeyBundle E _ node) as [e|b] eqn:Hparse; subst r; cbn;
      (split; [unfold retry_footprint; by destruct c|]); (split; [done|by left]).
  - unfold bind at 1 in Hr.
    pose proof (shouldRecreateSession_run E cnt (Sender receipt) c) as Hsr.
    pose proof (shouldRecreateSession_footprint cnt (Sender receipt) c) as Hfp.
    destruct (shouldRecreateSession E cnt (Sender receipt) c) as [[[reason recreate] c1] t1].
    cbn in Hsr, Hfp. destruct Hsr as (_ & Hyes & Hno & _ & _ & ->).
    destruct recreate; cbn in Hr.
    + unfold bind, log, emit, call, ret in Hr; cbn in Hr.
      assert (∀ w, retry_footprint c (set_world w c1)) as Hf'
        by (intros w; eapply retry_footprint_trans; [exact Hfp|apply set_world_footprint]).
      destruct (fetchPreKeys E [Sender receipt] (world c1)) as [[e|keys] w] eqn:Hfetch;
        cbn in Hr.
      * subst r; cbn. split; [apply Hf'|]. split; [by intros [? [=]]|].
        right. split; [done|]. by apply Hyes.
      * destruct (err (default _ (keys !! Sender receipt))) eqn:Herr;
          [|destruct (bundle (default _ (keys !! Sender receipt))) eqn:Hbundle];
          cbn in Hr; subst r; cbn;
          (split; [apply Hf'|]); (split; [by intros [? [=]]|]);
          right; (split; [done|]); by apply Hyes.
    + subst r; cbn. split; [exact Hfp|]. split; [by intros [? [=]]|].
      left. by apply Hno.
Qed.

(** What handling a retry receipt can change. [handleRetryReceipt] leaves
    every field of the client as it was except the retry counters, the
    message heap, the world of the collaborators and the session
    recreation history: the socket, the event handlers, the ring and the
    counters of [sendRetryReceipt] are never written. Of the history only
    the entry of the sender can change, and it changes only together with
    a prekey fetch; a receipt that brings its own [keys] neither consults
    nor updates the history and fetches nothing. *)
Theorem retry_receipt_footprint receipt node c :
  let r := handleRetryReceipt E receipt node c in
  retry_footprint c r.1.2
  ∧ messageRetries r.1.2 = messageRetries c
  ∧ socket r.1.2 = socket c
  ∧ eventHandlers r.1.2 = eventHandlers c
  ∧ (∀ j, j ≠ Sender receipt →
     sessionRecreateHistory r.1.2 !! j = sessionRecreateHistory c !! j)
  ∧ (prekey_fetches r.2 = [] → sessionRecreateHistory r.1.2 = sessionRecreateHistory c)
  ∧ (is_Some (GetOptionalChildByTag node "keys") →
     prekey_fetches r.2 = [] ∧ sessionRecreateHistory r.1.2 = sessionRecreateHistory c).
Proof.
  cbn zeta.
  assert (retry_footprint c (handleRetryReceipt E receipt node c).1.2
          ∧ (sessionRecreateHistory (handleRetryReceipt E receipt node c).1.2
             = sessionRecreateHistory c
             ∨ (prekey_fetches (handleRetryReceipt E receipt node c).2 = [[Sender receipt]]
                ∧ ∃ t, sessionRecreateHistory (handleRetryReceipt E receipt node c).1.2
                       = <[Sender receipt := t]> (sessionRecreateHistory c)))
          ∧ (is_Some (GetOptionalChildByTag node "keys") →
             prekey_fetches (handleRetryReceipt E receipt node c).2 = []))
    as (Hfp & Hhist & Hkeys).
  { rewrite handleRetryReceipt_unfold. cbv zeta.
    destruct (retryPrepare_run E receipt node c) as (_ & _ & Hpf & _).
    assert (counts_only c (retryPrepare E receipt node c).1.2) as Hco.
    { destruct (parse_retry (parseInt E) node) as [[[id ts] cnt]|] eqn:Hparse.
      - by destruct (retryPrepare_outcome receipt node c id ts cnt Hparse) as (? & _).
      - destruct (parse_retry_None receipt node c Hparse) as (e & -> & _).
        apply counts_only_refl. }
    apply counts_only_footprint in Hco as [Hfp1 Hh1].
    destruct (retryPrepare E receipt node c) as [[[res|rq] c1] t1]; cbn [fst snd] in *.
    { split; [done|]. split; [by left|]. done. }
    destruct (retryBundle_footprint receipt node (rr_retryCount rq) c1) as (Hfp2 & Hk2 & Hh2).
    destruct (retryBundle_run E receipt node (rr_retryCount rq) c1) as (_ & _ & _ & Hbf & _).
    assert (retry_footprint c (retryBundle E receipt node (rr_retryCount rq) c1).1.2) as Hfp12
      by (by eapply retry_footprint_trans).
    assert (is_Some (GetOptionalChildByTag node "keys") →
            prekey_fetches (retryBundle E receipt node (rr_retryCount rq) c1).2 = [])
      as Hk3 by (intros Hk; by destruct (Hk2 Hk) as [_ ->]).
    rewrite Hh1 in Hh2. clear Hbf.
    destruct (retryBundle E receipt node (rr_retryCount rq) c1) as [[[e|bundle] c2] t2];
      cbn [fst snd] in *.
    { rewrite prekey_fetches_app, Hpf. cbn [app]. split; [done|]. split; [|done].
      destruct Hh2 as [?|[? ?]]; [by left|right; eauto]. }
    destruct (retrySend_shape receipt node rq bundle c2 (mkNode "" ∅ CNil)) as ([w Hw] & _).
    destruct (retrySend_run E receipt node rq bundle c2) as (_ & _ & Hsf & _).
    destruct (retrySend E receipt node rq bundle c2) as [[res c3] t3]; cbn [fst snd] in *.
    subst c3. rewrite !prekey_fetches_app, Hpf, Hsf, app_nil_r. cbn [app].
    split; [eapply retry_footprint_trans; [exact Hfp12|apply set_world_footprint]|].
    split; [|done]. cbn. destruct Hh2 as [?|[? ?]]; [by left|right; eauto]. }
  split; [done|].
  assert (messageRetries (handleRetryReceipt E receipt node c).1.2 = messageRetries c
          ∧ socket (handleRetryReceipt E receipt node c).1.2 = socket c
          ∧ eventHandlers (handleRetryReceipt E receipt node c).1.2 = eventHandlers c)
    as (? & ? & ?).
  { unfold retry_footprint in Hfp. rewrite Hfp. by destruct c. }
  split; [done|]. split; [done|]. split; [done|]. split; [|split].
  - intros j Hj. destruct Hhist as [->|(_ & t & ->)]; [done|]. by rewrite lookup_insert_ne.
  - intros Hnone. destruct Hhist as [?|[Hf _]]; [done|]. by rewrite Hnone in Hf.
  - intros Hk. specialize (Hkeys Hk). split; [done|].
    destruct Hhist as [?|[Hf _]]; [done|]. by rewrite Hkeys in Hf.
Qed.

(** Where the message for a retry comes from. [getMessageForRetry] looks
    in the ring first: on a hit it returns a fresh copy of the cached
    message and the [GetMessageForRetry] hook is not called. Only on a
    miss is the hook called, and a fresh copy of its answer returned; if
    the hook has no answer either, the result is an error and no message
    is allocated. *)
Theorem getMessageForRetry_sources receipt id c :
  let r := getMessageForRetry receipt id c in
  let a := fresh (dom (heap c)) in
  let h := GetMessageForRetry c (Sender receipt) (Chat receipt) id (world c) in
  (a ∉ dom (heap c))
  ∧ (∀ p, getRecentMessage (Chat receipt) id c = Some p →
     r.1.1 = inr a ∧ world r.1.2 = world c ∧ heap r.1.2 = <[a := deref p c]> (heap c))
  ∧ (getRecentMessage (Chat receipt) id c = None →
     world r.1.2 = h.2
     ∧ (∀ m, h.1 = Some m → r.1.1 = inr a ∧ heap r.1.2 = <[a := m]> (heap c))
     ∧ (h.1 = None →
        r.1.1 = inl (Errorf "couldn't find message %s" None) ∧ heap r.1.2 = heap c)).
Proof.
  cbn zeta. pose proof (getMessageForRetry_cases receipt id c) as H. cbn zeta in H.
  split; [apply is_fresh|].
  destruct (getRecentMessage (Chat receipt) id c) as [p|].
  - destruct H as [H1 H2]. split; [|done]. intros ? [= <-]. by rewrite H1, H2.
  - split; [done|]. intros _.
    destruct (GetMessageForRetry c _ _ _ _).1 as [m|].
    + destruct H as [H1 H2]. rewrite H1, H2. split; [done|]. split; [|done].
      by intros ? [= <-].
    + rewrite H. done.
Qed.

End RetryEdges.

(** ** Rejecting calls, call payloads, logout and retry bookkeeping *)

Section Calls.
Context {W Bundle AccountT : Type} (E : @Collaborators W Bundle AccountT).
Context (JID_ToNonAD : JID → JID) (GenerateMessageID : W → MessageID * W).
Implicit Types (c : @Client W AccountT).

Local Arguments sendNode : simpl never.

(** [RejectCall] on a device that is not logged in returns
    [ErrNotLoggedIn]: nothing is sent and no message id is generated.
    Otherwise exactly one [call] stanza is handed to [sendNode] and its
    error is returned as it is: the stanza carries the given message id,
    or a generated one exactly when the given one is empty, goes from the
    own JID to the caller, both without device part, and has the single
    child [reject] with the call id, the caller as creator and the count
    as the string [0]. *)
Theorem RejectCall_stanza callID callFrom messageID c :
  let r := RejectCall E JID_ToNonAD GenerateMessageID callID callFrom messageID c in
  (JID_IsEmpty E (getOwnJID c) = true → r = (Some ErrNotLoggedIn, c, []))
  ∧ (JID_IsEmpty E (getOwnJID c) = false →
     let gen := GenerateMessageID (world c) in
     let id := if decide (messageID = "") then gen.1 else messageID in
     let c1 := if decide (messageID = "") then set_world gen.2 c else c in
     let p := reject_stanza id (JID_ToNonAD (getOwnJID c)) (JID_ToNonAD callFrom) callID in
     r = sendNode E p c1
     ∧ sent_nodes r.2 = [p]
     ∧ GetChildren p = [reject_child callID (JID_ToNonAD callFrom)]
     ∧ Attrs p !! "id" = Some (VString id)
     ∧ Attrs (reject_child callID (JID_ToNonAD callFrom)) !! "count" = Some (VString "0")).
Proof.
  cbn zeta. unfold RejectCall. rewrite bind_run. cbn [get fst snd app].
  destruct (JID_IsEmpty E (getOwnJID c)) eqn:Hempty.
  - split; [done|]. intros [=].
  - split; [intros [=]|]. intros _. rewrite bind_run.
    assert (∀ q c', sent_nodes (sendNode E q c').2 = [q]) as Hsent.
    { intros q c'. destruct (sendNode_run E q c') as (res & w & tl & -> & Hs & _).
      cbn. unfold sent_nodes in *. cbn. by rewrite Hs. }
    destruct (decide (messageID = "")) as [->|Hne].
    + unfold call. destruct (GenerateMessageID (world c)) as [id w] eqn:Hgen.
      cbn [fst snd app].
      fold (reject_stanza id (JID_ToNonAD (getOwnJID c)) (JID_ToNonAD callFrom) callID).
      split; [by destruct (sendNode E _ _) as [[? ?] ?]|].
      split; [apply Hsent|]. done.
    + cbn [ret fst snd app].
      fold (reject_stanza messageID (JID_ToNonAD (getOwnJID c)) (JID_ToNonAD callFrom) callID).
      split; [by destruct (sendNode E _ _) as [[? ?] ?]|].
      split; [apply Hsent|]. done.
Qed.

Lemma dispatchEvent_world evt c :
  (∃ w, (dispatchEvent evt c).1.2 = set_world w c)
  ∧ sent_nodes (dispatchEvent evt c).2 = []
  ∧ dispatched (dispatchEvent evt c).2 = [evt].
Proof.
  unfold dispatchEvent, bind, emit, get, call, log, ret; cbn.
  destruct (run_handlers _ _ _) as [[] w]; cbn; (split; [by eexists|done]).
Qed.

Local Arguments dispatchEvent : simpl never.

Local Ltac on_remote_tag Hrun child s :=
  destruct (decide (Tag child = s)) as [Htag|?];
  [eexists; split; [apply Hrun|]; rewrite Htag; split; [reflexivity|];
   first [rewrite decide_True by (apply (bool_decide_unpack _); vm_compute; exact I)
         | rewrite decide_False by (apply (bool_decide_unpack _); vm_compute; exact I)];
   reflexivity|].

Lemma handleCallEvent_event node c child :
  GetChildren node = [child] → Tag child ∈ known_call_tags →
  ∃ evt, handleCallEvent E node c
         = (tt, (dispatchEvent evt c).1.2, EvGo (GoSendAck node) :: (dispatchEvent evt c).2)
       ∧ call_data evt = Some child
       ∧ call_remote evt
         = if decide (Tag child ∈ remote_call_tags)
           then Some {| RemotePlatform := (ag_String "platform" (AttrGetter node)).1;
                        RemoteVersion := (ag_String "version" (AttrGetter node)).1 |}
           else None.
Proof.
  intros Hchild Hknown.
  assert (∀ evt, bind (emit (EvGo (GoSendAck node))) (λ _, dispatchEvent evt) c
                 = (tt, (dispatchEvent evt c).1.2,
                    EvGo (GoSendAck node) :: (dispatchEvent evt c).2)) as Hrun.
  { intros evt. rewrite bind_run. cbn [emit fst snd app].
    by destruct (dispatchEvent evt c) as [[[] ?] ?]. }
  unfold handleCallEvent. rewrite Hchild. unfold remote_call_tags.
  on_remote_tag Hrun child "offer". on_remote_tag Hrun child "offer_notice".
  on_remote_tag Hrun child "relaylatency". on_remote_tag Hrun child "accept".
  on_remote_tag Hrun child "preaccept". on_remote_tag Hrun child "transport".
  on_remote_tag Hrun child "terminate".
  unfold known_call_tags in Hknown. set_solver.
Qed.

(** What a typed call event carries besides its meta data. The event
    dispatched for a call stanza with a single child of a known tag holds
    that child as its data; for [offer], [accept], [preaccept] and
    [transport] the platform and version of the remote side are read from
    the attributes of the outer [call] stanza, not from the child, and are
    empty when the stanza lacks them (the event is dispatched all the
    same). [handleCallEvent] hands no stanza to [sendNode] itself and
    changes nothing of the client but the world. *)
Theorem handleCallEvent_payload node c :
  let r := handleCallEvent E node c in
  (∃ w, r.1.2 = set_world w c)
  ∧ sent_nodes r.2 = []
  ∧ (∀ child, GetChildren node = [child] → Tag child ∈ known_call_tags →
     ∃ evt, dispatched r.2 = [evt]
       ∧ call_data evt = Some child
       ∧ (Tag child ∈ remote_call_tags →
          call_remote evt
          = Some {| RemotePlatform := (ag_String "platform" (AttrGetter node)).1;
                    RemoteVersion := (ag_String "version" (AttrGetter node)).1 |}
          ∧ (Attrs node !! "platform" = None → RemotePlatform <$> call_remote evt = Some "")
          ∧ (Attrs node !! "version" = None → RemoteVersion <$> call_remote evt = Some ""))
       ∧ (Tag child ∉ remote_call_tags → call_remote evt = None)).
Proof.
  cbn zeta.
  assert (∃ evt, handleCallEvent E node c
                 = (tt, (dispatchEvent evt c).1.2,
                    EvGo (GoSendAck node) :: (dispatchEvent evt c).2)) as (evt0 & Hrun0).
  { assert (∀ evt, bind (emit (EvGo (GoSendAck node))) (λ _, dispatchEvent evt) c
                   = (tt, (dispatchEvent evt c).1.2,
                      EvGo (GoSendAck node) :: (dispatchEvent evt c).2)) as Hrun.
    { intros evt. rewrite bind_run. cbn [emit fst snd app].
      by destruct (dispatchEvent evt c) as [[[] ?] ?]. }
    unfold handleCallEvent.
    destruct (GetChildren node) as [|child [|]]; try by eexists.
    repeat (case_decide; [by eexists|]). by eexists. }
  destruct (dispatchEvent_world evt0 c) as (Hw0 & Hs0 & _).
  split; [by rewrite Hrun0|]. split; [by rewrite Hrun0|].
  intros child Hchild Hknown.
  destruct (handleCallEvent_event node c child Hchild Hknown) as (evt & -> & Hdata & Hremote).
  destruct (dispatchEvent_world evt c) as (_ & _ & Hd).
  exists evt. cbn [fst snd].
  split; [exact Hd|]. split; [done|]. split.
  - intros Hr. rewrite decide_True in Hremote by done. rewrite Hremote.
    split; [done|]. cbn. unfold ag_String, GetString, AttrGetter; cbn.
    split; by intros ->.
  - intros Hr. by rewrite decide_False in Hremote.
Qed.

End Calls.

Section LogoutSection.
Context {W Bundle AccountT : Type} (E : @Collaborators W Bundle AccountT).
Context (ServerJID : JID)
        (sendIQ : infoQuery → @M W AccountT (Error + Node))
        (Store_Delete : @M W AccountT (option string)).
Implicit Types (c : @Client W AccountT).

(** [Logout] asks the server first. On a device that is not logged in it
    returns [ErrNotLoggedIn] and sends nothing. If the request fails, the
    error is returned wrapped and nothing else happens: the state and the
    events are those of the request, the socket is not stopped and the
    store is not deleted. If the request succeeds, the client disconnects
    and then deletes the store, which therefore runs on a client without a
    socket; an error of the deletion is returned wrapped. *)
Theorem Logout_order c :
  let r := Logout E ServerJID sendIQ Store_Delete c in
  let q := sendIQ (logout_query ServerJID (getOwnJID c)) c in
  (JID_IsEmpty E (getOwnJID c) = true → r = (Some ErrNotLoggedIn, c, []))
  ∧ (JID_IsEmpty E (getOwnJID c) = false →
     (∀ e, q.1.1 = inl e →
        r = (Some (Errorf "error sending logout request: %w" (Some e)), q.1.2, q.2))
     ∧ (∀ n, q.1.1 = inr n →
        let d := Disconnect E q.1.2 in
        let s := Store_Delete d.1.2 in
        socket d.1.2 = None
        ∧ r.1.2 = s.1.2
        ∧ r.2 = q.2 ++ d.2 ++ s.2
        ∧ r.1.1 = match s.1.1 with
                  | Some e => Some (Errorf "error deleting data from store: %w"
                                      (Some (ErrExternal e)))
                  | None => None
                  end)).
Proof.
  cbn zeta. unfold Logout. rewrite bind_run. cbn [get fst snd app].
  fold (logout_query ServerJID (getOwnJID c)).
  destruct (JID_IsEmpty E (getOwnJID c)) eqn:Hempty.
  - split; [done|]. intros [=].
  - split; [intros [=]|]. intros _. rewrite bind_run.
    destruct (sendIQ (logout_query ServerJID (getOwnJID c)) c) as [[[e|n] c1] t1];
      cbn [fst snd].
    + split; [|intros ? [=]]. intros ? [= <-]. cbn. by rewrite app_nil_r.
    + split; [intros ? [=]|]. intros ? _. rewrite !bind_run.
      assert (socket (Disconnect E c1).1.2 = None) as Hsock.
      { unfold Disconnect. rewrite bind_run. cbn [get fst snd].
        destruct (socket c1) as [sock|] eqn:Hs; [|done].
        by rewrite (unlockedDisconnect_run E c1 sock Hs). }
      split; [done|].
      destruct (Store_Delete (Disconnect E c1).1.2) as [[[e|] c3] t3]; cbn [fst snd];
        by rewrite ?app_nil_r.
Qed.

End LogoutSection.

Section SendRetryBookkeeping.
Context {W Bundle AccountT : Type} (E : @Collaborators W Bundle AccountT).
Implicit Types (c : @Client W AccountT).

Local Arguments wrap_int : simpl never.
Local Arguments PutUint32 : simpl never.
Local Arguments attr_index : simpl never.
Local Arguments copy_attr : simpl never.
Local Arguments GetChildren : simpl never.
Local Arguments ag_OptionalInt : simpl never.
Local Arguments sendNode : simpl never.

Lemma goroutines_app (t1 t2 : list Event) :
  goroutines (t1 ++ t2) = goroutines t1 ++ goroutines t2.
Proof. apply omap_app. Qed.

Lemma sendNode_quiet (p : Node) c :
  ∃ r w tl, sendNode E p c = (r, set_world w c, EvSendNode p :: tl)
            ∧ goroutines tl = [].
Proof.
  unfold sendNode, sendNodeAndGetData, bind, emit, get, call, ret; cbn.
  destruct (socket c) as [sock|]; cbn.
  - destruct (waBinary_Marshal E p) as [e|payload]; cbn.
    + eexists _, (world c), _. split; [by destruct c|done].
    + destruct (socket_SendFrame E sock payload (world c)) as [e w].
      eexists _, _, _. split; [reflexivity|done].
  - eexists _, (world c), _. split; [by destruct c|done].
Qed.

Local Ltac send_quiet :=
  match goal with
  | |- context [sendNode E ?p ?c'] =>
      let r := fresh "r" in
      let Hg := fresh "Hg" in
      destruct (sendNode_quiet p c') as (r & ? & ? & -> & Hg);
      destruct r; cbn;
      rewrite ?goroutines_app, ?Hg; cbn
  end.

(** The bookkeeping of [sendRetryReceipt]. The count stored for the
    message id after the call is the count the receipt carries, and it
    stays stored whatever fails afterwards (prekey generation, the account
    blob, the send): nothing but this counter and the world changes. The
    delayed request to the phone is started exactly when that count is 1,
    and no other goroutine is started. A message without a stored count
    whose [enc] child carries a positive count continues from that
    count. *)
Theorem retry_receipt_bookkeeping node info force c :
  let r := sendRetryReceipt E node info force c in
  let id := stanza_id node in
  let rc := updated_count (default 0%Z (messageRetries c !! id)) (count_in_msg (parseInt E) node) in
  r.1.2 = set_world (world r.1.2) (set_messageRetries (<[id := rc]> (messageRetries c)) c)
  ∧ goroutines r.2
    = (if bool_decide (rc = 1%Z) then [GoDelayedRequestMessageFromPhone info] else [])
  ∧ (messageRetries c !! id = None →
     (0 < count_in_msg (parseInt E) node < 2 ^ 63 - 1)%Z →
     rc = (count_in_msg (parseInt E) node + 1)%Z).
Proof.
  cbn zeta. split; [|split].
  3: { intros -> Hpos. unfold updated_count. cbn [default].
       rewrite !wrap_int_small by lia. cbn.
       destruct (0 <? count_in_msg (parseInt E) node)%Z eqn:H0; [done|].
       apply Z.ltb_ge in H0. lia. }
  all: unfold updated_count, sendRetryReceipt; cbv zeta;
    change (match attr_index (Attrs node) "id" with VString s => s | _ => "" end)
      with (stanza_id node);
    change (match GetChildren node with
            | [child] => if decide (Tag child = "enc")
                         then (ag_OptionalInt (parseInt E) "count" (AttrGetter child)).1
                         else 0%Z
            | _ => 0%Z
            end) with (count_in_msg (parseInt E) node);
    unfold bind, emit, get, modify, call, ret, log; cbn;
    remember (stanza_id node) as id eqn:Hid;
    remember (count_in_msg (parseInt E) node) as inMsg eqn:HinMsg;
    remember (wrap_int (default 0%Z (messageRetries c !! id) + 1)) as n eqn:Hn;
    destruct (bool_decide (n = 1%Z) && (0 <? inMsg)%Z) eqn:Hadopt; cbn;
    match goal with |- context [(5 <=? ?x)%Z] => generalize x; intros rc end;
    (destruct (5 <=? rc)%Z eqn:Hcap; cbn;
     [rewrite ?insert_insert_eq; try (by destruct c);
      apply Z.leb_le in Hcap; rewrite bool_decide_eq_false_2 by lia; reflexivity|]);
    destruct (bool_decide (rc = 1%Z)); cbn;
    destruct ((1 <? rc)%Z || force); cbn;
    try (destruct (GenOnePreKey E (world c)) as [[e|key] w]; cbn;
         [|destruct (proto_Marshal_Account E (Account c)) as [e|di]; cbn]);
    try send_quiet;
    rewrite ?insert_insert_eq; subst id;
    first [reflexivity | by destruct c].
Qed.

End SendRetryBookkeeping.

(** ** Messages of the history *)

Section WebMessages.
Context {W Bundle AccountT : Type} (E : @Collaborators W Bundle AccountT).
Context (JID_ToNonAD : JID → JID)
        (ParseJID : string → string + JID)
        (GroupServer DefaultUserServer NewsletterServer : string)
        (UnwrapRaw : MessageEvt → MessageEvt).
Implicit Types (c : @Client W AccountT).

Local Abbreviation parse :=
  (ParseWebMessage E JID_ToNonAD ParseJID GroupServer DefaultUserServer NewsletterServer
     UnwrapRaw).

(** Who sent a message of the history. The chat is the one given or, if
    that is empty, the remote JID of the message key; if this does not
    parse the error is returned wrapped. For the chat so found:
    a message of the user's own is sent by the own JID without device
    part, whatever the participant fields say, and parsing fails with
    [ErrNotLoggedIn] exactly when that JID is empty; a message of somebody
    else in a chat on the user or newsletter server is sent by the chat
    itself and parsing cannot fail; in any other chat the sender is parsed
    from the participant of the message, or from the participant of its
    key only if the former is empty, and parsing fails when both are empty
    or the chosen one does not parse (the parse error is not wrapped).
    The group flag says whether the chat is on the group server, and the
    timestamp keeps the seconds of the message. *)
Theorem ParseWebMessage_sender chatJID webMsg c :
  let r := parse chatJID webMsg c in
  let own := JID_ToNonAD (getOwnJID c) in
  match (if JID_IsEmpty E chatJID then ParseJID (RemoteJid (Key webMsg)) else inr chatJID) with
  | inl e =>
      r = inl (Errorf "no chat JID provided and failed to parse remote JID: %w"
                 (Some (ErrExternal e)))
  | inr chat =>
      let direct := Server chat = DefaultUserServer ∨ Server chat = NewsletterServer in
      let ev := parsed_message GroupServer webMsg chat in
      (FromMe (Key webMsg) = true →
       r = if JID_IsEmpty E own then inl ErrNotLoggedIn else inr (UnwrapRaw (ev own)))
      ∧ (FromMe (Key webMsg) = false → direct → r = inr (UnwrapRaw (ev chat)))
      ∧ (FromMe (Key webMsg) = false → ¬ direct →
         let field := if decide (Participant webMsg = "")
                      then KeyParticipant (Key webMsg) else Participant webMsg in
         r = if decide (field = "")
             then inl (Errorf "couldn't find sender of message %s" None)
             else match ParseJID field with
                  | inl _ => inl (Errorf "failed to parse sender of message %s: %v" None)
                  | inr s => inr (UnwrapRaw (ev s))
                  end)
      ∧ (∀ s, PChat (Info (ev s)) = chat
              ∧ PIsGroup (Info (ev s)) = bool_decide (Server chat = GroupServer)
              ∧ ((0 ≤ MessageTimestamp webMsg < 2 ^ 63)%Z →
                 time_Unix (PTimestamp (Info (ev s))) = MessageTimestamp webMsg))
  end.
Proof.
  cbn zeta. unfold ParseWebMessage.
  assert ((if JID_IsEmpty E chatJID
           then match ParseJID (RemoteJid (Key webMsg)) with
                | inl e => inl (Errorf "no chat JID provided and failed to parse remote JID: %w"
                                  (Some (ErrExternal e)))
                | inr j => inr j
                end
           else inr chatJID)
          = match (if JID_IsEmpty E chatJID then ParseJID (RemoteJid (Key webMsg))
                   else inr chatJID) with
            | inl e => inl (Errorf "no chat JID provided and failed to parse remote JID: %w"
                              (Some (ErrExternal e)))
            | inr j => inr j
            end) as -> by (by destruct (JID_IsEmpty E chatJID)).
  destruct (if JID_IsEmpty E chatJID then ParseJID (RemoteJid (Key webMsg)) else inr chatJID)
    as [e|chat]; [done|].
  cbv zeta. unfold parsed_message.
  split; [|split; [|split]].
  - intros ->. by destruct (JID_IsEmpty E _).
  - intros -> [Hd|Hd].
    + by rewrite (bool_decide_eq_true_2 _ Hd).
    + rewrite (bool_decide_eq_true_2 _ Hd). by rewrite orb_true_r.
  - intros -> Hnd.
    rewrite !bool_decide_eq_false_2 by tauto. cbn [orb].
    destruct (decide (Participant webMsg = "")) as [Hp|Hp].
    + rewrite (bool_decide_eq_false_2 (Participant webMsg ≠ "")) by tauto.
      destruct (decide (KeyParticipant (Key webMsg) = "")) as [Hk|Hk].
      * by rewrite (bool_decide_eq_false_2 (KeyParticipant (Key webMsg) ≠ "")) by tauto.
      * rewrite (bool_decide_eq_true_2 (KeyParticipant (Key webMsg) ≠ "")) by done.
        by destruct (ParseJID _).
    + rewrite (bool_decide_eq_true_2 (Participant webMsg ≠ "")) by done.
      rewrite decide_False by done. by destruct (ParseJID _).
  - intros s. split; [done|]. split; [done|]. intros Hts. cbn.
    rewrite wrap_int_small by lia. unfold time_Unix, time_FromUnix.
    by rewrite Z.div_mul.
Qed.

End WebMessages.

(** ** The supervisor and the router *)

Section SupervisorProps.
Context {W Bundle AccountT : Type} (E : @Collaborators W Bundle AccountT).
Implicit Types (s : @Supervised W AccountT) (c : @Client W AccountT).

Lemma events_of_lift (l : list Event) : events_of (EfEvent <$> l) = l.
Proof. induction l as [|x l IH]; [done|]. cbn. fold (events_of (EfEvent <$> l)). by rewrite IH. Qed.

Lemma spawned_lift (l : list Event) : spawned (EfEvent <$> l) = [].
Proof. induction l as [|x l IH]; [done|]. exact IH. Qed.

Lemma sleeps_lift (l : list Event) : sleeps (EfEvent <$> l) = [].
Proof. induction l as [|x l IH]; [done|]. exact IH. Qed.

Lemma events_of_app (t1 t2 : list Effect) : events_of (t1 ++ t2) = events_of t1 ++ events_of t2.
Proof. apply omap_app. Qed.

Lemma spawned_app (t1 t2 : list Effect) : spawned (t1 ++ t2) = spawned t1 ++ spawned t2.
Proof. apply omap_app. Qed.

Lemma sleeps_app (t1 t2 : list Effect) : sleeps (t1 ++ t2) = sleeps t1 ++ sleeps t2.
Proof. apply omap_app. Qed.

Lemma socket_stops_deliveries c : socket_stops (end_of_stream_deliveries c) = [].
Proof.
  unfold end_of_stream_deliveries.
  induction (map_to_list (responseWaiters c)) as [|x l IH]; [done|]. exact IH.
Qed.

Lemma socket_stops_app (t1 t2 : list Event) :
  socket_stops (t1 ++ t2) = socket_stops t1 ++ socket_stops t2.
Proof. apply omap_app. Qed.

(** What the transport's disconnect callback does. [onDisconnect] always
    stops the reported socket, without force. If the client holds another
    socket, or none, nothing else happens: no waiter is touched and no
    goroutine is started. If it is the client's socket, the handle is
    dropped and every pending waiter gets the end-of-stream stanza before
    the waiters are forgotten; the [Disconnected] event and the
    auto-reconnect are started, each once and in this order, exactly when
    the disconnect is remote and was not expected. The settings of the
    supervisor and the handler queue are left alone. *)
Theorem onDisconnect_outcome ns remote s :
  let r := onDisconnect E ns remote s in
  let c := cli s in
  let stopped := set_world (socket_Stop E ns false (world c)) c in
  socket_stops (events_of r.2) = [(ns, false)]
  ∧ same_settings s r.1.2
  ∧ AutoReconnectErrors r.1.2 = AutoReconnectErrors s
  ∧ (socket c ≠ Some ns →
     cli r.1.2 = stopped
     ∧ spawned r.2 = []
     ∧ events_of r.2
       = [EvSocketStop ns false; EvLog LDebug "Ignoring OnDisconnect on different socket"])
  ∧ (socket c = Some ns →
     cli r.1.2 = set_responseWaiters ∅ (set_socket None stopped)
     ∧ (∃ msg, events_of r.2
               = EvSocketStop ns false :: end_of_stream_deliveries c ++ [EvLog LDebug msg])
     ∧ spawned r.2
       = if negb (isExpectedDisconnect c) && remote
         then [GoDispatchEvent Disconnected; GoAutoReconnect] else []).
Proof.
  cbn zeta. unfold onDisconnect, lbind, lift, lget, effect, emit, call_, modify, log,
    clearResponseWaiters; cbn.
  pose proof (socket_stops_deliveries (cli s)) as Hst.
  pose proof events_of_lift as Hev. pose proof spawned_lift as Hgo.
  unfold events_of, spawned, socket_stops, end_of_stream_deliveries in *.
  destruct (decide (socket (cli s) = Some ns)) as [Hs|Hs]; cbn.
  - unfold isExpectedDisconnect; cbn.
    destruct (bool_decide (expectedDisconnectVal (cli s) = 1%Z)); cbn;
      destruct remote; cbn;
      rewrite ?app_nil_r, ?omap_app, ?Hev, ?Hgo; cbn;
      rewrite ?omap_app, ?Hst; cbn;
      (split; [done|]); (split; [done|]); (split; [done|]);
      (split; [intros Hne; by destruct Hne|]);
      intros _; (split; [done|]); (split; [by eexists|done]).
  - split; [done|]. split; [done|]. split; [done|]. split; [|done].
    intros _. split; [by destruct (cli s)|]. done.
Qed.



Lemma backoff_delay (e : Z) :
  (0 ≤ e < 2 ^ 32)%Z →
  wrap_int (wrap_int (e * 2) * time_Second) = (2 * time_Second * e)%Z.
Proof.
  intros He. unfold time_Second.
  rewrite (wrap_int_small (e * 2)) by lia.
  rewrite wrap_int_small by lia. lia.
Qed.

Local Arguments Connect : simpl never.
Local Arguments wrap_int : simpl never.

(** One turn of the loop of [autoReconnect]. *)
Lemma autoReconnect_loop_S (fuel : nat) s :
  autoReconnect_loop E (S fuel) s
  = let d := wrap_int (wrap_int (AutoReconnectErrors s * 2) * time_Second) in
    let s0 := set_AutoReconnectErrors (wrap_int (AutoReconnectErrors s + 1)) s in
    let cr := Connect E (cli s) in
    let s1 := set_cli cr.1.2 s0 in
    let pre := EfEvent (EvLog LDebug "Automatically reconnecting after %v")
               :: EfSleep d :: (EfEvent <$> cr.2) in
    let failed := EfEvent (EvLog LError "Error reconnecting after autoreconnect sleep: %v") in
    match cr.1.1 with
    | None => (true, s1, pre)
    | Some err =>
        if is_ErrAlreadyConnected err then
          (true, s1,
           pre ++ [EfEvent (EvLog LDebug
                     "Connect() said we're already connected after autoreconnect sleep")])
        else
          match AutoReconnectHook s with
          | Some hook =>
              let h := hook err (world cr.1.2) in
              let s2 := set_cli (set_world h.2 cr.1.2) s0 in
              if h.1 then
                let r := autoReconnect_loop E fuel s2 in
                (r.1.1, r.1.2, pre ++ failed :: r.2)
              else
                (true, s2,
                 pre ++ [failed;
                         EfEvent (EvLog LDebug
                           "AutoReconnectHook returned false, not reconnecting")])
          | None =>
              let r := autoReconnect_loop E fuel s1 in
              (r.1.1, r.1.2, pre ++ failed :: r.2)
          end
    end.
Proof.
  cbn [autoReconnect_loop]. cbv zeta. destruct s as [c en errs hook0 nh q].
  unfold lbind, lift, lget, lret, lmodify, effect, log, emit, call; cbn.
  destruct (Connect E c) as [[[err|] c1] t1]; cbn.
  2: { by rewrite app_nil_r. }
  destruct (is_ErrAlreadyConnected err); cbn; [done|].
  destruct hook0 as [hook|]; cbn.
  - destruct (hook err (world c1)) as [[] w]; cbn; [|done].
    by destruct (autoReconnect_loop E fuel _) as [[? ?] ?].
  - by destruct (autoReconnect_loop E fuel _) as [[? ?] ?].
Qed.

Lemma autoReconnect_loop_backoff (fuel : nat) s :
  (0 ≤ AutoReconnectErrors s)%Z →
  (AutoReconnectErrors s + Z.of_nat fuel < 2 ^ 32)%Z →
  let r := autoReconnect_loop E fuel s in
  let e0 := AutoReconnectErrors s in
  ∃ k, (k ≤ fuel)%nat
    ∧ sleeps r.2 = (λ i, 2 * time_Second * (e0 + Z.of_nat i))%Z <$> seq 0 k
    ∧ AutoReconnectErrors r.1.2 = (e0 + Z.of_nat k)%Z
    ∧ (r.1.1 = false → k = fuel)
    ∧ (r.1.1 = true → (0 < k)%nat)
    ∧ spawned r.2 = []
    ∧ same_settings s r.1.2.
Proof.
  revert s. induction fuel as [|fuel IH]; intros s H0 Hb; cbn zeta.
  { exists 0%nat. cbn. split; [lia|]. split; [done|]. split; [lia|].
    split; [done|]. split; [done|]. done. }
  rewrite autoReconnect_loop_S. cbv zeta.
  rewrite backoff_delay by lia.
  rewrite (wrap_int_small (AutoReconnectErrors s + 1)) by lia.
  set (s0 := set_AutoReconnectErrors (AutoReconnectErrors s + 1) s).
  assert (∀ l tl, sleeps (EfEvent (EvLog LDebug "Automatically reconnecting after %v")
                          :: EfSleep (2 * time_Second * AutoReconnectErrors s)
                          :: (EfEvent <$> l) ++ tl)
                  = (2 * time_Second * AutoReconnectErrors s)%Z :: sleeps tl) as Hsl.
  { intros l tl. unfold sleeps. cbn. f_equal. rewrite omap_app.
    pose proof (sleeps_lift l) as H. unfold sleeps in H. by rewrite H. }
  assert (∀ l tl, spawned (EfEvent (EvLog LDebug "Automatically reconnecting after %v")
                           :: EfSleep (2 * time_Second * AutoReconnectErrors s)
                           :: (EfEvent <$> l) ++ tl) = spawned tl) as Hgo.
  { intros l tl. unfold spawned. cbn. rewrite omap_app.
    pose proof (spawned_lift l) as H. unfold spawned in H. by rewrite H. }
  assert (∀ (s' : Supervised) (tl : list Effect) l,
            AutoReconnectErrors s' = (AutoReconnectErrors s + 1)%Z → same_settings s s' →
            sleeps tl = [] → spawned tl = [] →
            ∃ k, (k ≤ S fuel)%nat
              ∧ sleeps (EfEvent (EvLog LDebug "Automatically reconnecting after %v")
                        :: EfSleep (2 * time_Second * AutoReconnectErrors s)
                        :: (EfEvent <$> l) ++ tl)
                = (λ i, 2 * time_Second * (AutoReconnectErrors s + Z.of_nat i))%Z <$> seq 0 k
              ∧ AutoReconnectErrors s' = (AutoReconnectErrors s + Z.of_nat k)%Z
              ∧ (true = false → k = S fuel)
              ∧ (true = true → (0 < k)%nat)
              ∧ spawned (EfEvent (EvLog LDebug "Automatically reconnecting after %v")
                         :: EfSleep (2 * time_Second * AutoReconnectErrors s)
                         :: (EfEvent <$> l) ++ tl) = []
              ∧ same_settings s s') as Hstop.
  { intros s' tl l He Hs' Htl1 Htl2. exists 1%nat.
    split; [lia|]. split; [rewrite Hsl, Htl1; cbn; do 2 f_equal; lia|].
    split; [lia|]. split; [done|]. split; [lia|]. split; [by rewrite Hgo|done]. }
  assert (∀ (s' : Supervised) l,
            AutoReconnectErrors s' = (AutoReconnectErrors s + 1)%Z → same_settings s s' →
            let r := autoReconnect_loop E fuel s' in
            ∃ k, (k ≤ S fuel)%nat
              ∧ sleeps (EfEvent (EvLog LDebug "Automatically reconnecting after %v")
                        :: EfSleep (2 * time_Second * AutoReconnectErrors s)
                        :: (EfEvent <$> l)
                        ++ EfEvent (EvLog LError "Error reconnecting after autoreconnect sleep: %v")
                           :: r.2)
                = (λ i, 2 * time_Second * (AutoReconnectErrors s + Z.of_nat i))%Z <$> seq 0 k
              ∧ AutoReconnectErrors r.1.2 = (AutoReconnectErrors s + Z.of_nat k)%Z
              ∧ (r.1.1 = false → k = S fuel)
              ∧ (r.1.1 = true → (0 < k)%nat)
              ∧ spawned (EfEvent (EvLog LDebug "Automatically reconnecting after %v")
                         :: EfSleep (2 * time_Second * AutoReconnectErrors s)
                         :: (EfEvent <$> l)
                         ++ EfEvent (EvLog LError "Error reconnecting after autoreconnect sleep: %v")
                            :: r.2) = []
              ∧ same_settings s r.1.2) as Hgoon.
  { intros s' l He Hs'. cbn zeta.
    destruct (IH s') as (k & Hk & Hsleeps & Herr & Hfalse & Htrue & Hsp & Hset);
      [lia|lia|].
    exists (S k). split; [lia|]. split.
    { rewrite Hsl. change (sleeps (?x :: ?t)) with (sleeps t). rewrite Hsleeps.
      cbn [seq fmap list_fmap]. f_equal; [f_equal; lia|].
      rewrite <- fmap_S_seq, <- list_fmap_compose. apply list_fmap_ext.
      intros i x _. cbn. rewrite He. f_equal. lia. }
    split; [rewrite Herr, He; lia|]. split; [intros Hf; by rewrite (Hfalse Hf)|].
    split; [lia|]. split; [by rewrite Hgo|].
    destruct Hs' as (? & ? & ? & ?), Hset as (? & ? & ? & ?).
    repeat split; congruence. }
  destruct (Connect E (cli s)) as [[[err|] c1] t1]; cbn [fst snd].
  2: { rewrite <- (app_nil_r (EfEvent <$> t1)). by apply Hstop. }
  destruct (is_ErrAlreadyConnected err).
  { by apply Hstop. }
  destruct (AutoReconnectHook s) as [hook|]; [|by apply Hgoon].
  destruct (hook err (world c1)) as [[] w]; cbn [fst snd]; [by apply Hgoon|].
  by apply Hstop.
Qed.

Lemma autoReconnect_eq (fuel : nat) s :
  autoReconnect E fuel s
  = if negb (EnableAutoReconnect s) || bool_decide (StoreJID (cli s) = None)
    then (true, s, []) else autoReconnect_loop E fuel s.
Proof.
  unfold autoReconnect, lbind, lget, lret. cbn [fst snd].
  destruct (negb _ || _); [done|].
  by destruct (autoReconnect_loop E fuel s) as [[? ?] ?].
Qed.

(** The back-off of [autoReconnect]. It returns at once, doing nothing,
    when auto-reconnect is disabled or the device has no JID. Otherwise
    every attempt logs, counts itself in [AutoReconnectErrors], sleeps and
    calls [Connect]: the sleep before attempt [i] (from 0) is two seconds
    times the error count at entry plus [i], so the delays grow by two
    seconds per failed attempt, and the count is never reset here. An
    attempt on which [Connect] succeeds or reports [ErrAlreadyConnected]
    is the last one. After any other failure the hook, if there is one,
    is asked: if it answers [false] the method returns, and otherwise
    (also without a hook) the next attempt follows, with the count one
    higher. No goroutine is started, and the settings and the handler
    queue are left alone. The bounds keep the count below [2 ^ 32], where
    neither the count nor the delay overflows. *)
Theorem autoReconnect_backoff (fuel : nat) s :
  let r := autoReconnect E fuel s in
  let e0 := AutoReconnectErrors s in
  let cr := Connect E (cli s) in
  (EnableAutoReconnect s = false ∨ StoreJID (cli s) = None → r = (true, s, []))
  ∧ (EnableAutoReconnect s = true → is_Some (StoreJID (cli s)) →
     (0 ≤ e0)%Z → (e0 + Z.of_nat fuel < 2 ^ 32)%Z →
     ∃ k, (k ≤ fuel)%nat
       ∧ sleeps r.2 = (λ i, 2 * time_Second * (e0 + Z.of_nat i))%Z <$> seq 0 k
       ∧ AutoReconnectErrors r.1.2 = (e0 + Z.of_nat k)%Z
       ∧ (r.1.1 = false → k = fuel)
       ∧ (r.1.1 = true → (0 < k)%nat)
       ∧ spawned r.2 = []
       ∧ same_settings s r.1.2)
  ∧ (EnableAutoReconnect s = true → is_Some (StoreJID (cli s)) →
     (0 ≤ e0 < 2 ^ 32 - 1)%Z → (0 < fuel)%nat →
     cr.1.1 = None ∨ cr.1.1 = Some ErrAlreadyConnected →
     r.1.1 = true
     ∧ sleeps r.2 = [2 * time_Second * e0]%Z
     ∧ AutoReconnectErrors r.1.2 = (e0 + 1)%Z
     ∧ cli r.1.2 = cr.1.2)
  ∧ (EnableAutoReconnect s = true → is_Some (StoreJID (cli s)) →
     (0 ≤ e0 < 2 ^ 32 - 1)%Z →
     ∀ n err, fuel = S n → cr.1.1 = Some err → is_ErrAlreadyConnected err = false →
     let h := match AutoReconnectHook s with
              | Some hook => hook err (world cr.1.2)
              | None => (true, world cr.1.2)
              end in
     let s' := set_cli (set_world h.2 cr.1.2) (set_AutoReconnectErrors (e0 + 1) s) in
     let next := autoReconnect_loop E n s' in
     if h.1
     then r.1.1 = next.1.1 ∧ r.1.2 = next.1.2
          ∧ sleeps r.2 = (2 * time_Second * e0)%Z :: sleeps next.2
     else r.1.1 = true ∧ r.1.2 = s' ∧ sleeps r.2 = [2 * time_Second * e0]%Z).
Proof.
  cbn zeta. rewrite autoReconnect_eq.
  split; [|split; [|split]].
  - intros [-> | ->]; cbn; [done|]. by rewrite orb_true_r.
  - intros -> [j Hj] H0 Hb. rewrite Hj. cbn [negb orb].
    rewrite bool_decide_eq_false_2 by done.
    destruct (autoReconnect_loop_backoff fuel s H0 Hb) as (k & Hk).
    by exists k.
  - intros -> [j Hj] H0 Hfuel Hcr. rewrite Hj. cbn [negb orb].
    rewrite bool_decide_eq_false_2 by done.
    destruct fuel as [|fuel]; [lia|].
    rewrite autoReconnect_loop_S. cbv zeta.
    rewrite backoff_delay by lia.
    rewrite (wrap_int_small (AutoReconnectErrors s + 1)) by lia.
    pose proof (sleeps_lift (Connect E (cli s)).2) as Hsl. unfold sleeps in *.
    destruct (Connect E (cli s)) as [[cres c1] t1]; cbn [fst snd] in *.
    destruct Hcr as [-> | ->]; cbn; rewrite ?omap_app, ?Hsl; done.
  - intros -> [j Hj] H0 n err -> Herr Hnot. rewrite Hj. cbn [negb orb].
    rewrite bool_decide_eq_false_2 by done.
    rewrite autoReconnect_loop_S. cbv zeta.
    rewrite backoff_delay by lia.
    rewrite (wrap_int_small (AutoReconnectErrors s + 1)) by lia.
    pose proof (sleeps_lift (Connect E (cli s)).2) as Hsl. unfold sleeps in *.
    destruct (Connect E (cli s)) as [[cres c1] t1]; cbn [fst snd] in *.
    subst cres. rewrite Hnot.
    assert (set_world (world c1) c1 = c1) as Hc1 by (by destruct c1).
    destruct (AutoReconnectHook s) as [hook|]; cbn [fst snd].
    + destruct (hook err (world c1)) as [[] w]; cbn [fst snd].
      * split; [done|]. split; [done|]. cbn. by rewrite omap_app, Hsl.
      * split; [done|]. split; [done|]. cbn. by rewrite omap_app, Hsl.
    + rewrite Hc1. split; [done|]. split; [done|]. cbn. by rewrite omap_app, Hsl.
Qed.

Section Router.
Context (waBinary_Unpack : list Z → string + list Z)
        (waBinary_Unmarshal : list Z → string + Node)
        (receiveResponse : Node → @M W AccountT bool).

Local Abbreviation route := (handleFrame waBinary_Unpack waBinary_Unmarshal receiveResponse).

(** How an inbound frame is routed. A frame that does not unpack or does
    not decode is logged and dropped: the state is unchanged and the
    request registry is not consulted. A decoded stanza is put on the
    handler queue exactly when it is not the end-of-stream stanza, no
    pending request takes it, and its tag has a node handler: it is
    appended at the end if the queue has room, and otherwise the queue is
    left as it is and a goroutine is started that sends the stanza later,
    so the stanza is not lost and the queue never grows beyond its
    capacity. In every other case the queue is untouched and no goroutine
    is started; the end-of-stream stanza is never offered to the request
    registry. *)
Theorem handleFrame_routing data s :
  let r := route data s in
  same_settings s (set_handlerQueue (handlerQueue s) r.1.2)
  ∧ AutoReconnectErrors r.1.2 = AutoReconnectErrors s
  ∧ match waBinary_Unpack data with
    | inl _ => r.1.2 = s ∧ spawned r.2 = []
    | inr d =>
        match waBinary_Unmarshal d with
        | inl _ => r.1.2 = s ∧ spawned r.2 = []
        | inr node =>
            let rr := receiveResponse node (cli s) in
            let queued := bool_decide (Tag node ≠ "xmlstreamend") && negb rr.1.1
                          && bool_decide (Tag node ∈ nodeHandlers s) in
            (Tag node = "xmlstreamend" → cli r.1.2 = cli s)
            ∧ (Tag node ≠ "xmlstreamend" → cli r.1.2 = rr.1.2)
            ∧ (queued = false → handlerQueue r.1.2 = handlerQueue s ∧ spawned r.2 = [])
            ∧ (queued = true → (length (handlerQueue s) < handlerQueueSize)%nat →
               handlerQueue r.1.2 = handlerQueue s ++ [node] ∧ spawned r.2 = [])
            ∧ (queued = true → (handlerQueueSize ≤ length (handlerQueue s))%nat →
               handlerQueue r.1.2 = handlerQueue s
               ∧ spawned r.2 = [GoQueueSend node]
               ∧ EvLog LWarn "Handler queue is full, message ordering is no longer guaranteed"
                 ∈ events_of r.2)
            ∧ ((length (handlerQueue s) ≤ handlerQueueSize)%nat →
               (length (handlerQueue r.1.2) ≤ handlerQueueSize)%nat)
        end
    end.
Proof.
  cbn zeta. unfold handleFrame.
  destruct (waBinary_Unpack data) as [e|d].
  { unfold lbind, lift, log, emit; cbn. split; [done|]. split; [done|].
    split; [by destruct s|done]. }
  destruct (waBinary_Unmarshal d) as [e|node].
  { unfold lbind, lift, log, emit; cbn. split; [done|]. split; [done|].
    split; [by destruct s|done]. }
  pose proof spawned_lift as Hgo. pose proof events_of_lift as Hev.
  unfold spawned, events_of in *.
  destruct (decide (Tag node = "xmlstreamend")) as [Hend|Hend].
  { rewrite (bool_decide_eq_false_2 (Tag node ≠ "xmlstreamend")) by tauto.
    unfold lbind, lift, lget, lret, log, emit; cbn.
    destruct (negb (isExpectedDisconnect (cli s))); cbn;
      (split; [done|]); (split; [done|]); (split; [done|]); (split; [done|]);
      (split; [done|]); (split; [done|]); (split; [done|]); done. }
  rewrite (bool_decide_eq_true_2 (Tag node ≠ "xmlstreamend")) by done. cbn [andb].
  unfold lbind, lift, lget, lret, lmodify, effect, log, emit; cbn.
  destruct (receiveResponse node (cli s)) as [[handled c1] t1]; cbn.
  destruct handled; cbn.
  { rewrite ?app_nil_r, ?omap_app, ?Hgo; cbn.
    split; [done|]. split; [done|]. split; [done|]. split; [done|]. split; [done|].
    split; [done|]. split; [done|]. done. }
  destruct (decide (Tag node ∈ nodeHandlers s)) as [Hin|Hin]; cbn.
  - rewrite (bool_decide_eq_true_2 _ Hin).
    destruct (decide (length (handlerQueue s) < handlerQueueSize)%nat) as [Hroom|Hfull]; cbn;
      rewrite ?app_nil_r, ?omap_app, ?Hgo, ?Hev; cbn;
      (split; [done|]); (split; [done|]); (split; [done|]); (split; [done|]);
      (split; [done|]).
    + split; [done|]. split; [intros _ ?; lia|].
      intros _. rewrite length_app. cbn. lia.
    + split; [intros _ ?; lia|]. split; [|done].
      intros _ _. split; [done|]. split; [done|]. set_solver.
  - rewrite (bool_decide_eq_false_2 _ Hin).
    destruct (decide (Tag node ≠ "ack")); cbn;
      rewrite ?app_nil_r, ?omap_app, ?Hgo; cbn;
      (split; [done|]); (split; [done|]); (split; [done|]); (split; [done|]);
      (split; [done|]); (split; [done|]); (split; [done|]); done.
Qed.

End Router.

End SupervisorProps.

(** ** The same properties on concrete inputs *)

(** Six registry operations on a fresh client, the first handler removed
    first: every handler left is callable and a dispatch logs no panic. *)
Lemma registry_never_holds_nil_witness :
  let c' := registry_run Bench.registry_ops Bench.client0 in
  Forall (λ h, is_Some (handler_fn h)) (eventHandlers c')
  ∧ logged LError (dispatchEvent Disconnected c').2 = [].
Proof.
  apply (registry_never_holds_nil Disconnected Bench.registry_ops Bench.client0).
  - constructor.
  - unfold Bench.registry_ops.
    repeat (constructor; [intros f Hf; cbn in Hf; try discriminate Hf;
                          injection Hf as <-; by intros evt w|]).
    constructor.
Defined.

(** The same operations: the ids left are distinct and the counter stands
    at the number of registrations. *)
Lemma registry_ids_unique_witness :
  let c' := registry_run Bench.registry_ops Bench.client0 in
  ids_increasing c'
  ∧ NoDup (handler_id <$> eventHandlers c')
  ∧ nextHandlerID c' = 4%Z.
Proof.
  apply (registry_ids_unique Bench.registry_ops Bench.client0).
  - split; [done|]. split; constructor.
  - vm_compute. reflexivity.
Defined.

(** Three handlers, the second one panicking: the clock was advanced once
    only, by the first handler, and one panic is logged. *)
Lemma dispatchEvent_stops_at_panic_witness :
  Bench.clock (world (dispatchEvent Disconnected Bench.three_handlers).1.2) = 1%Z
  ∧ logged LError (dispatchEvent Disconnected Bench.three_handlers).2
    = ["Event handler panicked while handling a %T: %v\n%s"].
Proof.
  destruct (dispatchEvent_stops_at_panic Disconnected Bench.three_handlers
              [mkHandler (Some Bench.ticking) 1; mkHandler (Some Bench.panicky) 2]
              [mkHandler (Some Bench.ticking) 3] eq_refl) as [Hpanic _].
  rewrite (Hpanic eq_refl). split; reflexivity.
Defined.

(** Connecting a client that holds a dead socket: the dead socket is
    stopped, one frame socket is opened and none closed, and both loops
    run on the new socket. *)
Lemma Connect_cleans_up_witness :
  ∃ fs ns,
    frame_opens (Connect Bench.env Bench.stale_client).2 = [fs]
    ∧ socket_stops (Connect Bench.env Bench.stale_client).2 = [(5%positive, true)]
    ∧ frame_closes (Connect Bench.env Bench.stale_client).2 = []
    ∧ socket (Connect Bench.env Bench.stale_client).1.2 = Some ns
    ∧ goroutines (Connect Bench.env Bench.stale_client).2
      = [GoKeepAliveLoop ns; GoHandlerQueueLoop ns].
Proof.
  destruct (Connect_cleans_up Bench.env Bench.stale_client eq_refl)
    as (fs & Hopen & Hstop & _ & Hok).
  destruct (Hok eq_refl) as (Hclose & ns & Hsock & Hgo).
  exists fs, ns. repeat split; assumption.
Defined.

(** After 257 additions the two last messages are found, the first one
    and a message to another recipient are not. *)
Lemma recent_messages_lookup_witness :
  ∃ c, addRecentMessages Bench.distinct_calls Bench.client0 = Some c
       ∧ getRecentMessage Bench.bob "m257" c = Bench.ptr1
       ∧ getRecentMessage Bench.bob "m256" c = Bench.ptr1
       ∧ getRecentMessage Bench.bob (String (ascii_of_nat 1) "") c = None
       ∧ getRecentMessage Bench.alice "m257" c = None.
Proof.
  assert (NoDup (call_key <$> Bench.distinct_calls)) as Hnd.
  { apply (bool_decide_unpack _). vm_compute. exact I. }
  assert (Forall occupied (call_key <$> Bench.distinct_calls)) as Hocc.
  { apply (bool_decide_unpack _). vm_compute. exact I. }
  destruct (recent_messages_lookup (Some Bench.alice) 305419896 [1%Z]
              (mkPreKey 1 [2%Z] (Some [3%Z])) true ∅ 0 Bench.world0
              Bench.distinct_calls Hnd Hocc) as (c & Hrun & Hin & Hout).
  exists c. split; [exact Hrun|].
  split; [exact (Hin 256%nat (Bench.bob, "m257", Bench.ptr1) eq_refl)|].
  split; [exact (Hin 255%nat (Bench.bob, "m256", Bench.ptr1) eq_refl)|].
  split; [exact (Hin 0%nat (Bench.numbered 1) eq_refl)|].
  apply Hout. apply (bool_decide_unpack _). vm_compute. exact I.
Defined.

(** A retry receipt on a device that is not logged in: the error is
    returned, the receipt was counted and nothing is sent. *)
Lemma retry_refused_after_counting_witness :
  let r := handleRetryReceipt Bench.env Bench.retry_receipt Bench.retry_node Bench.logged_out in
  r.1.1 = Some ErrNotLoggedIn
  ∧ incomingRetryRequestCounter r.1.2 !! mkRetryKey Bench.bob "M1" = Some 1%Z
  ∧ sent_nodes r.2 = [].
Proof.
  cbn zeta.
  destruct (retry_refused_after_counting Bench.env Bench.retry_receipt Bench.retry_node
              Bench.logged_out "M1" 1700000000000000000 1) as [Hout _].
  - vm_compute. reflexivity.
  - left. exists 1%positive. vm_compute. reflexivity.
  - vm_compute. reflexivity.
  - destruct (Hout eq_refl) as (Hres & Hctr & Hsent & _).
    split; [exact Hres|]. split; [|exact Hsent].
    rewrite Hctr. apply lookup_insert_eq.
Defined.

(** The answer to a retry receipt of bob for [M1]. *)
Lemma retry_message_addressing_witness :
  ∃ p, sent_nodes (handleRetryReceipt Bench.env Bench.retry_receipt Bench.retry_node
                     Bench.retry_client).2 = [p]
       ∧ Tag p = "message"
       ∧ Attrs p !! "to" = Some (VJID Bench.bob)
       ∧ Attrs p !! "id" = Some (VString "M1")
       ∧ Attrs p !! "t" = Some (VInt64 1700000000)
       ∧ Attrs p !! "device_fanout" = Some (VBool false)
       ∧ Attrs p !! "participant" = None.
Proof.
  assert (∃ p, sent_nodes (handleRetryReceipt Bench.env Bench.retry_receipt Bench.retry_node
                             Bench.retry_client).2 = [p]) as [p Hp]
    by (eexists; vm_compute; reflexivity).
  exists p.
  destruct (retry_message_addressing Bench.env Bench.retry_receipt Bench.retry_node
              Bench.retry_client p) as (id & ts & cnt & Hparse & _ & Htag & Hto & Hid & Ht & Hfan & Hcopy).
  { rewrite Hp. apply list_elem_of_singleton. reflexivity. }
  assert (id = "M1" ∧ ts = 1700000000000000000%Z) as [-> ->].
  { vm_compute in Hparse. by injection Hparse as <- <- <-. }
  split; [exact Hp|]. split; [exact Htag|]. split; [exact Hto|]. split; [exact Hid|].
  split; [exact Ht|]. split; [exact Hfan|].
  rewrite (Hcopy "participant"); [reflexivity|]. apply list_elem_of_here.
Defined.
